(** * Options backtest framework: a shallow embedding and its properties

    The development embeds [OptionsBacktestFramework] of
    [backtest_framework.py] (the market-data lookups, the moving average,
    [backtest_strategy] and [calculate_performance_metrics]),
    [combine_portfolio] and the strategy wrapper of [run_backtest.py], and
    [get_entry_signal] of the three strategy files.

    Conventions of the embedding.
    - The market-data table (a pandas DataFrame) is a [list Row] in table
      order; a boolean mask is [List.filter], [iloc[0]] is the head,
      [iloc[-1]] is the last element.
    - Python floats are rationals ([Q]).  The arithmetic of the engine and
      of the metrics is exact: the results about it are equations the
      floats satisfy under their own operations, or bounds that hold for
      the floats as well.  The strategies decide by comparing a quote with
      a rounded product, so their thresholds are rounded as binary64
      rounds them ([Float.rnd]).
      A missing value ([NaN]) of the [UNDERLYING] column is [None]; the
      other numeric columns are taken to hold numbers.  In [Q] a division
      by zero yields [0] where a float yields [inf] or [NaN]; every theorem
      that depends on a quotient carries the positivity it needs.
    - The power and the square root of the metrics (CAGR and Sharpe ratio)
      are not rational operations: they are parameters [float_pow] and
      [float_sqrt] of the metrics section.  The mean of a pandas series of
      floats depends on the order pandas adds them up in: it is the
      parameter [float_mean] of the moving average and of the strategies.
    - An exception the code raises is a value of [Raised].
    - Dates are day numbers ([Z]), timestamps are seconds ([Z]):
      [pd.Timestamp(f"{date} 15:00:00")] is [date * 86400 + 54000].
    - [trades_today] (a dict) is a [gmap Z nat]. *)

From Stdlib Require Import ZArith QArith Qpower Qminmax Qround Qabs List String Ascii Lia Lqa.
From Stdlib Require Import Permutation Sorted.
From stdpp Require Import gmap strings list.

Close Scope Q_scope.
Local Open Scope Z_scope.

(** ** Data model *)

(** One row of [nifty_data]. *)
Record Row := mkRow {
  Date : Z;
  Time : string;
  DateTime : Z;
  UNDERLYING : option Q;
  Expiry : Z;
  DTE : Q;
  Strike : Q;
  Option_Type : string;
  Close : Q
}.

(** An entry of [live_positions]. *)
Record Position := mkPosition {
  pos_entry_date : Z;
  pos_entry_time : string;
  pos_expiry : Z;
  pos_strike : Q;
  pos_option_type : string;
  pos_entry_price : Q;
  pos_investment : Q;
  pos_underlying_at_entry : Q
}.

(** An entry of [trades], a row of the returned ledger. *)
Record Trade := mkTrade {
  strategy : string;
  entry_date : Z;
  exit_date : Z;
  entry_time : string;
  exit_time : string;
  option_type : string;
  strike : Q;
  expiry : Z;
  entry_price : Q;
  exit_price : Q;
  profit : Q;
  profit_pct : Q;
  capital_after : Q;
  underlying_at_entry : Q
}.

(** The local variables of [backtest_strategy] that persist across dates. *)
Record State := mkState {
  capital : Q;
  trades : list Trade;
  trades_today : gmap Z nat;
  live_positions : list Position;
  entry_checks : nat
}.

(** ** Python and pandas primitives *)

Module Py.

(** Comparisons on floats. *)
Definition Qlt_bool (a b : Q) : bool := negb (Qle_bool b a).

(** [round(x)] on a float: to the nearest integer, ties to the even one. *)
Definition round (x : Q) : Z :=
  let f := Qfloor x in
  let r := (x - inject_Z f)%Q in
  if Qlt_bool r (1 # 2) then f
  else if Qlt_bool (1 # 2) r then f + 1
  else if Z.even f then f else f + 1.

(** [s.split(':')]. *)
Fixpoint split_colon_aux (acc : string) (s : string) : list string :=
  match s with
  | EmptyString => [String.rev acc]
  | String c s' =>
      if Ascii.eqb c ":"%char then String.rev acc :: split_colon_aux EmptyString s'
      else split_colon_aux (String c acc) s'
  end.

Definition split_colon (s : string) : list string := split_colon_aux EmptyString s.

(** The characters [int] strips from both ends. *)
Definition is_space (c : ascii) : bool :=
  let n := nat_of_ascii c in
  ((9 <=? n) && (n <=? 13) || (28 <=? n) && (n <=? 32))%nat.

Fixpoint lstrip (s : string) : string :=
  match s with
  | String c s' => if is_space c then lstrip s' else s
  | EmptyString => EmptyString
  end.

Definition strip (s : string) : string :=
  String.rev (lstrip (String.rev (lstrip s))).

Definition digit_of (c : ascii) : option Z :=
  let n := nat_of_ascii c in
  if ((48 <=? n) && (n <=? 57))%nat then Some (Z.of_nat n - 48) else None.

(** Decimal digits with single underscores between digits.
    [prev_digit] says whether the character before was a digit. *)
Fixpoint digits (acc : Z) (prev_digit : bool) (s : string) : option Z :=
  match s with
  | EmptyString => if prev_digit then Some acc else None
  | String c s' =>
      match digit_of c with
      | Some d => digits (10 * acc + d) true s'
      | None =>
          if Ascii.eqb c "_"%char && prev_digit then digits acc false s'
          else None
      end
  end.

(** [int(s)] for an ASCII string; [None] stands for [ValueError]. *)
Definition int (s : string) : option Z :=
  match strip s with
  | String "-"%char s' => Z.opp <$> digits 0 false s'
  | String "+"%char s' => digits 0 false s'
  | s' => digits 0 false s'
  end.

(** [sorted(xs)] on integers, and [sorted(xs, reverse=True)]. *)
Fixpoint insert_asc (x : Z) (l : list Z) : list Z :=
  match l with
  | [] => [x]
  | y :: l' => if x <=? y then x :: l else y :: insert_asc x l'
  end.

Definition sorted (l : list Z) : list Z := foldr insert_asc [] l.

Fixpoint insert_desc (x : nat) (l : list nat) : list nat :=
  match l with
  | [] => [x]
  | y :: l' => if (y <=? x)%nat then x :: l else y :: insert_desc x l'
  end.

Definition sorted_reverse (l : list nat) : list nat := foldr insert_desc [] l.

(** [Series.unique()]: the distinct values in order of first appearance. *)
Fixpoint unique (l : list Z) : list Z :=
  match l with
  | [] => []
  | x :: l' => x :: List.filter (fun y => negb (y =? x)) (unique l')
  end.

(** [l.pop(i)] for [i < len(l)]. *)
Fixpoint pop {A} (i : nat) (l : list A) : list A :=
  match l, i with
  | [], _ => []
  | _ :: l', O => l'
  | x :: l', S i' => x :: pop i' l'
  end.

(** [range(0, n, 5)]. *)
Definition range5 (n : nat) : list nat :=
  List.map (fun k => (5 * k)%nat) (seq 0 ((n + 4) / 5)).

End Py.

(** ** Loops

    A [for] loop is a left fold of its body; a loop whose first statement
    is a guarded [break] stops at the first state where the guard holds.
    Each loop comes with its trace: the state after every iteration. *)

Section Loops.
Context {S X : Type}.

Definition for_loop (body : S -> X -> S) (xs : list X) (s : S) : S :=
  fold_left body xs s.

Fixpoint for_trace (body : S -> X -> S) (xs : list X) (s : S) : list S :=
  match xs with
  | [] => []
  | x :: xs' => body s x :: for_trace body xs' (body s x)
  end.

Fixpoint for_break (stop : S -> bool) (body : S -> X -> S) (xs : list X) (s : S) : S :=
  match xs with
  | [] => s
  | x :: xs' => if stop s then s else for_break stop body xs' (body s x)
  end.

Fixpoint for_break_trace (stop : S -> bool) (body : S -> X -> S) (xs : list X) (s : S)
  : list S :=
  match xs with
  | [] => []
  | x :: xs' =>
      if stop s then [] else body s x :: for_break_trace stop body xs' (body s x)
  end.
End Loops.

(** [enumerate(l)]. *)
Definition enumerate {A} (l : list A) : list (nat * A) :=
  combine (seq 0 (length l)) l.

(** ** The framework *)

Section Framework.
(** [self.nifty_data] and [self.initial_capital]. *)
Variable nifty_data : list Row.
Variable initial_capital : Q.

Definition contract_rows (date expiry : Z) (strike : Q) (option_type : string)
  : list Row :=
  List.filter
    (fun r => (Date r =? date) && (Expiry r =? expiry)
              && Qeq_bool (Strike r) strike
              && String.eqb (Option_Type r) option_type)
    nifty_data.

(** [groupby('Expiry')['DTE'].first()]: keys ascending, each with the
    [DTE] of its first row. *)
Definition groupby_Expiry_DTE_first (date_data : list Row) : list (Z * Q) :=
  flat_map
    (fun e => match List.find (fun r => Expiry r =? e) date_data with
              | Some r => [(e, DTE r)]
              | None => []
              end)
    (Py.sorted (Py.unique (List.map Expiry date_data))).

(** [Series.idxmin()]: the label of the first minimum. *)
Definition idxmin (s : list (Z * Q)) : option Z :=
  match s with
  | [] => None
  | x :: s' =>
      Some (fst (fold_left
                   (fun best y => if Py.Qlt_bool (snd y) (snd best) then y else best)
                   s' x))
  end.

Definition get_nearest_expiry (current_date : Z) : option Z :=
  let date_data := List.filter (fun r => Date r =? current_date) nifty_data in
  if (length date_data =? 0)%nat then None
  else
    let unique_expiries := groupby_Expiry_DTE_first date_data in
    if (length unique_expiries =? 0)%nat then None
    else idxmin unique_expiries.

Definition get_atm_strike (underlying_price : option Q) : option Z :=
  match underlying_price with
  | None => None
  | Some p =>
      if Qle_bool p 0 then None
      else Some (Py.round (p / 50) * 50)
  end.

Definition get_option_price (date expiry : Z) (strike : Q) (option_type : string)
  : option Q :=
  let date_data := contract_rows date expiry strike option_type in
  match date_data with
  | [] => None
  | r :: _ => Some (Close r)
  end.

Definition close_time (date : Z) : Z := date * 86400 + 54000.

Definition get_exit_price_at_close (date expiry : Z) (strike : Q) (option_type : string)
  : option Q :=
  let date_data := contract_rows date expiry strike option_type in
  if (length date_data =? 0)%nat then None
  else
    let close_data :=
      List.filter (fun r => DateTime r <=? close_time date) date_data in
    if (0 <? length close_data)%nat
    then Close <$> last close_data
    else Close <$> last date_data.

(** *** [backtest_strategy] *)

Variable strategy_name : string.
(** [entry_logic(date, current_underlying, current_data)] returns
    [(option_type, should_entry)]; [None] is Python's [None]. *)
Variable entry_logic : Z -> Q -> list Row -> option string * bool.

Definition initial_state : State :=
  mkState initial_capital [] ∅ [] 0.

Definition unique_dates : list Z :=
  Py.sorted (Py.unique (List.map Date nifty_data)).

(** [trades_today[date]] and [trades_today[date] += 1]. *)
Definition count_today (m : gmap Z nat) (date : Z) : nat :=
  default 0%nat (m !! date).

Definition incr_today (m : gmap Z nat) (date : Z) : gmap Z nat :=
  <[date := S (count_today m date)]> m.

Definition set_live (st : State) (l : list Position) : State :=
  mkState (capital st) (trades st) (trades_today st) l (entry_checks st).

(** The body of the two closing loops (lines 114-143 and 208-236), which
    differ in their guard only: [due date entry_date]. *)
Definition close_body (due : Z -> Z -> bool) (date : Z)
    (acc : State * list nat) (ip : nat * Position) : State * list nat :=
  let '(st, positions_to_close) := acc in
  let '(i, pos) := ip in
  if due date (pos_entry_date pos) then
    match get_exit_price_at_close date (pos_expiry pos) (pos_strike pos)
            (pos_option_type pos) with
    | Some exit_price =>
        let pnl_pct := ((exit_price - pos_entry_price pos) / pos_entry_price pos)%Q in
        let pnl := (pos_investment pos * pnl_pct)%Q in
        let capital' := (capital st + pnl)%Q in
        (mkState capital'
           (trades st ++
              [mkTrade strategy_name (pos_entry_date pos) date (pos_entry_time pos)
                 "15:00:00" (pos_option_type pos) (pos_strike pos) (pos_expiry pos)
                 (pos_entry_price pos) exit_price pnl (pnl_pct * 100)%Q capital'
                 (pos_underlying_at_entry pos)])
           (incr_today (trades_today st) date)
           (live_positions st)
           (entry_checks st),
         positions_to_close ++ [i])
    | None => acc
    end
  else acc.

(** [date >= pos['entry_date']] and [date == pos['entry_date']]. *)
Definition due_on_or_after (date entry : Z) : bool := entry <=? date.
Definition due_same_day (date entry : Z) : bool := date =? entry.

(** The body of the removal loop (lines 145-147 and 238-240). *)
Definition pop_body (live : list Position) (i : nat) : list Position :=
  if (i <? length live)%nat then Py.pop i live else live.

Definition close_loop (due : Z -> Z -> bool) (date : Z) (st : State)
  : State * list nat :=
  for_loop (close_body due date) (enumerate (live_positions st)) (st, []).

Definition pop_loop (positions_to_close : list nat) (live : list Position)
  : list Position :=
  for_loop pop_body (Py.sorted_reverse positions_to_close) live.

(** A closing pass: the closing loop, then the removal loop. *)
Definition close_pass (due : Z -> Z -> bool) (date : Z) (st : State) : State :=
  let '(st', positions_to_close) := close_loop due date st in
  set_live st' (pop_loop positions_to_close (live_positions st')).

(** Lines 162-167: the row is skipped when its time parses to before
    09:30; a failed parse is swallowed and the row is kept. *)
Definition before_warmup (current_time : string) : bool :=
  match take 2 (Py.split_colon current_time) with
  | [hour; minute] =>
      match Py.int hour with
      | None => false
      | Some h =>
          if h <? 9 then true
          else if h =? 9 then
            match Py.int minute with
            | None => false
            | Some m => m <? 30
            end
          else false
      end
  | _ => false
  end.

(** The truth value of the returned [option_type]. *)
Definition truthy (o : option string) : bool :=
  match o with
  | Some (String _ _) => true
  | _ => false
  end.

(** The guard of the entry loop (line 155). *)
Definition entry_stop (date : Z) (st : State) : bool :=
  (0 <? length (live_positions st))%nat
  || (3 <=? count_today (trades_today st) date)%nat.

Definition bump_checks (st : State) : State :=
  mkState (capital st) (trades st) (trades_today st) (live_positions st)
    (S (entry_checks st)).

(** The body of the entry loop after its guard (lines 158-204). *)
Definition entry_body (date : Z) (date_filtered : list Row) (st : State) (idx : nat)
  : State :=
  match date_filtered !! idx with
  | None => st
  | Some intraday_row =>
      let current_time := Time intraday_row in
      if before_warmup current_time then st
      else
        match UNDERLYING intraday_row with
        | None => st
        | Some current_underlying =>
            if Qle_bool current_underlying 0 then st
            else
              match get_nearest_expiry date with
              | None => st
              | Some expiry =>
                  match get_atm_strike (Some current_underlying) with
                  | None => st
                  | Some strike =>
                      let st := bump_checks st in
                      let current_data :=
                        List.filter
                          (fun r => DateTime r <=? DateTime intraday_row)
                          date_filtered in
                      let '(option_type, should_entry) :=
                        entry_logic date current_underlying current_data in
                      if should_entry && truthy option_type then
                        let option_type := default EmptyString option_type in
                        match get_option_price date expiry (inject_Z strike)
                                option_type with
                        | Some entry_price =>
                            if Py.Qlt_bool 0 entry_price then
                              let investment := (capital st * (1 # 10))%Q in
                              mkState (capital st) (trades st)
                                (incr_today (trades_today st) date)
                                (live_positions st ++
                                   [mkPosition date current_time expiry
                                      (inject_Z strike) option_type entry_price
                                      investment current_underlying])
                                (entry_checks st)
                            else st
                        | None => st
                        end
                      else st
                  end
              end
        end
  end.

Definition date_rows (date : Z) : list Row :=
  List.filter (fun r => Date r =? date) nifty_data.

Definition entry_pass (date : Z) (st : State) : State :=
  let date_filtered := date_rows date in
  for_break (entry_stop date) (entry_body date date_filtered)
    (Py.range5 (length date_filtered)) st.

(** Lines 107-108. *)
Definition init_today (date : Z) (st : State) : State :=
  match trades_today st !! date with
  | Some _ => st
  | None =>
      mkState (capital st) (trades st) (<[date := 0%nat]> (trades_today st))
        (live_positions st) (entry_checks st)
  end.

(** One iteration of the loop over dates (lines 106-240). *)
Definition process_date (st : State) (date : Z) : State :=
  let st := init_today date st in
  let st := close_pass due_on_or_after date st in
  let st := entry_pass date st in
  close_pass due_same_day date st.

Definition backtest_run : State :=
  for_loop process_date unique_dates initial_state.

(** The returned ledger. *)
Definition backtest_strategy : list Trade := trades backtest_run.

(** *** Every state of a run

    The trace lists the state after every statement group that changes
    it: after [init_today], after each iteration of a closing loop, of a
    removal loop and of the entry loop. *)

Definition close_pass_trace (due : Z -> Z -> bool) (date : Z) (st : State)
  : list State :=
  let '(st', positions_to_close) := close_loop due date st in
  List.map fst
    (for_trace (close_body due date) (enumerate (live_positions st)) (st, []))
  ++ List.map (set_live st')
       (for_trace pop_body (Py.sorted_reverse positions_to_close)
          (live_positions st')).

Definition entry_pass_trace (date : Z) (st : State) : list State :=
  let date_filtered := date_rows date in
  for_break_trace (entry_stop date) (entry_body date date_filtered)
    (Py.range5 (length date_filtered)) st.

Definition date_trace (st : State) (date : Z) : list State :=
  let st0 := init_today date st in
  let st1 := close_pass due_on_or_after date st0 in
  let st2 := entry_pass date st1 in
  st0 :: close_pass_trace due_on_or_after date st0
  ++ entry_pass_trace date st1
  ++ close_pass_trace due_same_day date st2.

Fixpoint dates_trace (dates : list Z) (st : State) : list State :=
  match dates with
  | [] => []
  | date :: dates' => date_trace st date ++ dates_trace dates' (process_date st date)
  end.

Definition backtest_trace : list State :=
  initial_state :: dates_trace unique_dates initial_state.

End Framework.

(** ** Performance metrics *)

(** A row of [equity_df]; [eq_returns] is [NaN] on the first row. *)
Record EquityPoint := mkEquityPoint {
  eq_date : Z;
  eq_capital : Q;
  eq_cumulative : Q;
  eq_running_max : Q;
  eq_drawdown : Q;
  eq_returns : option Q
}.

(** The dict returned by [calculate_performance_metrics]. *)
Record MetricsReport := mkMetricsReport {
  CAGR : Q;
  Maximum_Drawdown : Q;
  Sharpe_Ratio : Q;
  Win_Rate : Q;
  Total_Trades : nat;
  Winning_Trades : nat;
  Losing_Trades : nat;
  Avg_Profit_Per_Trade : Q;
  Avg_Loss_Per_Trade : Q;
  Total_Return : Q;
  Final_Capital : Q;
  Profit_Factor : Q;
  Max_Consecutive_Wins : nat;
  Max_Consecutive_Losses : nat;
  Equity_Curve : list EquityPoint
}.

Module Pd.

Local Open Scope Q_scope.

Definition of_len {A} (l : list A) : Q := inject_Z (Z.of_nat (length l)).

(** [Series.sum()], [Series.mean()], [Series.min()]. *)
Definition sum (l : list Q) : Q := fold_right Qplus 0 l.
Definition mean (l : list Q) : Q := sum l / of_len l.
Definition min (l : list Q) : Q :=
  match l with
  | [] => 0
  | x :: l' => fold_left Qmin l' x
  end.

(** [Series.max()] and [Series.min()] on dates. *)
Definition zmax (l : list Z) : Z :=
  match l with
  | [] => 0%Z
  | x :: l' => fold_left Z.max l' x
  end.
Definition zmin (l : list Z) : Z :=
  match l with
  | [] => 0%Z
  | x :: l' => fold_left Z.min l' x
  end.

(** [Series.expanding().max()]. *)
Fixpoint expanding_max_from (m : Q) (l : list Q) : list Q :=
  match l with
  | [] => []
  | x :: l' => Qmax m x :: expanding_max_from (Qmax m x) l'
  end.
Definition expanding_max (l : list Q) : list Q :=
  match l with
  | [] => []
  | x :: l' => x :: expanding_max_from x l'
  end.

(** [Series.pct_change()]: [NaN] first, then [x_i / x_(i-1) - 1]. *)
Fixpoint pct_change_from (prev : Q) (l : list Q) : list (option Q) :=
  match l with
  | [] => []
  | x :: l' => Some (x / prev - 1) :: pct_change_from x l'
  end.
Definition pct_change (l : list Q) : list (option Q) :=
  match l with
  | [] => []
  | x :: l' => None :: pct_change_from x l'
  end.

(** [Series.dropna()]. *)
Definition dropna (l : list (option Q)) : list Q := omap id l.

(** [sort_values('entry_date')].  pandas sorts with quicksort by default,
    which does not keep the order of rows with equal keys (from 17 rows
    up); the embedding keeps them in ledger order.  No result below rests
    on that choice: each holds for every arrangement of the rows of equal
    entry date, or is about a ledger whose entry dates are distinct. *)
Fixpoint insert_by_entry_date (t : Trade) (l : list Trade) : list Trade :=
  match l with
  | [] => [t]
  | u :: l' =>
      if (entry_date t <=? entry_date u)%Z then t :: l
      else u :: insert_by_entry_date t l'
  end.
Definition sort_values_entry_date (l : list Trade) : list Trade :=
  foldr insert_by_entry_date [] l.

(** [sort_values('date')] on an equity frame. *)
Fixpoint insert_by_date (p : Z * Q) (l : list (Z * Q)) : list (Z * Q) :=
  match l with
  | [] => [p]
  | q :: l' =>
      if (fst p <=? fst q)%Z then p :: l
      else q :: insert_by_date p l'
  end.
Definition sort_values_date (l : list (Z * Q)) : list (Z * Q) :=
  foldr insert_by_date [] l.

(** [groupby('date')['capital'].last()] followed by [reset_index()]:
    dates ascending, each with the last capital recorded for it. *)
Definition groupby_date_capital_last (curve : list (Z * Q)) : list (Z * Q) :=
  flat_map
    (fun d => match last (List.filter (fun p => (fst p =? d)%Z) curve) with
              | Some p => [(d, snd p)]
              | None => []
              end)
    (Py.sorted (Py.unique (List.map fst curve))).

End Pd.

Section Metrics.
Local Open Scope Q_scope.

Variable initial_capital : Q.
(** [x ** y] and [np.sqrt(x)] on floats. *)
Variable float_pow : Q -> Q -> Q.
Variable float_sqrt : Q -> Q.

(** [Series.std()] (sample deviation); [None] is [NaN]. *)
Definition std (l : list Q) : option Q :=
  if (length l <? 2)%nat then None
  else
    let m := Pd.mean l in
    Some (float_sqrt
            (Pd.sum (List.map (fun x => (x - m) * (x - m)) l)
             / (Pd.of_len l - 1))).

Definition _empty_metrics : MetricsReport :=
  mkMetricsReport 0 0 0 0 0 0 0 0 0 0 initial_capital 0 0 0 [].

(** Lines 261-274 and 278: the equity frame with its derived columns. *)
Definition equity_frame (trades_df : list Trade) : list EquityPoint :=
  let dates := List.map exit_date trades_df in
  let capitals := List.map capital_after trades_df in
  let base := hd 0 capitals in
  let cumulative := List.map (fun c => c / base) capitals in
  let running_max := Pd.expanding_max cumulative in
  let drawdown :=
    List.map (fun cr => (fst cr - snd cr) / snd cr) (combine cumulative running_max) in
  let returns := Pd.pct_change capitals in
  List.map
    (fun x =>
       match x with
       | (d, (c, (cu, (rm, (dd, r))))) => mkEquityPoint d c cu rm dd r
       end)
    (combine dates
       (combine capitals
          (combine cumulative (combine running_max (combine drawdown returns))))).

(** Lines 298-312: the streak scan; the state is
    [(max_wins, max_losses, current_wins, current_losses)]. *)
Definition streak_body (s : nat * nat * nat * nat) (result : Z)
  : nat * nat * nat * nat :=
  let '(max_wins, max_losses, current_wins, current_losses) := s in
  if (result =? 1)%Z then
    (Nat.max max_wins (S current_wins), max_losses, S current_wins, 0%nat)
  else
    (max_wins, Nat.max max_losses (S current_losses), 0%nat, S current_losses).

Definition calculate_performance_metrics (trades_df : list Trade) : MetricsReport :=
  if (length trades_df =? 0)%nat then _empty_metrics
  else
    let trades_df := Pd.sort_values_entry_date trades_df in
    let last_capital := default 0 (capital_after <$> last trades_df) in
    let total_days :=
      (Pd.zmax (List.map exit_date trades_df)
       - Pd.zmin (List.map entry_date trades_df))%Z in
    let cagr :=
      if (total_days =? 0)%Z then 0
      else
        (float_pow (last_capital / initial_capital)
           ((36525 # 100) / inject_Z total_days) - 1) * 100 in
    let equity_df := equity_frame trades_df in
    let mdd := Pd.min (List.map eq_drawdown equity_df) * 100 in
    let returns := Pd.dropna (List.map eq_returns equity_df) in
    let sharpe :=
      match std returns with
      | Some s =>
          if (0 <? length returns)%nat && Py.Qlt_bool 0 s
          then float_sqrt 252 * Pd.mean returns / s
          else 0
      | None => 0
      end in
    let winning_trades := List.filter (fun t => Py.Qlt_bool 0 (profit t)) trades_df in
    let losing_trades := List.filter (fun t => Qle_bool (profit t) 0) trades_df in
    let win_rate :=
      if (0 <? length trades_df)%nat
      then Pd.of_len winning_trades / Pd.of_len trades_df * 100
      else 0 in
    let avg_profit :=
      if (0 <? length winning_trades)%nat
      then Pd.mean (List.map profit winning_trades) else 0 in
    let avg_loss :=
      if (0 <? length losing_trades)%nat
      then Pd.mean (List.map profit losing_trades) else 0 in
    let total_profit :=
      if (0 <? length winning_trades)%nat
      then Pd.sum (List.map profit winning_trades) else 0 in
    let total_loss :=
      if (0 <? length losing_trades)%nat
      then Qabs (Pd.sum (List.map profit losing_trades)) else 1 in
    let profit_factor :=
      if Py.Qlt_bool 0 total_loss then total_profit / total_loss else 0 in
    let result :=
      List.map (fun t => if Py.Qlt_bool 0 (profit t) then 1%Z else (-1)%Z) trades_df in
    let '(max_consecutive_wins, max_consecutive_losses, _, _) :=
      for_loop streak_body result (0, 0, 0, 0)%nat in
    mkMetricsReport cagr mdd sharpe win_rate
      (length trades_df) (length winning_trades) (length losing_trades)
      avg_profit avg_loss
      ((last_capital / initial_capital - 1) * 100)
      last_capital profit_factor
      max_consecutive_wins max_consecutive_losses
      equity_df.

End Metrics.

(** ** [combine_portfolio] of [run_backtest.py]

    Returns [(equity_df, combined_trades)]; the equity frame has the
    columns [date] and [capital].  A ledger is the frame
    [pd.DataFrame(trades)] that [backtest_strategy] returns; without
    trades it has no columns, so when every ledger handed in is empty the
    concatenation has no [entry_date] column and [sort_values] raises
    [KeyError]. *)
Inductive Raised := KeyError (key : string).

Definition combine_portfolio (all_trades : list (list Trade))
  : Raised + (list (Z * Q) * list Trade) :=
  if (length all_trades =? 0)%nat then inr ([], [])
  else
    let combined_trades := concat all_trades in
    if (length combined_trades =? 0)%nat then inl (KeyError "entry_date")
    else
      let combined_trades := Pd.sort_values_entry_date combined_trades in
      let equity_curve :=
        List.map (fun row => (exit_date row, capital_after row)) combined_trades in
      let equity_df := Pd.groupby_date_capital_last equity_curve in
      let equity_df := Pd.sort_values_date equity_df in
      inr (equity_df, combined_trades).

(** * Properties *)

(** ** Loops and their traces *)

Section LoopFacts.
Context {S X : Type}.
Implicit Types (body : S -> X -> S) (stop : S -> bool).

Lemma last_cons_shift (a d : S) (l : list S) :
  List.last (a :: l) d = List.last l a.
Proof.
  revert a d. induction l as [|b l IH]; intros a d; [reflexivity|].
  change (List.last (a :: b :: l) d) with (List.last (b :: l) d).
  rewrite (IH b d), (IH b a). reflexivity.
Qed.

Lemma for_loop_last body xs s :
  for_loop body xs s = List.last (for_trace body xs s) s.
Proof.
  revert s. induction xs as [|x xs IH]; intros s; [reflexivity|].
  cbn [for_trace]. rewrite last_cons_shift, <- IH. reflexivity.
Qed.

Lemma for_break_last stop body xs s :
  for_break stop body xs s = List.last (for_break_trace stop body xs s) s.
Proof.
  revert s. induction xs as [|x xs IH]; intros s; [reflexivity|].
  cbn [for_break for_break_trace]. destruct (stop s); [reflexivity|].
  rewrite last_cons_shift, <- IH. reflexivity.
Qed.

(** An invariant of the body holds along the trace and at the end. *)
Lemma for_trace_invariant (P : S -> Prop) body xs s :
  P s -> (forall s x, P s -> P (body s x)) ->
  Forall P (for_trace body xs s) /\ P (for_loop body xs s).
Proof.
  intros Hs Hbody. revert s Hs.
  induction xs as [|x xs IH]; intros s Hs.
  - split; [constructor | exact Hs].
  - destruct (IH (body s x) (Hbody _ _ Hs)) as [Ht Hf].
    split; [constructor; auto | exact Hf].
Qed.

(** The same for a loop with a guarded [break]: the body only runs from
    states where the guard is off. *)
Lemma for_break_invariant (P : S -> Prop) stop body xs s :
  P s -> (forall s x, P s -> stop s = false -> P (body s x)) ->
  Forall P (for_break_trace stop body xs s) /\ P (for_break stop body xs s).
Proof.
  intros Hs Hbody. revert s Hs.
  induction xs as [|x xs IH]; intros s Hs.
  - split; [constructor | exact Hs].
  - cbn [for_break for_break_trace].
    destruct (stop s) eqn:Hstop.
    + split; [constructor | exact Hs].
    + destruct (IH (body s x) (Hbody _ _ Hs Hstop)) as [Ht Hf].
      split; [constructor; auto | exact Hf].
Qed.

Lemma for_break_stopped stop body xs s :
  stop s = true ->
  for_break stop body xs s = s /\ for_break_trace stop body xs s = [].
Proof.
  intros H. destruct xs; cbn; [auto|]. rewrite H. auto.
Qed.

(** A state of the trace where the guard is on is the state the loop ends
    in: the loop breaks before the next iteration. *)
Lemma for_break_trace_running stop body xs s :
  Forall (fun s' => stop s' = false \/ s' = for_break stop body xs s)
    (for_break_trace stop body xs s).
Proof.
  revert s. induction xs as [|x xs IH]; intros s; [constructor|].
  cbn [for_break for_break_trace]. destruct (stop s); [constructor|].
  constructor; [|apply IH].
  destruct xs as [|x' xs]; [right; reflexivity|].
  cbn [for_break]. destruct (stop (body s x)); auto.
Qed.
End LoopFacts.

(** ** Sorting and distinct values *)

Module PyFacts.

Lemma insert_asc_perm x l : Permutation (x :: l) (Py.insert_asc x l).
Proof.
  induction l as [|y l IH]; cbn; [reflexivity|].
  destruct (x <=? y); [reflexivity|].
  rewrite perm_swap. constructor. exact IH.
Qed.

Lemma sorted_perm l : Permutation l (Py.sorted l).
Proof.
  induction l as [|x l IH]; cbn; [reflexivity|].
  rewrite <- insert_asc_perm. constructor. exact IH.
Qed.

Lemma insert_asc_sorted x l :
  StronglySorted Z.le l -> StronglySorted Z.le (Py.insert_asc x l).
Proof.
  induction l as [|y l IH]; intros Hl; cbn.
  - repeat constructor.
  - inversion Hl as [|? ? Hl' Hy]; subst.
    destruct (Z.leb_spec x y).
    + constructor; [exact Hl|]. constructor; [assumption|].
      eapply Forall_impl; [exact Hy|]. cbn. intros; lia.
    + constructor; [auto|].
      rewrite <- (insert_asc_perm x l). constructor; [lia | exact Hy].
  Qed.

Lemma sorted_sorted l : StronglySorted Z.le (Py.sorted l).
Proof.
  induction l; cbn; [constructor | apply insert_asc_sorted; assumption].
Qed.

Lemma unique_elem x l : x ∈ Py.unique l <-> x ∈ l.
Proof.
  induction l as [|y l IH]; cbn; [reflexivity|].
  rewrite !elem_of_cons, <- IH, list_elem_of_In, filter_In, <- list_elem_of_In.
  destruct (Z.eqb_spec x y); cbn; intuition congruence.
Qed.

Lemma unique_NoDup l : NoDup (Py.unique l).
Proof.
  induction l as [|y l IH]; cbn; [constructor|].
  constructor.
  - rewrite list_elem_of_In, filter_In, Z.eqb_refl. cbn. intros [_ ?]; discriminate.
  - apply NoDup_ListNoDup, List.NoDup_filter, NoDup_ListNoDup, IH.
Qed.

(** A sorted list without repetition is strictly increasing. *)
Lemma sorted_NoDup_strict l :
  StronglySorted Z.le l -> NoDup l -> StronglySorted Z.lt l.
Proof.
  induction 1 as [|x l Hl IH Hx]; intros Hnd; [constructor|].
  apply NoDup_cons in Hnd as [Hnin Hnd].
  constructor; [auto|].
  rewrite Forall_forall in *. intros y Hy.
  specialize (Hx y Hy). destruct (Z.eq_dec x y); [subst; contradiction | lia].
Qed.

Lemma sorted_unique_strict l : StronglySorted Z.lt (Py.sorted (Py.unique l)).
Proof.
  apply sorted_NoDup_strict; [apply sorted_sorted|].
  rewrite <- sorted_perm. apply unique_NoDup.
Qed.

Lemma strict_NoDup l : StronglySorted Z.lt l -> NoDup l.
Proof.
  induction 1 as [|x l Hl IH Hx]; constructor; [|assumption].
  intros Hin. rewrite Forall_forall in Hx. specialize (Hx x Hin). lia.
Qed.

(** Sorting leaves an increasing list as it is. *)
Lemma sorted_id l : StronglySorted Z.le l -> Py.sorted l = l.
Proof.
  induction 1 as [|x l Hl IH Hx]; [reflexivity|].
  change (Py.sorted (x :: l)) with (Py.insert_asc x (Py.sorted l)).
  rewrite IH. destruct l as [|y l]; [reflexivity|]. cbn.
  inversion Hx; subst. destruct (Z.leb_spec x y); [reflexivity | lia].
Qed.

End PyFacts.

(** ** Price lookups *)

Section LookupFacts.
Variable nifty_data : list Row.

Lemma last_is_Some {A} (l : list A) : l <> [] -> exists x, last l = Some x /\ In x l.
Proof.
  intros Hl. destruct (last l) as [x|] eqn:E.
  - exists x. split; [reflexivity|].
    apply list_elem_of_In. apply last_Some in E as [l' ->].
    apply elem_of_app. right. apply list_elem_of_singleton. reflexivity.
  - apply last_None in E. contradiction.
Qed.

(** An exit price is found as soon as the contract has a row that date. *)
Lemma exit_price_exists date expiry strike option_type :
  contract_rows nifty_data date expiry strike option_type <> [] ->
  exists x r,
    get_exit_price_at_close nifty_data date expiry strike option_type = Some x
    /\ x = Close r /\ In r nifty_data.
Proof.
  intros Hne. unfold get_exit_price_at_close.
  set (rows := contract_rows nifty_data date expiry strike option_type) in *.
  destruct rows as [|r0 rows'] eqn:Erows; [contradiction|].
  cbn [length Nat.eqb].
  set (close_data := List.filter _ (r0 :: rows')).
  destruct close_data as [|c0 cd'] eqn:Ecd; cbn [length Nat.ltb Nat.leb].
  - destruct (last_is_Some (r0 :: rows')) as (x & Hx & Hin); [discriminate|].
    exists (Close x), x. rewrite Hx. split; [reflexivity|]. split; [reflexivity|].
    rewrite <- Erows in Hin. unfold rows, contract_rows in Hin.
    apply filter_In in Hin. tauto.
  - destruct (last_is_Some (c0 :: cd')) as (x & Hx & Hin); [discriminate|].
    exists (Close x), x. rewrite Hx. split; [reflexivity|]. split; [reflexivity|].
    rewrite <- Ecd in Hin. unfold close_data in Hin.
    apply filter_In in Hin as [Hin _].
    rewrite <- Erows in Hin. unfold rows, contract_rows in Hin.
    apply filter_In in Hin. tauto.
Qed.

Lemma option_price_rows date expiry strike option_type p :
  get_option_price nifty_data date expiry strike option_type = Some p ->
  contract_rows nifty_data date expiry strike option_type <> [].
Proof.
  unfold get_option_price.
  destruct (contract_rows nifty_data date expiry strike option_type);
    [discriminate | intros _; discriminate].
Qed.

(** A contract that could be bought on a date can be valued that date. *)
Lemma entry_price_gives_exit_price date expiry strike option_type p :
  get_option_price nifty_data date expiry strike option_type = Some p ->
  exists x r,
    get_exit_price_at_close nifty_data date expiry strike option_type = Some x
    /\ x = Close r /\ In r nifty_data.
Proof. intros H. eapply exit_price_exists, option_price_rows, H. Qed.

End LookupFacts.

(** ** Vocabulary for ledgers *)

(** The capital stamped on the last row of a ledger, or the capital the
    run started with. *)
Definition last_capital (init : Q) (l : list Trade) : Q :=
  default init (capital_after <$> last l).

(** The capital stamped on the row before row [i]; for row [0], the
    capital the run started with. *)
Definition capital_before (init : Q) (l : list Trade) (i : nat) : Q :=
  match i with
  | O => init
  | S j => default init (capital_after <$> l !! j)
  end.

(** Each row's [capital_after] is its predecessor's plus its [profit]. *)
Fixpoint capital_chain (prev : Q) (l : list Trade) : Prop :=
  match l with
  | [] => True
  | t :: l' =>
      capital_after t = (prev + profit t)%Q /\ capital_chain (capital_after t) l'
  end.

(** Rows entered on [d], rows exited on [d]. *)
Definition count_entries (d : Z) (l : list Trade) : nat :=
  length (List.filter (fun t => entry_date t =? d) l).
Definition count_exits (d : Z) (l : list Trade) : nat :=
  length (List.filter (fun t => exit_date t =? d) l).

Section LedgerFacts.

Lemma last_capital_snoc init l t : last_capital init (l ++ [t]) = capital_after t.
Proof. unfold last_capital. rewrite last_snoc. reflexivity. Qed.

Lemma capital_chain_snoc l : forall prev t,
  capital_chain prev l ->
  capital_after t = (last_capital prev l + profit t)%Q ->
  capital_chain prev (l ++ [t]).
Proof.
  induction l as [|u l IH]; intros prev t Hc Ht; cbn in *.
  - split; [exact Ht | exact I].
  - destruct Hc as [Hu Hc]. split; [exact Hu|].
    apply IH; [exact Hc|]. rewrite Ht. f_equal.
    unfold last_capital. destruct l as [|v l]; [reflexivity|].
    cbn. destruct (last (v :: l)) eqn:E; [reflexivity|].
    apply last_None in E. discriminate.
Qed.

Lemma capital_chain_lookup l : forall prev i t,
  capital_chain prev l -> l !! i = Some t ->
  capital_after t = (capital_before prev l i + profit t)%Q.
Proof.
  induction l as [|u l IH]; intros prev i t Hc Hi; [discriminate|].
  destruct Hc as [Hu Hc]. destruct i as [|i]; cbn in Hi.
  - injection Hi as <-. exact Hu.
  - rewrite (IH _ _ _ Hc Hi). f_equal.
    destruct i as [|i]; [reflexivity|]. cbn.
    destruct (l !! i) eqn:E; [reflexivity|].
    apply lookup_ge_None in E. apply lookup_lt_Some in Hi. lia.
Qed.

Lemma count_entries_app d l k :
  count_entries d (l ++ k) = (count_entries d l + count_entries d k)%nat.
Proof. unfold count_entries. rewrite List.filter_app, length_app. reflexivity. Qed.

Lemma count_exits_app d l k :
  count_exits d (l ++ k) = (count_exits d l + count_exits d k)%nat.
Proof. unfold count_exits. rewrite List.filter_app, length_app. reflexivity. Qed.

Lemma count_entries_absent d l :
  d ∉ List.map entry_date l -> count_entries d l = 0%nat.
Proof.
  unfold count_entries. induction l as [|t l IH]; cbn; [reflexivity|].
  rewrite not_elem_of_cons. intros [Hne Hl].
  destruct (Z.eqb_spec (entry_date t) d); [congruence | auto].
Qed.

Lemma count_exits_absent d l :
  d ∉ List.map exit_date l -> count_exits d l = 0%nat.
Proof.
  unfold count_exits. induction l as [|t l IH]; cbn; [reflexivity|].
  rewrite not_elem_of_cons. intros [Hne Hl].
  destruct (Z.eqb_spec (exit_date t) d); [congruence | auto].
Qed.

Lemma count_entries_NoDup d l :
  NoDup (List.map entry_date l) -> (count_entries d l <= 1)%nat.
Proof.
  induction l as [|t l IH]; cbn; [lia|].
  rewrite NoDup_cons. intros [Hnin Hnd].
  change (count_entries d (t :: l))
    with (length (if entry_date t =? d
                  then t :: List.filter (fun t => entry_date t =? d) l
                  else List.filter (fun t => entry_date t =? d) l)).
  destruct (Z.eqb_spec (entry_date t) d) as [<-|].
  - pose proof (count_entries_absent _ _ Hnin) as H0.
    unfold count_entries in H0. cbn. rewrite H0. lia.
  - apply IH, Hnd.
Qed.

Lemma sublist_strict (l1 l2 : list Z) :
  l1 `sublist_of` l2 -> StronglySorted Z.lt l2 -> StronglySorted Z.lt l1.
Proof.
  induction 1 as [|x l1 l2 Hs IH|x l1 l2 Hs IH]; intros Hl2.
  - constructor.
  - inversion Hl2 as [|? ? Hl Hx]; subst. constructor; [auto|].
    rewrite Forall_forall in *. intros y Hy. apply Hx.
    eapply elem_of_sublist; eassumption.
  - inversion Hl2; subst. auto.
Qed.

End LedgerFacts.

(** ** What a run can do on one date

    Every date starts with no live position.  The first closing pass then
    has nothing to do, the entry loop opens at most one position, and the
    second closing pass closes it: its contract has a row on that date
    because its entry price was read from one.  The states a date goes
    through are described by [DayState]. *)

Inductive Phase := Idle | Open | Closing | Closed.

Section RunFacts.
Variable nifty_data : list Row.
Variable initial_capital : Q.
Variable strategy_name : string.
Variable entry_logic : Z -> Q -> list Row -> option string * bool.

Abbreviation get_option_price := (get_option_price nifty_data).
Abbreviation get_exit_price_at_close := (get_exit_price_at_close nifty_data).
Abbreviation close_body := (close_body nifty_data strategy_name).
Abbreviation close_loop := (close_loop nifty_data strategy_name).
Abbreviation close_pass := (close_pass nifty_data strategy_name).
Abbreviation close_pass_trace := (close_pass_trace nifty_data strategy_name).
Abbreviation entry_body := (entry_body nifty_data entry_logic).
Abbreviation entry_pass := (entry_pass nifty_data entry_logic).
Abbreviation entry_pass_trace := (entry_pass_trace nifty_data entry_logic).
Abbreviation process_date := (process_date nifty_data strategy_name entry_logic).
Abbreviation date_trace := (date_trace nifty_data strategy_name entry_logic).
Abbreviation dates_trace := (dates_trace nifty_data strategy_name entry_logic).
Abbreviation initial_state := (initial_state initial_capital).
Abbreviation unique_dates := (unique_dates nifty_data).
Abbreviation backtest_run :=
  (backtest_run nifty_data initial_capital strategy_name entry_logic).
Abbreviation backtest_trace :=
  (backtest_trace nifty_data initial_capital strategy_name entry_logic).
Abbreviation backtest_strategy :=
  (backtest_strategy nifty_data initial_capital strategy_name entry_logic).

(** A position as the entry loop opens it on [d] with capital [c]. *)
Record Opened (d : Z) (c : Q) (pos : Position) : Prop := {
  opened_date : pos_entry_date pos = d;
  opened_price :
    get_option_price d (pos_expiry pos) (pos_strike pos) (pos_option_type pos)
    = Some (pos_entry_price pos);
  opened_positive : (0 < pos_entry_price pos)%Q;
  opened_investment : pos_investment pos = (c * (1 # 10))%Q
}.

Definition pnl_of (pos : Position) (x : Q) : Q :=
  (pos_investment pos * ((x - pos_entry_price pos) / pos_entry_price pos))%Q.

(** The ledger row written when [pos] closes on [date] at price [x] with
    capital [c] before the close. *)
Definition trade_of (pos : Position) (date : Z) (x c : Q) : Trade :=
  mkTrade strategy_name (pos_entry_date pos) date (pos_entry_time pos) "15:00:00"
    (pos_option_type pos) (pos_strike pos) (pos_expiry pos) (pos_entry_price pos) x
    (pnl_of pos x)
    ((x - pos_entry_price pos) / pos_entry_price pos * 100)%Q
    (c + pnl_of pos x)%Q
    (pos_underlying_at_entry pos).

Inductive DayState (d : Z) (st0 : State) : Phase -> State -> Prop :=
| day_idle n :
    DayState d st0 Idle
      (mkState (capital st0) (trades st0) (<[d := 0%nat]> (trades_today st0)) [] n)
| day_open n pos :
    Opened d (capital st0) pos ->
    DayState d st0 Open
      (mkState (capital st0) (trades st0) (<[d := 1%nat]> (trades_today st0)) [pos] n)
| day_closing n pos x r :
    Opened d (capital st0) pos ->
    get_exit_price_at_close d (pos_expiry pos) (pos_strike pos) (pos_option_type pos)
    = Some x ->
    x = Close r -> In r nifty_data ->
    DayState d st0 Closing
      (mkState (capital st0 + pnl_of pos x)%Q
         (trades st0 ++ [trade_of pos d x (capital st0)])
         (<[d := 2%nat]> (trades_today st0)) [pos] n)
| day_closed n pos x r :
    Opened d (capital st0) pos ->
    get_exit_price_at_close d (pos_expiry pos) (pos_strike pos) (pos_option_type pos)
    = Some x ->
    x = Close r -> In r nifty_data ->
    DayState d st0 Closed
      (mkState (capital st0 + pnl_of pos x)%Q
         (trades st0 ++ [trade_of pos d x (capital st0)])
         (<[d := 2%nat]> (trades_today st0)) [] n).

Definition settled (ph : Phase) : Prop := ph = Idle \/ ph = Closed.

Lemma incr_today_insert (m : gmap Z nat) d k :
  incr_today (<[d := k]> m) d = <[d := S k]> m.
Proof.
  unfold incr_today, count_today. rewrite lookup_insert_eq. cbn.
  apply insert_insert_eq.
Qed.

Lemma init_today_fresh d st :
  trades_today st !! d = None ->
  init_today d st
  = mkState (capital st) (trades st) (<[d := 0%nat]> (trades_today st))
      (live_positions st) (entry_checks st).
Proof. intros H. unfold init_today. rewrite H. reflexivity. Qed.

(** A closing pass over no position changes nothing. *)
Lemma close_pass_idle due d s :
  live_positions s = [] ->
  close_pass due d s = s /\ close_pass_trace due d s = [].
Proof.
  intros Hl. unfold close_pass, close_pass_trace, close_loop.
  rewrite Hl. cbn. destruct s; cbn in *; subst. split; reflexivity.
Qed.

Local Ltac stays_idle :=
  exists Idle; split; [left; reflexivity | unfold bump_checks; cbn; apply day_idle].

(** One iteration of the entry loop from an idle state. *)
Lemma entry_body_idle d st0 rows n idx :
  exists ph, (ph = Idle \/ ph = Open) /\
    DayState d st0 ph
      (entry_body d rows
         (mkState (capital st0) (trades st0) (<[d := 0%nat]> (trades_today st0)) [] n)
         idx).
Proof.
  unfold entry_body.
  destruct (rows !! idx) as [row|]; [|stays_idle].
  destruct (before_warmup (Time row)); [stays_idle|].
  destruct (UNDERLYING row) as [u|]; [|stays_idle].
  destruct (Qle_bool u 0); [stays_idle|].
  destruct (get_nearest_expiry nifty_data d) as [e|];
    [|stays_idle].
  destruct (get_atm_strike (Some u)) as [k|];
    [|stays_idle].
  destruct (entry_logic d u _) as [ot se].
  destruct (se && truthy ot); [|stays_idle].
  unfold bump_checks; cbn [capital trades trades_today live_positions entry_checks].
  destruct (get_option_price d e (inject_Z k) (default EmptyString ot)) as [p|] eqn:Hp;
    [|stays_idle].
  destruct (Py.Qlt_bool 0 p) eqn:Hpos; [|stays_idle].
  exists Open. split; [auto|].
  rewrite incr_today_insert. cbn [app].
  apply day_open. constructor; cbn; try reflexivity; try assumption.
  unfold Py.Qlt_bool in Hpos. apply negb_true_iff in Hpos.
  destruct (Qlt_le_dec 0 p) as [|Hle]; [assumption|].
  apply Qle_bool_iff in Hle. congruence.
Qed.

Definition entering (d : Z) (st0 s : State) : Prop :=
  exists ph, (ph = Idle \/ ph = Open) /\ DayState d st0 ph s.

Lemma entry_body_entering d st0 rows s idx :
  entering d st0 s -> entry_stop d s = false ->
  entering d st0 (entry_body d rows s idx).
Proof.
  intros (ph & [-> | ->] & Hs) Hstop; inversion Hs; subst.
  - apply entry_body_idle.
  - discriminate Hstop.
Qed.

Lemma entry_pass_entering d st0 s :
  entering d st0 s ->
  Forall (entering d st0) (entry_pass_trace d s) /\ entering d st0 (entry_pass d s).
Proof.
  intros Hs. unfold entry_pass_trace, entry_pass.
  apply for_break_invariant; [exact Hs|].
  intros s' idx. apply entry_body_entering.
Qed.

(** The second closing pass closes the position opened that date. *)
Lemma close_pass_open d st0 n pos :
  Opened d (capital st0) pos ->
  let s :=
    mkState (capital st0) (trades st0) (<[d := 1%nat]> (trades_today st0)) [pos] n in
  exists s1 s2,
    DayState d st0 Closing s1 /\ DayState d st0 Closed s2
    /\ close_pass due_same_day d s = s2
    /\ close_pass_trace due_same_day d s = [s1; s2].
Proof.
  intros Hpos s.
  destruct (entry_price_gives_exit_price nifty_data _ _ _ _ _ (opened_price _ _ _ Hpos))
    as (x & r & Hx & Hr & Hin).
  exists (mkState (capital st0 + pnl_of pos x)%Q
            (trades st0 ++ [trade_of pos d x (capital st0)])
            (<[d := 2%nat]> (trades_today st0)) [pos] n),
         (mkState (capital st0 + pnl_of pos x)%Q
            (trades st0 ++ [trade_of pos d x (capital st0)])
            (<[d := 2%nat]> (trades_today st0)) [] n).
  split; [eapply day_closing; eassumption|].
  split; [eapply day_closed; eassumption|].
  unfold close_pass, close_pass_trace, close_loop, s.
  cbn [live_positions enumerate length seq combine for_loop fold_left for_trace].
  unfold close_body, due_same_day, trade_of, pnl_of.
  rewrite (opened_date _ _ _ Hpos), Z.eqb_refl, Hx.
  cbn [capital trades trades_today live_positions entry_checks].
  rewrite incr_today_insert. split; reflexivity.
Qed.

Lemma entering_cases d st0 s :
  entering d st0 s ->
  (exists n,
      s = mkState (capital st0) (trades st0) (<[d := 0%nat]> (trades_today st0)) [] n)
  \/ (exists n pos,
        Opened d (capital st0) pos
        /\ s = mkState (capital st0) (trades st0) (<[d := 1%nat]> (trades_today st0))
               [pos] n).
Proof.
  intros (ph & [Hph | Hph] & Hs); subst ph; inversion Hs; subst; eauto.
Qed.

(** The states of one date, started with no live position. *)
Lemma day_refines d st0 :
  live_positions st0 = [] -> trades_today st0 !! d = None ->
  Forall (fun s => exists ph, DayState d st0 ph s) (date_trace st0 d)
  /\ exists ph, settled ph /\ DayState d st0 ph (process_date st0 d).
Proof.
  intros Hlive Hfresh. unfold date_trace, process_date.
  rewrite (init_today_fresh _ _ Hfresh), Hlive.
  set (s0 := mkState (capital st0) (trades st0) _ [] _).
  assert (Hs0 : DayState d st0 Idle s0) by apply day_idle.
  destruct (close_pass_idle due_on_or_after d s0 eq_refl) as [-> ->].
  destruct (entry_pass_entering d st0 s0) as [Htr Hend];
    [exists Idle; split; [left; reflexivity | exact Hs0]|].
  assert (Htr' : Forall (fun s => exists ph, DayState d st0 ph s) (entry_pass_trace d s0)).
  { eapply Forall_impl; [exact Htr|]. intros s (ph' & _ & H). eauto. }
  destruct (entering_cases _ _ _ Hend) as [(n & ->) | (n & pos & Hpos & ->)].
  - destruct (close_pass_idle due_same_day d
                (mkState (capital st0) (trades st0)
                   (<[d := 0%nat]> (trades_today st0)) [] n) eq_refl) as [-> ->].
    split.
    + constructor; [eauto|]. cbn [app]. rewrite app_nil_r. exact Htr'.
    + exists Idle. split; [left; reflexivity | apply day_idle].
  - destruct (close_pass_open d st0 n pos Hpos) as (s1 & s2 & H1 & H2 & -> & ->).
    split.
    + constructor; [eauto|]. cbn [app]. apply Forall_app. split; [exact Htr'|].
      repeat constructor; eauto.
    + exists Closed. split; [right; reflexivity | exact H2].
Qed.

(** ** What a run can do

    [Boundary done st]: [st] is the state between two dates, after the
    dates [done] were processed.  [Reachable st]: [st] occurs in a run. *)

Inductive Boundary : list Z -> State -> Prop :=
| boundary_init : Boundary [] initial_state
| boundary_day done d st0 ph s :
    Boundary done st0 -> d ∉ done -> settled ph -> DayState d st0 ph s ->
    Boundary (done ++ [d]) s.

Definition Reachable (s : State) : Prop :=
  s = initial_state
  \/ exists done d st0 ph, Boundary done st0 /\ (d ∉ done) /\ DayState d st0 ph s.

Lemma boundary_idle done st :
  Boundary done st ->
  live_positions st = [] /\ forall d, d ∉ done -> trades_today st !! d = None.
Proof.
  induction 1 as [|done d st0 ph s Hb [IHl IHt] Hd Hph Hs].
  - split; [reflexivity | intros; apply lookup_empty].
  - assert (Hfresh : forall d', d' ∉ done ++ [d] -> d' <> d /\ d' ∉ done).
    { intros d' Hd'. rewrite elem_of_app, list_elem_of_singleton in Hd'. tauto. }
    destruct Hph as [-> | ->]; inversion Hs; subst; cbn; (split; [reflexivity|]);
      intros d' Hd'; destruct (Hfresh d' Hd');
      rewrite lookup_insert_ne by congruence; auto.
Qed.

Lemma run_refines dates :
  forall done st,
    Boundary done st -> NoDup (done ++ dates) ->
    Boundary (done ++ dates) (for_loop process_date dates st)
    /\ Forall Reachable (dates_trace dates st).
Proof.
  induction dates as [|d dates IH]; intros done st Hb Hnd.
  - rewrite app_nil_r. split; [exact Hb | constructor].
  - assert (Hd : d ∉ done).
    { apply NoDup_app in Hnd as (_ & Hnd & _). intros Hin.
      apply (Hnd d Hin). left. }
    destruct (boundary_idle _ _ Hb) as [Hlive Hfresh].
    destruct (day_refines d st Hlive (Hfresh d Hd)) as (Htr & ph & Hph & Hs).
    destruct (IH (done ++ [d]) (process_date st d)) as [Hb' Htr'].
    { econstructor; eassumption. }
    { rewrite <- app_assoc. exact Hnd. }
    rewrite <- app_assoc in Hb'. split; [exact Hb'|].
    cbn [dates_trace]. apply Forall_app. split; [|exact Htr'].
    eapply Forall_impl; [exact Htr|].
    intros s (ph' & Hs'). right. exists done, d, st, ph'. auto.
Qed.

Lemma unique_dates_strict : StronglySorted Z.lt unique_dates.
Proof. apply PyFacts.sorted_unique_strict. Qed.

Lemma backtest_run_boundary : Boundary unique_dates backtest_run.
Proof.
  apply (run_refines unique_dates [] initial_state); [constructor|].
  apply PyFacts.strict_NoDup, unique_dates_strict.
Qed.

Lemma backtest_trace_reachable : Forall Reachable backtest_trace.
Proof.
  constructor; [left; reflexivity|].
  apply (run_refines unique_dates [] initial_state); [constructor|].
  apply PyFacts.strict_NoDup, unique_dates_strict.
Qed.

Lemma boundary_reachable done st : Boundary done st -> Reachable st.
Proof.
  destruct 1 as [|done d st0 ph s Hb Hd Hph Hs]; [left; reflexivity|].
  right. exists done, d, st0, ph. auto.
Qed.

(** A property that holds initially and is carried by every state of a
    date from the state the date started in holds in every state. *)
Lemma run_invariant (L : list Z -> State -> Prop) :
  L [] initial_state ->
  (forall done d st0 ph s,
      Boundary done st0 -> L done st0 -> d ∉ done -> DayState d st0 ph s ->
      L (done ++ [d]) s) ->
  (forall done st, Boundary done st -> L done st)
  /\ (forall s, Reachable s -> exists done, L done s).
Proof.
  intros Hinit Hday.
  assert (Hb : forall done st, Boundary done st -> L done st).
  { induction 1; [exact Hinit | eapply Hday; eassumption]. }
  split; [exact Hb|].
  intros s [-> | (done & d & st0 & ph & Hbd & Hd & Hs)].
  - exists []. exact Hinit.
  - exists (done ++ [d]). eapply Hday; eauto.
Qed.

(** *** At most one live position *)

Lemma day_state_live d st0 ph s :
  DayState d st0 ph s -> (length (live_positions s) <= 1)%nat.
Proof. destruct 1; cbn; lia. Qed.

Lemma reachable_live s : Reachable s -> (length (live_positions s) <= 1)%nat.
Proof.
  intros [-> | (done & d & st0 & ph & _ & _ & Hs)]; [cbn; lia|].
  eapply day_state_live, Hs.
Qed.

(** *** Capital *)

Definition capital_ok (s : State) : Prop :=
  capital_chain initial_capital (trades s)
  /\ capital s = last_capital initial_capital (trades s).

Lemma day_state_capital d st0 ph s :
  capital_ok st0 -> DayState d st0 ph s -> capital_ok s.
Proof.
  intros [Hchain Hcap] Hs. unfold capital_ok.
  destruct Hs; cbn [trades capital]; try (split; assumption).
  - split; [|rewrite last_capital_snoc; reflexivity].
    apply capital_chain_snoc; [assumption|]. rewrite <- Hcap. reflexivity.
  - split; [|rewrite last_capital_snoc; reflexivity].
    apply capital_chain_snoc; [assumption|]. rewrite <- Hcap. reflexivity.
Qed.

Lemma reachable_capital s : Reachable s -> capital_ok s.
Proof.
  intros Hs.
  destruct (run_invariant (fun _ => capital_ok)) as [_ H].
  - split; [exact I | reflexivity].
  - intros done d st0 ph s' _ H0 _ Hd. eapply day_state_capital; eassumption.
  - destruct (H s Hs) as [_ Hok]. exact Hok.
Qed.

(** *** Dates of the ledger *)

Definition dates_ok (done : list Z) (s : State) : Prop :=
  (forall t, t ∈ trades s -> exit_date t = entry_date t)
  /\ List.map entry_date (trades s) `sublist_of` done
  /\ NoDup done.

Lemma day_state_dates done d st0 ph s :
  dates_ok done st0 -> d ∉ done -> DayState d st0 ph s -> dates_ok (done ++ [d]) s.
Proof.
  intros (Hsame & Hsub & Hnd) Hd Hs.
  assert (Hnd' : NoDup (done ++ [d])).
  { apply NoDup_app. split; [exact Hnd|]. split; [|apply NoDup_singleton].
    intros x Hx Hx'. apply list_elem_of_singleton in Hx'. subst. contradiction. }
  assert (Hclose : forall pos x,
             Opened d (capital st0) pos ->
             (forall t, t ∈ trades st0 ++ [trade_of pos d x (capital st0)] ->
                        exit_date t = entry_date t)
             /\ List.map entry_date (trades st0 ++ [trade_of pos d x (capital st0)])
                `sublist_of` done ++ [d]).
  { intros pos x Hpos. split.
    - intros t Ht. apply elem_of_app in Ht as [Ht | Ht]; [auto|].
      apply list_elem_of_singleton in Ht. subst t. cbn.
      symmetry. apply (opened_date _ _ _ Hpos).
    - rewrite List.map_app. cbn. rewrite (opened_date _ _ _ Hpos).
      apply sublist_app; [exact Hsub | reflexivity]. }
  unfold dates_ok.
  destruct Hs as [n | n pos Hpos | n pos x r Hpos Hx Hr Hin | n pos x r Hpos Hx Hr Hin];
    cbn [trades].
  - split; [exact Hsame|]. split; [apply sublist_inserts_r, Hsub | exact Hnd'].
  - split; [exact Hsame|]. split; [apply sublist_inserts_r, Hsub | exact Hnd'].
  - destruct (Hclose pos x Hpos). auto.
  - destruct (Hclose pos x Hpos). auto.
Qed.

Lemma boundary_dates done st : Boundary done st -> dates_ok done st.
Proof.
  apply (run_invariant dates_ok).
  - split; [intros t Ht; inversion Ht|]. split; [reflexivity | constructor].
  - intros done' d st0 ph s _ H0 Hd Hs. eapply day_state_dates; eassumption.
Qed.

Lemma reachable_dates s : Reachable s -> exists done, dates_ok done s.
Proof.
  apply (run_invariant dates_ok).
  - split; [intros t Ht; inversion Ht|]. split; [reflexivity | constructor].
  - intros done' d st0 ph s' _ H0 Hd Hs. eapply day_state_dates; eassumption.
Qed.

Lemma count_exits_same l d :
  (forall t, t ∈ l -> exit_date t = entry_date t) ->
  count_exits d l = count_entries d l.
Proof.
  unfold count_exits, count_entries.
  induction l as [|t l IH]; intros H; cbn; [reflexivity|].
  rewrite (H t) by left.
  destruct (entry_date t =? d); cbn; rewrite IH; auto;
    intros u Hu; apply H; right; exact Hu.
Qed.

Lemma dates_ok_counts done s d :
  dates_ok done s ->
  (count_entries d (trades s) <= 1)%nat /\ (count_exits d (trades s) <= 1)%nat.
Proof.
  intros (Hsame & Hsub & Hnd).
  rewrite (count_exits_same _ _ Hsame).
  assert (count_entries d (trades s) <= 1)%nat; [|auto].
  apply count_entries_NoDup. eapply sublist_NoDup; eassumption.
Qed.

(** *** The per-date counter *)

Lemma day_state_today d st0 ph s :
  (forall d', count_today (trades_today st0) d' <= 2)%nat ->
  DayState d st0 ph s ->
  (forall d', count_today (trades_today s) d' <= 2)%nat.
Proof.
  intros H0 Hs d'. unfold count_today in *.
  destruct Hs; cbn [trades_today];
    (destruct (decide (d = d')) as [->|Hne];
     [rewrite lookup_insert_eq; cbn; lia
     |rewrite lookup_insert_ne by exact Hne; apply H0]).
Qed.

Lemma reachable_today s d :
  Reachable s -> (count_today (trades_today s) d <= 2)%nat.
Proof.
  intros Hs.
  destruct (run_invariant
              (fun _ s => forall d', count_today (trades_today s) d' <= 2)%nat)
    as [_ H].
  - intros d'. unfold count_today. cbn. rewrite lookup_empty. cbn. lia.
  - intros done d0 st0 ph s' _ H0 _ Hd. eapply day_state_today; eassumption.
  - destruct (H s Hs) as [_ Hok]. apply Hok.
Qed.

(** *** Positive capital *)

Lemma close_keeps_capital_positive d c pos x :
  (0 < c)%Q -> Opened d c pos -> (0 <= x)%Q -> (0 < c + pnl_of pos x)%Q.
Proof.
  intros Hc Hpos Hx. unfold pnl_of.
  rewrite (opened_investment _ _ _ Hpos).
  pose proof (opened_positive _ _ _ Hpos) as He.
  set (e := pos_entry_price pos) in *.
  assert (Hk : (-(1) <= (x - e) / e)%Q).
  { apply Qle_shift_div_l; [exact He | lra]. }
  set (k := ((x - e) / e)%Q) in *. nra.
Qed.

Definition positive_ok (s : State) : Prop :=
  (0 < capital s)%Q /\ Forall (fun t => 0 < capital_after t)%Q (trades s).

Lemma day_state_positive d st0 ph s :
  (forall r, In r nifty_data -> (0 <= Close r)%Q) ->
  positive_ok st0 -> DayState d st0 ph s -> positive_ok s.
Proof.
  intros Hclose [Hc Ht] Hs. unfold positive_ok.
  destruct Hs as [n | n pos Hpos | n pos x r Hpos Hx Hr Hin | n pos x r Hpos Hx Hr Hin];
    cbn [trades capital]; try (split; assumption).
  - assert (0 < capital st0 + pnl_of pos x)%Q.
    { eapply close_keeps_capital_positive; eauto. subst x. auto. }
    split; [assumption|]. apply Forall_app. split; [assumption|].
    constructor; [assumption | constructor].
  - assert (0 < capital st0 + pnl_of pos x)%Q.
    { eapply close_keeps_capital_positive; eauto. subst x. auto. }
    split; [assumption|]. apply Forall_app. split; [assumption|].
    constructor; [assumption | constructor].
Qed.

Lemma reachable_positive s :
  (0 < initial_capital)%Q ->
  (forall r, In r nifty_data -> (0 <= Close r)%Q) ->
  Reachable s -> positive_ok s.
Proof.
  intros Hinit Hclose Hs.
  destruct (run_invariant (fun _ => positive_ok)) as [_ H].
  - split; [exact Hinit | constructor].
  - intros done d st0 ph s' _ H0 _ Hd. eapply day_state_positive; eassumption.
  - destruct (H s Hs) as [_ Hok]. exact Hok.
Qed.

(** *** The entry loop, from any state *)

Lemma entry_body_live d rows s idx :
  live_positions (entry_body d rows s idx) = live_positions s
  \/ exists pos,
       live_positions (entry_body d rows s idx) = live_positions s ++ [pos].
Proof.
  unfold entry_body.
  destruct (rows !! idx) as [row|]; [|left; reflexivity].
  destruct (before_warmup (Time row)); [left; reflexivity|].
  destruct (UNDERLYING row) as [u|]; [|left; reflexivity].
  destruct (Qle_bool u 0); [left; reflexivity|].
  destruct (get_nearest_expiry nifty_data d) as [e|]; [|left; reflexivity].
  destruct (get_atm_strike (Some u)) as [k|]; [|left; reflexivity].
  destruct (entry_logic d u _) as [ot se].
  destruct (se && truthy ot); [|left; reflexivity].
  destruct (get_option_price d e (inject_Z k) (default EmptyString ot)) as [p|];
    [|left; reflexivity].
  destruct (Py.Qlt_bool 0 p); [|left; reflexivity].
  right. eexists. reflexivity.
Qed.

Definition appended (st s : State) : Prop :=
  exists l, (length l <= 1)%nat /\ live_positions s = live_positions st ++ l.

Lemma entry_pass_appends d st :
  appended st (entry_pass d st) /\ Forall (appended st) (entry_pass_trace d st).
Proof.
  unfold entry_pass, entry_pass_trace.
  set (P := fun s => live_positions s = live_positions st
                     \/ (live_positions st = []
                         /\ exists pos, live_positions s = [pos])).
  assert (HP : forall s, P s -> appended st s).
  { intros s [H | [H0 [pos H]]].
    - exists []. rewrite app_nil_r. split; [cbn; lia | exact H].
    - exists [pos]. rewrite H0. split; [cbn; lia | exact H]. }
  destruct (for_break_invariant P (entry_stop d)
              (entry_body d (date_rows nifty_data d))
              (Py.range5 (length (date_rows nifty_data d))) st) as [Htr Hend].
  - left. reflexivity.
  - intros s idx Hs Hstop.
    assert (Hempty : live_positions s = []).
    { unfold entry_stop in Hstop. apply orb_false_iff in Hstop as [Hstop _].
      destruct (live_positions s); [reflexivity | discriminate]. }
    destruct Hs as [Hs | [_ [pos Hs]]]; [|congruence].
    destruct (entry_body_live d (date_rows nifty_data d) s idx) as [H | [pos H]].
    + left. congruence.
    + right. rewrite Hempty in H. split; [congruence | eauto].
  - split; [apply HP, Hend|].
    eapply Forall_impl; [exact Htr | exact HP].
Qed.

(** While a position is live the entry loop does nothing. *)
Lemma entry_pass_blocked d st :
  live_positions st <> [] ->
  entry_pass d st = st /\ entry_pass_trace d st = [].
Proof.
  intros Hlive. unfold entry_pass, entry_pass_trace.
  apply for_break_stopped. unfold entry_stop.
  destruct (live_positions st); [contradiction | reflexivity].
Qed.

(** *** The trace ends where the run ends *)

Lemma last_app_shift {A} (l1 l2 : list A) (d : A) :
  List.last (l1 ++ l2) d = List.last l2 (List.last l1 d).
Proof.
  revert d. induction l1 as [|a l1 IH]; intros d; [reflexivity|].
  change ((a :: l1) ++ l2) with (a :: (l1 ++ l2)).
  rewrite !last_cons_shift. apply IH.
Qed.

Lemma last_map_shift {A B} (f : A -> B) (l : list A) (d : A) :
  List.last (List.map f l) (f d) = f (List.last l d).
Proof.
  revert d. induction l as [|a l IH]; intros d; [reflexivity|].
  cbn [List.map]. rewrite !last_cons_shift. apply IH.
Qed.

Lemma close_pass_last due d s :
  close_pass due d s = List.last (close_pass_trace due d s) s.
Proof.
  unfold close_pass, close_pass_trace, close_loop, pop_loop.
  rewrite (for_loop_last (close_body due d)).
  set (A := for_trace (close_body due d) (enumerate (live_positions s)) (s, [])).
  destruct (List.last A (s, [])) as [s' ptc] eqn:E.
  rewrite last_app_shift.
  change (List.last (List.map fst A) s)
    with (List.last (List.map fst A) (fst (s, @nil nat))).
  rewrite last_map_shift, E. cbn [fst].
  rewrite (for_loop_last pop_body).
  set (B := for_trace pop_body (Py.sorted_reverse ptc) (live_positions s')).
  replace (List.last (List.map (set_live s') B) s')
    with (List.last (List.map (set_live s') B) (set_live s' (live_positions s')))
    by (destruct s'; reflexivity).
  rewrite last_map_shift. reflexivity.
Qed.

Lemma process_date_last st d :
  process_date st d = List.last (date_trace st d) st.
Proof.
  unfold process_date, date_trace.
  rewrite last_cons_shift, !last_app_shift.
  rewrite <- close_pass_last.
  unfold entry_pass_trace. rewrite <- for_break_last.
  fold (entry_pass d (close_pass due_on_or_after d (init_today d st))).
  rewrite <- close_pass_last. reflexivity.
Qed.

Lemma dates_trace_last dates : forall st,
  for_loop process_date dates st = List.last (dates_trace dates st) st.
Proof.
  induction dates as [|d dates IH]; intros st; [reflexivity|].
  cbn [dates_trace]. rewrite last_app_shift, <- process_date_last, <- IH.
  reflexivity.
Qed.

Lemma backtest_trace_last :
  backtest_run = List.last backtest_trace initial_state.
Proof.
  unfold backtest_trace, backtest_run.
  rewrite last_cons_shift. apply dates_trace_last.
Qed.

(** *** A position is closed on the date it was opened *)

(** [t] is a ledger row that closes [pos] on its entry date, at the price
    [get_exit_price_at_close] finds for its contract on that date. *)
Definition closes (pos : Position) (t : Trade) : Prop :=
  entry_date t = pos_entry_date pos
  /\ exit_date t = pos_entry_date pos
  /\ entry_time t = pos_entry_time pos
  /\ option_type t = pos_option_type pos
  /\ strike t = pos_strike pos
  /\ expiry t = pos_expiry pos
  /\ entry_price t = pos_entry_price pos
  /\ underlying_at_entry t = pos_underlying_at_entry pos
  /\ get_exit_price_at_close (pos_entry_date pos) (pos_expiry pos) (pos_strike pos)
       (pos_option_type pos) = Some (exit_price t)
  /\ profit t = pnl_of pos (exit_price t).

Lemma trade_of_closes pos d x c :
  pos_entry_date pos = d ->
  get_exit_price_at_close d (pos_expiry pos) (pos_strike pos) (pos_option_type pos)
  = Some x ->
  closes pos (trade_of pos d x c).
Proof.
  intros <- Hx. unfold closes, trade_of. cbn. repeat split; try reflexivity.
  exact Hx.
Qed.

(** The second closing pass on the state the entry loop leaves with [pos]
    live: it writes the trade of [pos] and empties the live set. *)
Lemma close_pass_open_trade d st0 n pos :
  Opened d (capital st0) pos ->
  let s :=
    mkState (capital st0) (trades st0) (<[d := 1%nat]> (trades_today st0)) [pos] n in
  exists x,
    get_exit_price_at_close d (pos_expiry pos) (pos_strike pos) (pos_option_type pos)
    = Some x
    /\ trades (close_pass due_same_day d s)
       = trades st0 ++ [trade_of pos d x (capital st0)]
    /\ live_positions (close_pass due_same_day d s) = []
    /\ Forall (fun s' => live_positions s' = [] \/ live_positions s' = [pos])
         (close_pass_trace due_same_day d s).
Proof.
  intros Hpos s.
  destruct (entry_price_gives_exit_price nifty_data _ _ _ _ _ (opened_price _ _ _ Hpos))
    as (x & r & Hx & Hr & Hin).
  exists x. split; [exact Hx|].
  unfold close_pass, close_pass_trace, close_loop, s.
  cbn [live_positions enumerate length seq combine for_loop fold_left for_trace].
  unfold close_body, due_same_day.
  rewrite (opened_date _ _ _ Hpos), Z.eqb_refl, Hx.
  cbn [capital trades trades_today live_positions entry_checks].
  unfold trade_of, pnl_of. rewrite (opened_date _ _ _ Hpos).
  split; [reflexivity|]. split; [reflexivity|].
  cbn. constructor; [right; reflexivity|]. constructor; [left; reflexivity|].
  constructor.
Qed.

(** Within one date: a position live in any state of the date has its
    closing trade in the ledger when the date is done. *)
Lemma day_closes d st0 :
  live_positions st0 = [] -> trades_today st0 !! d = None ->
  forall s pos,
    In s (date_trace st0 d) -> In pos (live_positions s) ->
    exists t, In t (trades (process_date st0 d)) /\ closes pos t.
Proof.
  intros Hlive Hfresh s pos. unfold date_trace, process_date.
  rewrite (init_today_fresh _ _ Hfresh), Hlive.
  set (s0 := mkState (capital st0) (trades st0) _ [] _).
  destruct (close_pass_idle due_on_or_after d s0 eq_refl) as [-> ->].
  destruct (entry_pass_entering d st0 s0) as [Htr Hend];
    [exists Idle; split; [left; reflexivity | apply day_idle]|].
  pose proof (for_break_trace_running (entry_stop d)
                (entry_body d (date_rows nifty_data d))
                (Py.range5 (length (date_rows nifty_data d))) s0) as Hrun.
  fold (entry_pass_trace d s0) in Hrun. fold (entry_pass d s0) in Hrun.
  set (s2 := entry_pass d s0) in *.
  assert (Hentry : forall s', In s' (entry_pass_trace d s0) ->
                     In pos (live_positions s') ->
                     live_positions s2 = [pos] /\ Opened d (capital st0) pos).
  { intros s' Hin Hp.
    rewrite List.Forall_forall in Htr, Hrun.
    destruct (entering_cases _ _ _ (Htr s' Hin)) as [(n & ->) | (n & pos' & Hopen & ->)];
      [contradiction|].
    destruct Hp as [<- | []].
    destruct (Hrun _ Hin) as [Hstop | Heq]; [discriminate Hstop|].
    rewrite <- Heq. auto. }
  cbn [app]. intros [<- | Hin] Hp; [contradiction|].
  apply in_app_or in Hin.
  destruct (entering_cases _ _ _ Hend) as [(n & E) | (n & pos0 & Hopen & E)].
  - destruct Hin as [Hin | Hin].
    + destruct (Hentry _ Hin Hp) as [Hl _]. rewrite E in Hl. discriminate.
    + rewrite E in Hin.
      destruct (close_pass_idle due_same_day d
                  (mkState (capital st0) (trades st0)
                     (<[d := 0%nat]> (trades_today st0)) [] n) eq_refl) as [_ Ht].
      rewrite Ht in Hin. contradiction.
  - destruct (close_pass_open_trade d st0 n pos0 Hopen) as (x & Hx & Ht & _ & Hlt).
    cbn zeta in Ht, Hlt. rewrite <- E in Ht, Hlt.
    assert (Hsame : pos = pos0).
    { destruct Hin as [Hin | Hin].
      - destruct (Hentry _ Hin Hp) as [Hl _]. rewrite E in Hl. cbn in Hl. congruence.
      - rewrite List.Forall_forall in Hlt.
        destruct (Hlt _ Hin) as [Hl | Hl]; rewrite Hl in Hp; [contradiction|].
        destruct Hp as [<- | []]. reflexivity. }
    subst pos0. exists (trade_of pos d x (capital st0)). split.
    + rewrite Ht. apply in_or_app. right. left. reflexivity.
    + apply trade_of_closes; [exact (opened_date _ _ _ Hopen) | exact Hx].
Qed.

(** The ledger only grows. *)
Lemma day_state_keeps_trades d st0 ph s t :
  DayState d st0 ph s -> In t (trades st0) -> In t (trades s).
Proof.
  intros Hs Ht. destruct Hs; cbn [trades]; auto; apply in_or_app; auto.
Qed.

Lemma ledger_grows dates : forall done st,
  Boundary done st -> NoDup (done ++ dates) ->
  forall t, In t (trades st) -> In t (trades (for_loop process_date dates st)).
Proof.
  induction dates as [|d dates IH]; intros done st Hb Hnd t Ht; [exact Ht|].
  assert (Hd : d ∉ done).
  { apply NoDup_app in Hnd as (_ & Hnd & _). intros Hin. apply (Hnd d Hin). left. }
  destruct (boundary_idle _ _ Hb) as [Hlive Hfresh].
  destruct (day_refines d st Hlive (Hfresh d Hd)) as (_ & ph & Hph & Hs).
  change (for_loop process_date (d :: dates) st)
    with (for_loop process_date dates (process_date st d)).
  apply (IH (done ++ [d])).
  - econstructor; eassumption.
  - rewrite <- app_assoc. exact Hnd.
  - eapply day_state_keeps_trades; eassumption.
Qed.

Lemma dates_close dates : forall done st,
  Boundary done st -> NoDup (done ++ dates) ->
  forall s pos,
    In s (dates_trace dates st) -> In pos (live_positions s) ->
    exists t, In t (trades (for_loop process_date dates st)) /\ closes pos t.
Proof.
  induction dates as [|d dates IH]; intros done st Hb Hnd s pos Hs Hp; [contradiction|].
  assert (Hd : d ∉ done).
  { apply NoDup_app in Hnd as (_ & Hnd' & _). intros Hin. apply (Hnd' d Hin). left. }
  destruct (boundary_idle _ _ Hb) as [Hlive Hfresh].
  destruct (day_refines d st Hlive (Hfresh d Hd)) as (_ & ph & Hph & Hday).
  assert (Hb' : Boundary (done ++ [d]) (process_date st d))
    by (econstructor; eassumption).
  assert (Hnd' : NoDup ((done ++ [d]) ++ dates))
    by (rewrite <- app_assoc; exact Hnd).
  change (for_loop process_date (d :: dates) st)
    with (for_loop process_date dates (process_date st d)).
  cbn [dates_trace] in Hs. apply in_app_or in Hs as [Hs | Hs].
  - destruct (day_closes d st Hlive (Hfresh d Hd) s pos Hs Hp) as (t & Ht & Hc).
    exists t. split; [|exact Hc]. eapply ledger_grows; eassumption.
  - eapply IH; eassumption.
Qed.

(** Every position that is live in some state of a run has its closing
    trade, dated the day it was opened, in the returned ledger. *)
Lemma run_closes s pos :
  In s backtest_trace -> In pos (live_positions s) ->
  exists t, In t backtest_strategy /\ closes pos t.
Proof.
  unfold backtest_trace. intros [<- | Hs] Hp; [contradiction|].
  eapply (dates_close unique_dates []); try eassumption; [constructor|].
  apply PyFacts.strict_NoDup, unique_dates_strict.
Qed.

(** No position is held from one date to the next. *)
Lemma flat_between_dates n :
  live_positions (for_loop process_date (take n unique_dates) initial_state) = [].
Proof.
  assert (Hnd : NoDup (take n unique_dates)).
  { eapply sublist_NoDup; [|apply sublist_take].
    apply PyFacts.strict_NoDup, unique_dates_strict. }
  destruct (run_refines (take n unique_dates) [] initial_state) as [Hb _];
    [constructor | exact Hnd|].
  apply boundary_idle in Hb. apply Hb.
Qed.

End RunFacts.

(** ** The closing price, by position in the table *)

(** The row mask of [get_option_price] and [get_exit_price_at_close]. *)
Definition contract_match (date expiry : Z) (strike : Q) (option_type : string)
    (r : Row) : bool :=
  (Date r =? date) && (Expiry r =? expiry) && Qeq_bool (Strike r) strike
  && String.eqb (Option_Type r) option_type.

(** [r] is the last row of [table] that satisfies [p]. *)
Definition last_row_where (p : Row -> bool) (table : list Row) (r : Row) : Prop :=
  exists l1 l2,
    table = l1 ++ r :: l2 /\ p r = true /\ Forall (fun r' => p r' = false) l2.

Section LastRow.
Context {A : Type}.
Implicit Types (p q : A -> bool) (l : list A).

Lemma filter_none p l : Forall (fun x => p x = false) l <-> List.filter p l = [].
Proof.
  induction l as [|a l IH]; cbn.
  - split; [reflexivity | constructor].
  - destruct (p a) eqn:E; split.
    + intros H. inversion H; congruence.
    + discriminate.
    + intros H. inversion H; subst. apply IH. assumption.
    + intros H. constructor; [exact E | apply IH, H].
Qed.

Lemma filter_twice p q l :
  List.filter q (List.filter p l) = List.filter (fun x => p x && q x) l.
Proof.
  induction l as [|a l IH]; cbn; [reflexivity|].
  destruct (p a); cbn; [|exact IH].
  destruct (q a); rewrite IH; reflexivity.
Qed.

Lemma last_filter_split p l r :
  last (List.filter p l) = Some r <->
  exists l1 l2, l = l1 ++ r :: l2 /\ p r = true /\ Forall (fun x => p x = false) l2.
Proof.
  split.
  - induction l as [|a l IH] using rev_ind; [discriminate|].
    rewrite List.filter_app. cbn. destruct (p a) eqn:E.
    + rewrite last_snoc. intros [= ->].
      exists l, []. repeat split; [exact E | constructor].
    + rewrite app_nil_r. intros H.
      destruct (IH H) as (l1 & l2 & -> & Hr & Hl2).
      exists l1, (l2 ++ [a]). rewrite <- app_assoc. repeat split; [exact Hr|].
      apply Forall_app. split; [exact Hl2 | repeat constructor; exact E].
  - intros (l1 & l2 & -> & Hr & Hl2).
    rewrite List.filter_app. cbn. rewrite Hr.
    apply filter_none in Hl2. rewrite Hl2.
    apply last_snoc.
Qed.
End LastRow.

Section ClosePriceFacts.
Variable nifty_data : list Row.
Variables (date expiry : Z) (strike : Q) (option_type : string).

Let m := contract_match date expiry strike option_type.
Let early := fun r => m r && (DateTime r <=? close_time date).

Lemma contract_rows_mask :
  contract_rows nifty_data date expiry strike option_type = List.filter m nifty_data.
Proof. reflexivity. Qed.

Lemma exit_price_none :
  get_exit_price_at_close nifty_data date expiry strike option_type = None
  <-> Forall (fun r => m r = false) nifty_data.
Proof.
  rewrite filter_none. unfold get_exit_price_at_close.
  rewrite contract_rows_mask.
  destruct (List.filter m nifty_data) as [|r0 rows] eqn:E.
  - cbn. tauto.
  - cbn [length Nat.eqb]. split; [|discriminate].
    destruct (0 <? _)%nat eqn:El.
    + destruct (last (List.filter _ (r0 :: rows))) as [x|] eqn:Hl; [discriminate|].
      apply last_None in Hl. rewrite Hl in El. discriminate.
    + destruct (last (r0 :: rows)) as [x|] eqn:Hl; [discriminate|].
      apply last_None in Hl. discriminate.
Qed.

Lemma exit_price_some x :
  get_exit_price_at_close nifty_data date expiry strike option_type = Some x
  <-> (exists r, last_row_where early nifty_data r /\ x = Close r)
      \/ (Forall (fun r => early r = false) nifty_data
          /\ exists r, last_row_where m nifty_data r /\ x = Close r).
Proof.
  unfold get_exit_price_at_close, last_row_where.
  rewrite contract_rows_mask, filter_twice.
  change (fun x0 : Row => m x0 && (DateTime x0 <=? close_time date)) with early.
  rewrite (filter_none early).
  destruct (List.filter m nifty_data) as [|r0 rows] eqn:Em.
  - cbn [length Nat.eqb]. split; [discriminate|].
    assert (Hnone : forall r, last (List.filter m nifty_data) <> Some r).
    { rewrite Em. discriminate. }
    assert (Hsub : forall r, last (List.filter early nifty_data) <> Some r).
    { intros r Hr. apply last_filter_split in Hr as (l1 & l2 & Hl & Hp & _).
      assert (Hin : In r (List.filter m nifty_data)).
      { apply filter_In. split.
        - rewrite Hl. apply in_elt.
        - unfold early in Hp. apply andb_true_iff in Hp. tauto. }
      rewrite Em in Hin. contradiction. }
    intros [(r & Hr & _) | (_ & r & Hr & _)].
    + apply last_filter_split in Hr. apply Hsub in Hr. contradiction.
    + apply last_filter_split in Hr. apply Hnone in Hr. contradiction.
  - cbn [length Nat.eqb]. rewrite <- Em.
    destruct (List.filter early nifty_data) as [|c0 cd] eqn:Ee.
    + cbn [length Nat.ltb Nat.leb]. split.
      * intros H. right. split; [reflexivity|].
        destruct (last (List.filter m nifty_data)) as [r|] eqn:El; [|discriminate].
        injection H as <-. exists r. split; [|reflexivity].
        apply last_filter_split, El.
      * intros [(r & Hr & _) | (_ & r & Hr & ->)].
        -- apply last_filter_split in Hr. rewrite Ee in Hr. discriminate.
        -- apply last_filter_split in Hr. rewrite Hr. reflexivity.
    + cbn [length Nat.ltb Nat.leb]. rewrite <- Ee. split.
      * intros H. left.
        destruct (last (List.filter early nifty_data)) as [r|] eqn:El; [|discriminate].
        injection H as <-. exists r. split; [|reflexivity].
        apply last_filter_split, El.
      * intros [(r & Hr & ->) | (Hnil & _)].
        -- apply last_filter_split in Hr. rewrite Hr. reflexivity.
        -- rewrite Ee in Hnil. discriminate.
Qed.

End ClosePriceFacts.

(** ** Sorting the ledger *)

Module PdFacts.

Lemma insert_perm t l : Permutation (t :: l) (Pd.insert_by_entry_date t l).
Proof.
  induction l as [|u l IH]; cbn; [reflexivity|].
  destruct (entry_date t <=? entry_date u); [reflexivity|].
  rewrite perm_swap. constructor. exact IH.
Qed.

Lemma sort_perm l : Permutation l (Pd.sort_values_entry_date l).
Proof.
  induction l as [|t l IH]; cbn; [reflexivity|].
  rewrite <- insert_perm. constructor. exact IH.
Qed.

Lemma sort_nonempty l : l <> [] -> Pd.sort_values_entry_date l <> [].
Proof.
  intros Hl Hs. pose proof (sort_perm l) as Hp. rewrite Hs in Hp.
  apply Permutation_nil_r in Hp. contradiction.
Qed.

Lemma sort_length l : length (Pd.sort_values_entry_date l) = length l.
Proof. symmetry. apply Permutation_length, sort_perm. Qed.

(** A ledger already in entry-date order is left as it is. *)
Lemma sort_id l :
  StronglySorted Z.le (List.map entry_date l) -> Pd.sort_values_entry_date l = l.
Proof.
  induction l as [|t l IH]; intros Hs; [reflexivity|].
  inversion Hs as [|? ? Hl Ht]; subst.
  change (Pd.sort_values_entry_date (t :: l))
    with (Pd.insert_by_entry_date t (Pd.sort_values_entry_date l)).
  rewrite (IH Hl). destruct l as [|u l]; [reflexivity|]. cbn.
  inversion Ht; subst. destruct (Z.leb_spec (entry_date t) (entry_date u)); [reflexivity|lia].
Qed.

Lemma insert_by_entry_date_sorted t l :
  StronglySorted Z.le (List.map entry_date l) ->
  StronglySorted Z.le (List.map entry_date (Pd.insert_by_entry_date t l)).
Proof.
  induction l as [|u l IH]; intros Hl; cbn.
  - repeat constructor.
  - inversion Hl as [|? ? Hl' Hu]; subst.
    destruct (Z.leb_spec (entry_date t) (entry_date u)).
    + cbn. constructor; [exact Hl|]. constructor; [assumption|].
      eapply Forall_impl; [exact Hu|]. cbn. intros; lia.
    + cbn. constructor; [auto|].
      rewrite <- (insert_perm t l). cbn. constructor; [lia | exact Hu].
Qed.

Lemma sort_values_entry_date_sorted l :
  StronglySorted Z.le (List.map entry_date (Pd.sort_values_entry_date l)).
Proof.
  induction l as [|t l IH]; [constructor|].
  apply insert_by_entry_date_sorted, IH.
Qed.

Lemma sum_cons x l : Pd.sum (x :: l) = (x + Pd.sum l)%Q.
Proof. reflexivity. Qed.

Lemma sum_app l k : (Pd.sum (l ++ k) == Pd.sum l + Pd.sum k)%Q.
Proof.
  induction l as [|x l IH].
  - change (Pd.sum ([] ++ k)) with (Pd.sum k). change (Pd.sum []) with 0%Q. lra.
  - change ((x :: l) ++ k) with (x :: (l ++ k)). rewrite !sum_cons, IH. lra.
Qed.

Lemma sum_perm l k : Permutation l k -> (Pd.sum l == Pd.sum k)%Q.
Proof.
  induction 1 as [|x l k _ IH|x y l|l k j _ IH1 _ IH2].
  - reflexivity.
  - rewrite !sum_cons, IH. reflexivity.
  - rewrite !sum_cons. lra.
  - rewrite IH1. exact IH2.
Qed.

Lemma expanding_max_from_length m l : length (Pd.expanding_max_from m l) = length l.
Proof. revert m. induction l; intros m; cbn; [reflexivity | rewrite IHl; reflexivity]. Qed.

Lemma expanding_max_length l : length (Pd.expanding_max l) = length l.
Proof. destruct l; cbn; [reflexivity | rewrite expanding_max_from_length; reflexivity]. Qed.

Lemma pct_change_from_length p l : length (Pd.pct_change_from p l) = length l.
Proof. revert p. induction l; intros p; cbn; [reflexivity | rewrite IHl; reflexivity]. Qed.

Lemma pct_change_length l : length (Pd.pct_change l) = length l.
Proof. destruct l; cbn; [reflexivity | rewrite pct_change_from_length; reflexivity]. Qed.

(** Every running maximum is positive and at least the current value. *)
Lemma expanding_max_from_above m l :
  (0 < m)%Q ->
  Forall (fun cr => fst cr <= snd cr /\ 0 < snd cr)%Q
    (combine l (Pd.expanding_max_from m l)).
Proof.
  revert m. induction l as [|x l IH]; intros m Hm; cbn; [constructor|].
  pose proof (Q.le_max_l m x). pose proof (Q.le_max_r m x).
  constructor; [cbn; split; [assumption | lra]|].
  apply IH. lra.
Qed.

Lemma expanding_max_above l :
  Forall (fun c => 0 < c)%Q l ->
  Forall (fun cr => fst cr <= snd cr /\ 0 < snd cr)%Q (combine l (Pd.expanding_max l)).
Proof.
  destruct l as [|x l]; cbn; [constructor|].
  intros H. inversion H; subst.
  constructor; [cbn; split; [lra | assumption]|].
  apply expanding_max_from_above. assumption.
Qed.

(** On a non-decreasing series the running maximum is the current value. *)
Lemma expanding_max_from_sorted m l :
  StronglySorted Qle l -> Forall (fun x => m <= x)%Q l ->
  Forall (fun cr => snd cr == fst cr)%Q (combine l (Pd.expanding_max_from m l)).
Proof.
  revert m. induction l as [|x l IH]; intros m Hs Hm; cbn; [constructor|].
  inversion Hs as [|? ? Hl Hx]; subst. inversion Hm as [|? ? Hmx Hml]; subst.
  pose proof (Q.max_r m x Hmx) as Hmax.
  constructor; [exact Hmax|].
  apply IH; [exact Hl|].
  eapply Forall_impl; [exact Hx|]. cbn. intros y Hy. rewrite Hmax. exact Hy.
Qed.

Lemma expanding_max_sorted l :
  StronglySorted Qle l ->
  Forall (fun cr => snd cr == fst cr)%Q (combine l (Pd.expanding_max l)).
Proof.
  destruct l as [|x l]; cbn; [constructor|].
  intros Hs. inversion Hs; subst.
  constructor; [reflexivity|].
  apply expanding_max_from_sorted; assumption.
Qed.

(** The minimum of a series stays within bounds that all its values meet. *)
Lemma min_between (a b : Q) l :
  l <> [] -> Forall (fun x => a <= x /\ x <= b)%Q l -> (a <= Pd.min l /\ Pd.min l <= b)%Q.
Proof.
  destruct l as [|x l]; [contradiction|]. intros _ H.
  inversion H as [|? ? Hx Hl]; subst. cbn. clear H.
  revert x Hx. induction l as [|y l IH]; intros x Hx; cbn; [exact Hx|].
  inversion Hl; subst. apply IH; [assumption|].
  destruct (Q.min_spec x y) as [[_ ->] | [_ ->]]; assumption.
Qed.

Lemma min_all_zero l : Forall (fun x => x == 0)%Q l -> (Pd.min l == 0)%Q.
Proof.
  destruct l as [|x l]; [reflexivity|]. intros H.
  assert (Hb : (0 <= Pd.min (x :: l) /\ Pd.min (x :: l) <= 0)%Q).
  { apply min_between; [discriminate|].
    eapply Forall_impl; [exact H|]. cbn. intros y Hy. rewrite Hy. split; lra. }
  lra.
Qed.

End PdFacts.

(** ** The equity frame and its columns *)

Definition cumulative_of (capitals : list Q) : list Q :=
  List.map (fun c => c / hd 0 capitals)%Q capitals.

Definition drawdowns_of (capitals : list Q) : list Q :=
  List.map (fun cr => (fst cr - snd cr) / snd cr)%Q
    (combine (cumulative_of capitals) (Pd.expanding_max (cumulative_of capitals))).

Section Columns.
Context {A B C : Type}.

Lemma map_combine_fst (f : A -> C) (l1 : list A) (l2 : list B) :
  (length l1 <= length l2)%nat ->
  List.map (fun x => f (fst x)) (combine l1 l2) = List.map f l1.
Proof.
  revert l2. induction l1 as [|a l1 IH]; intros [|b l2] H; cbn in *;
    try reflexivity; try lia.
  rewrite IH by lia. reflexivity.
Qed.

Lemma map_combine_snd (f : B -> C) (l1 : list A) (l2 : list B) :
  (length l2 <= length l1)%nat ->
  List.map (fun x => f (snd x)) (combine l1 l2) = List.map f l2.
Proof.
  revert l2. induction l1 as [|a l1 IH]; intros [|b l2] H; cbn in *;
    try reflexivity; try lia.
  rewrite IH by lia. reflexivity.
Qed.

Lemma Forall_combine_fst (P : A -> Prop) (l1 : list A) (l2 : list B) :
  Forall P l1 -> Forall (fun x => P (fst x)) (combine l1 l2).
Proof.
  intros H. revert l2. induction H as [|a l1 Ha Hl IH]; intros [|b l2]; cbn;
    constructor; auto.
Qed.
End Columns.

Section EquityFacts.
Local Open Scope Q_scope.

Local Ltac same_length :=
  rewrite ?length_combine, ?length_map, ?PdFacts.expanding_max_length,
    ?PdFacts.pct_change_length, ?length_combine, ?length_map,
    ?PdFacts.expanding_max_length, ?length_map; lia.

Lemma map_pair {X Y Z'} (f : X -> Y) (g : X -> Z') (l : list X) :
  List.map (fun x => (f x, g x)) l = combine (List.map f l) (List.map g l).
Proof. induction l as [|x l IH]; cbn; [reflexivity | rewrite IH; reflexivity]. Qed.

Lemma equity_frame_date l :
  List.map eq_date (equity_frame l) = List.map exit_date l.
Proof.
  unfold equity_frame. rewrite List.map_map.
  erewrite List.map_ext with (g := fun x => (fun d => d) (fst x));
    [|intros (d & c & cu & rm & dd & r); reflexivity].
  rewrite (map_combine_fst (fun d => d)) by same_length.
  apply List.map_id.
Qed.

Lemma equity_frame_capital l :
  List.map eq_capital (equity_frame l) = List.map capital_after l.
Proof.
  unfold equity_frame. rewrite List.map_map.
  erewrite List.map_ext with (g := fun x => (fun y => fst y) (snd x));
    [|intros (d & c & cu & rm & dd & r); reflexivity].
  rewrite (map_combine_snd (fun y => fst y)) by same_length.
  rewrite (map_combine_fst (fun c => c)) by same_length.
  apply List.map_id.
Qed.

Lemma equity_frame_points l :
  List.map (fun p => (eq_date p, eq_capital p)) (equity_frame l)
  = List.map (fun t => (exit_date t, capital_after t)) l.
Proof.
  rewrite !map_pair, equity_frame_date, equity_frame_capital. reflexivity.
Qed.

Lemma equity_frame_cumulative l :
  List.map eq_cumulative (equity_frame l) = cumulative_of (List.map capital_after l).
Proof.
  unfold equity_frame. rewrite List.map_map.
  erewrite List.map_ext with
    (g := fun x => (fun y => (fun z => fst z) (snd y)) (snd x));
    [|intros (d & c & cu & rm & dd & r); reflexivity].
  rewrite (map_combine_snd (fun y => (fun z => fst z) (snd y))) by same_length.
  rewrite (map_combine_snd (fun z => fst z)) by same_length.
  rewrite (map_combine_fst (fun c => c)) by same_length.
  apply List.map_id.
Qed.

Lemma equity_frame_drawdown l :
  List.map eq_drawdown (equity_frame l) = drawdowns_of (List.map capital_after l).
Proof.
  unfold equity_frame. rewrite List.map_map.
  erewrite List.map_ext with
    (g := fun x => (fun y => (fun z => (fun w => fst (snd w)) (snd z)) (snd y)) (snd x));
    [|intros (d & c & cu & rm & dd & r); reflexivity].
  rewrite (map_combine_snd (fun y => (fun z => (fun w => fst (snd w)) (snd z)) (snd y)))
    by same_length.
  rewrite (map_combine_snd (fun z => (fun w => fst (snd w)) (snd z))) by same_length.
  rewrite (map_combine_snd (fun w => fst (snd w))) by same_length.
  rewrite (map_combine_snd (fun v => fst v)) by same_length.
  rewrite (map_combine_fst (fun c => c)) by same_length.
  apply List.map_id.
Qed.

(** With positive capital every drawdown lies between -1 and 0. *)
Lemma drawdowns_bounded capitals :
  Forall (fun c => 0 < c) capitals ->
  Forall (fun x => -(1) <= x /\ x <= 0) (drawdowns_of capitals).
Proof.
  intros Hpos. unfold drawdowns_of.
  assert (Hcum : Forall (fun c => 0 < c) (cumulative_of capitals)).
  { unfold cumulative_of. destruct capitals as [|c0 cs]; [constructor|].
    inversion Hpos as [|? ? Hc0 _]; subst. cbn [hd].
    apply List.Forall_map. eapply Forall_impl; [exact Hpos|].
    cbn. intros c Hc. apply Qlt_shift_div_l; [exact Hc0 | lra]. }
  apply List.Forall_map.
  pose proof (PdFacts.expanding_max_above _ Hcum) as Hrm.
  pose proof (Forall_combine_fst _ _ (Pd.expanding_max (cumulative_of capitals)) Hcum)
    as Hfst.
  rewrite List.Forall_forall in *. intros [c r] Hin.
  specialize (Hrm _ Hin). specialize (Hfst _ Hin). cbn in *.
  destruct Hrm as [Hle Hr]. split.
  - apply Qle_shift_div_l; [exact Hr | lra].
  - apply Qle_shift_div_r; [exact Hr | lra].
Qed.

Lemma cumulative_sorted capitals :
  Forall (fun c => 0 < c) capitals ->
  StronglySorted Qle capitals -> StronglySorted Qle (cumulative_of capitals).
Proof.
  intros Hpos. unfold cumulative_of.
  destruct capitals as [|c0 cs]; [constructor|].
  inversion Hpos as [|? ? Hc0 _]; subst. cbn [hd].
  assert (Hmono : forall a b, a <= b -> a / c0 <= b / c0).
  { intros a b Hab. apply Qle_shift_div_l; [exact Hc0|].
    unfold Qdiv. rewrite <- Qmult_assoc, (Qmult_comm (/ c0)), Qmult_inv_r by lra.
    lra. }
  generalize (c0 :: cs). intros l Hs.
  induction Hs as [|x l Hl IH Hx]; cbn; constructor; [exact IH|].
  apply List.Forall_map. eapply Forall_impl; [exact Hx|]. cbn. auto.
Qed.

(** On a non-decreasing positive series every drawdown is 0. *)
Lemma drawdowns_sorted capitals :
  Forall (fun c => 0 < c) capitals ->
  StronglySorted Qle capitals ->
  Forall (fun x => x == 0) (drawdowns_of capitals).
Proof.
  intros Hpos Hs. unfold drawdowns_of.
  apply List.Forall_map.
  pose proof (PdFacts.expanding_max_sorted _ (cumulative_sorted _ Hpos Hs)) as Hrm.
  eapply Forall_impl; [exact Hrm|].
  intros [c r]. cbn. intros H. rewrite H. unfold Qdiv.
  ring.
Qed.

End EquityFacts.

(** ** The report on a non-empty ledger *)

Section ReportFacts.
Local Open Scope Q_scope.
Variable initial_capital : Q.
Variable float_pow : Q -> Q -> Q.
Variable float_sqrt : Q -> Q.

Abbreviation metrics :=
  (calculate_performance_metrics initial_capital float_pow float_sqrt).

Lemma report_fields ledger :
  ledger <> [] ->
  let sorted := Pd.sort_values_entry_date ledger in
  let winning := List.filter (fun t => Py.Qlt_bool 0 (profit t)) sorted in
  let losing := List.filter (fun t => Qle_bool (profit t) 0) sorted in
  Equity_Curve (metrics ledger) = equity_frame sorted
  /\ Maximum_Drawdown (metrics ledger)
     = Pd.min (List.map eq_drawdown (equity_frame sorted)) * 100
  /\ Win_Rate (metrics ledger)
     = (if (0 <? length sorted)%nat
        then Pd.of_len winning / Pd.of_len sorted * 100 else 0)
  /\ Profit_Factor (metrics ledger)
     = (let total_profit :=
          if (0 <? length winning)%nat then Pd.sum (List.map profit winning) else 0 in
        let total_loss :=
          if (0 <? length losing)%nat
          then Qabs (Pd.sum (List.map profit losing)) else 1 in
        if Py.Qlt_bool 0 total_loss then total_profit / total_loss else 0)
  /\ Final_Capital (metrics ledger) = default 0 (capital_after <$> last sorted)
  /\ Total_Trades (metrics ledger) = length sorted
  /\ Losing_Trades (metrics ledger) = length losing.
Proof.
  intros Hne. destruct ledger as [|t l]; [contradiction|].
  unfold calculate_performance_metrics. cbn [length Nat.eqb].
  destruct (for_loop streak_body _ _) as [[[mw ml] cw] cl].
  cbn. repeat split; reflexivity.
Qed.

Lemma filter_all {A} (p : A -> bool) (l : list A) :
  Forall (fun x => p x = true) l -> List.filter p l = l.
Proof.
  induction 1 as [|x l Hx Hl IH]; cbn; [reflexivity|]. rewrite Hx, IH. reflexivity.
Qed.

Lemma of_len_positive {A} (l : list A) : l <> [] -> 0 < Pd.of_len l.
Proof.
  intros Hl. unfold Pd.of_len. destruct l; [contradiction|].
  change 0 with (inject_Z 0). rewrite <- Zlt_Qlt. cbn [length]. lia.
Qed.

(** A ledger of winners only: the loss total is floored at 1 and the
    profit factor is the total profit. *)
Lemma winners_only ledger :
  ledger <> [] -> Forall (fun t => 0 < profit t) ledger ->
  Profit_Factor (metrics ledger) == Pd.sum (List.map profit ledger)
  /\ Win_Rate (metrics ledger) == 100
  /\ Losing_Trades (metrics ledger) = 0%nat.
Proof.
  intros Hne Hwin.
  destruct (report_fields ledger Hne) as (_ & _ & Hwr & Hpf & _ & _ & Hlt).
  cbn zeta in *.
  set (sorted := Pd.sort_values_entry_date ledger) in *.
  assert (Hs : Forall (fun t => 0 < profit t) sorted).
  { unfold sorted. rewrite <- (PdFacts.sort_perm ledger). exact Hwin. }
  assert (Hne' : sorted <> []) by (apply PdFacts.sort_nonempty, Hne).
  assert (Hw : List.filter (fun t => Py.Qlt_bool 0 (profit t)) sorted = sorted).
  { apply filter_all. eapply Forall_impl; [exact Hs|]. cbn. intros t Ht.
    unfold Py.Qlt_bool. apply negb_true_iff.
    destruct (Qle_bool (profit t) 0) eqn:E; [|reflexivity].
    apply Qle_bool_iff in E. lra. }
  assert (Hl : List.filter (fun t => Qle_bool (profit t) 0) sorted = []).
  { apply filter_none. eapply Forall_impl; [exact Hs|]. cbn. intros t Ht.
    destruct (Qle_bool (profit t) 0) eqn:E; [|reflexivity].
    apply Qle_bool_iff in E. lra. }
  rewrite Hw in *. rewrite Hl in *.
  assert (Hlen : (0 <? length sorted)%nat = true).
  { destruct sorted; [contradiction | reflexivity]. }
  rewrite Hlen in *. cbn [length Nat.ltb Nat.leb] in Hpf.
  change (Py.Qlt_bool 0 1) with true in Hpf. cbn iota in Hpf.
  assert (Hsum : Pd.sum (List.map profit sorted) == Pd.sum (List.map profit ledger)).
  { apply PdFacts.sum_perm, Permutation_map, Permutation_sym, PdFacts.sort_perm. }
  split; [|split; [|exact Hlt]].
  - rewrite Hpf, <- Hsum. field.
  - rewrite Hwr. pose proof (of_len_positive sorted Hne').
    field. lra.
Qed.

End ReportFacts.

(** ** Grouping an equity curve by date *)

Section GroupFacts.

Lemma unique_id l : NoDup l -> Py.unique l = l.
Proof.
  induction 1 as [|x l Hx Hl IH]; cbn; [reflexivity|].
  rewrite IH. f_equal. apply filter_all.
  apply Forall_forall. intros y Hy. apply negb_true_iff, Z.eqb_neq.
  intros ->. contradiction.
Qed.

Lemma filter_own_key (curve : list (Z * Q)) p :
  NoDup (List.map fst curve) -> In p curve ->
  List.filter (fun q => fst q =? fst p) curve = [p].
Proof.
  induction curve as [|q curve IH]; cbn; [contradiction|].
  rewrite NoDup_cons. intros [Hq Hnd] [-> | Hin].
  - rewrite Z.eqb_refl. f_equal. apply filter_none.
    apply Forall_forall. intros y Hy. apply Z.eqb_neq. intros Heq.
    apply Hq. rewrite <- Heq. apply list_elem_of_In, in_map, list_elem_of_In, Hy.
  - destruct (Z.eqb_spec (fst q) (fst p)) as [Heq|]; [|auto].
    exfalso. apply Hq. rewrite Heq. apply list_elem_of_In, in_map, Hin.
Qed.

(** A curve with strictly increasing dates is its own per-date series. *)
Lemma groupby_strict curve :
  StronglySorted Z.lt (List.map fst curve) ->
  Pd.groupby_date_capital_last curve = curve.
Proof.
  intros Hs. unfold Pd.groupby_date_capital_last.
  pose proof (PyFacts.strict_NoDup _ Hs) as Hnd.
  rewrite (unique_id _ Hnd), PyFacts.sorted_id.
  2:{ clear Hnd. induction Hs as [|x l Hl IH Hx]; constructor; [exact IH|].
      eapply Forall_impl; [exact Hx|]. cbn. intros; lia. }
  assert (H : forall l, (forall p, In p l -> In p curve) ->
              flat_map
                (fun d => match last (List.filter (fun p => fst p =? d) curve) with
                          | Some p => [(d, snd p)]
                          | None => []
                          end)
                (List.map fst l) = l).
  { induction l as [|p l IH]; intros Hin; [reflexivity|].
    cbn [List.map flat_map].
    rewrite (filter_own_key curve p Hnd) by (apply Hin; left; reflexivity).
    cbn. rewrite IH by (intros q Hq; apply Hin; right; exact Hq).
    destruct p; reflexivity. }
  apply H. auto.
Qed.

(** A frame already in date order is left as it is. *)
Lemma sort_date_id (l : list (Z * Q)) :
  StronglySorted Z.le (List.map fst l) -> Pd.sort_values_date l = l.
Proof.
  induction l as [|p l IH]; intros Hs; [reflexivity|].
  inversion Hs as [|? ? Hl Hp]; subst.
  change (Pd.sort_values_date (p :: l))
    with (Pd.insert_by_date p (Pd.sort_values_date l)).
  rewrite (IH Hl). destruct l as [|q l]; [reflexivity|]. cbn.
  inversion Hp; subst. destruct (Z.leb_spec (fst p) (fst q)); [reflexivity|lia].
Qed.

Lemma strict_le (l : list Z) : StronglySorted Z.lt l -> StronglySorted Z.le l.
Proof.
  induction 1 as [|x l Hl IH Hx]; constructor; [exact IH|].
  eapply Forall_impl; [exact Hx|]. cbn. intros; lia.
Qed.

(** The dates of a per-date series are strictly increasing. *)
Lemma groupby_dates curve :
  StronglySorted Z.lt (List.map fst (Pd.groupby_date_capital_last curve)).
Proof.
  unfold Pd.groupby_date_capital_last.
  eapply sublist_strict; [|apply (PyFacts.sorted_unique_strict (List.map fst curve))].
  generalize (Py.sorted (Py.unique (List.map fst curve))).
  induction l as [|d l IH]; cbn; [constructor|].
  destruct (last _) as [p|]; cbn.
  - apply sublist_skip, IH.
  - apply sublist_cons, IH.
Qed.

End GroupFacts.

(** * A worked run

    One date with two quotes of the 22000 call: 100 at 09:30 and 110 at
    15:00.  The signal always asks for a call, and the run starts with a
    capital of 1,000,000. *)

Module Demo.

Definition table : list Row :=
  [ mkRow 1 "09:30:00" (86400 + 34200) (Some (22010 # 1)%Q) 5 (4 # 1)%Q (22000 # 1)%Q
      "CE" (100 # 1)%Q;
    mkRow 1 "15:00:00" (86400 + 54000) (Some (22030 # 1)%Q) 5 (4 # 1)%Q (22000 # 1)%Q
      "CE" (110 # 1)%Q ].

Definition always_call (date : Z) (underlying : Q) (rows : list Row)
  : option string * bool :=
  (Some "CE"%string, true).

Definition start : Q := (1000000 # 1)%Q.

Definition ledger : list Trade := backtest_strategy table start "Momentum" always_call.

(** A second strategy trading the same date, and both ledgers combined. *)
Definition ledger' : list Trade := backtest_strategy table start "Reversion" always_call.
Definition combined : list Trade :=
  match combine_portfolio [ledger; ledger'] with
  | inr (_, combined_trades) => combined_trades
  | inl _ => []
  end.

(** A state with one live position, as the entry loop leaves it. *)
Definition holding : State :=
  entry_pass table always_call 1 (init_today 1 (initial_state start)).

Example ledger_has_one_trade : length ledger = 1%nat.
Proof. reflexivity. Qed.

Example holding_one_position : length (live_positions holding) = 1%nat.
Proof. reflexivity. Qed.

Example combined_same_date : List.map exit_date combined = [1; 1].
Proof. reflexivity. Qed.

(** [combine_portfolio] on the two ledgers, on no ledger, and on a ledger
    without trades. *)
Example combine_two_ledgers :
  match combine_portfolio [ledger; ledger'] with
  | inr (equity_df, combined_trades) =>
      combined_trades = combined /\ List.map fst equity_df = [1]
  | inl _ => False
  end.
Proof. vm_compute. split; reflexivity. Qed.

Example combine_no_ledger : combine_portfolio [] = inr ([], []).
Proof. reflexivity. Qed.

Example combine_empty_ledger : combine_portfolio [[]] = inl (KeyError "entry_date").
Proof. reflexivity. Qed.

End Demo.

(** * Main results *)

Section Engine.
Variable nifty_data : list Row.
Variable initial_capital : Q.
Variable strategy_name : string.
Variable entry_logic : Z -> Q -> list Row -> option string * bool.

Abbreviation reachable :=
  (Reachable nifty_data initial_capital strategy_name).

Lemma run_trace_reachable : Forall reachable (backtest_trace nifty_data initial_capital strategy_name entry_logic).
Proof. apply backtest_trace_reachable. Qed.

Lemma run_end_reachable :
  reachable (backtest_run nifty_data initial_capital strategy_name entry_logic).
Proof. eapply boundary_reachable, backtest_run_boundary. Qed.

(** C1. In every run of [backtest_strategy], no state of the run holds two
    or more live positions; and while a position is live the entry loop
    leaves the state as it is, so a request to enter is not even looked
    at and the live set keeps its single position. *)
Theorem single_position_invariant :
  Forall (fun st => (length (live_positions st) <= 1)%nat) (backtest_trace nifty_data initial_capital strategy_name entry_logic)
  /\ forall date st,
      live_positions st <> [] ->
      entry_pass nifty_data entry_logic date st = st
      /\ entry_pass_trace nifty_data entry_logic date st = [].
Proof.
  split.
  - eapply Forall_impl; [apply run_trace_reachable|].
    intros st. apply reachable_live.
  - intros date st. apply entry_pass_blocked.
Qed.

(** C2. In the ledger returned by [backtest_strategy], the [capital_after]
    of row [i] is the [capital_after] of row [i-1] (the initial capital
    for row 0) plus the [profit] of row [i]; and in every state of the
    run the running capital is the value stamped on the last closed
    trade. *)
Theorem capital_conservation :
  (forall i t,
      (backtest_strategy nifty_data initial_capital strategy_name entry_logic) !! i = Some t ->
      capital_after t = (capital_before initial_capital (backtest_strategy nifty_data initial_capital strategy_name entry_logic) i + profit t)%Q)
  /\ Forall (fun st => capital st = last_capital initial_capital (trades st)) (backtest_trace nifty_data initial_capital strategy_name entry_logic).
Proof.
  split.
  - intros i t Hi.
    pose proof run_end_reachable as Hend. apply reachable_capital in Hend.
    destruct Hend as [Hchain _].
    eapply capital_chain_lookup; eassumption.
  - eapply Forall_impl; [apply run_trace_reachable|].
    intros st Hst. apply reachable_capital in Hst. apply Hst.
Qed.

(** C3. Every position is closed on the day it is opened.  Every trade of
    the ledger returned by [backtest_strategy], and of the ledger in any
    state of the run, has [exit_date = entry_date].  Every position that
    is live in some state of the run has its closing trade in the returned
    ledger: a row with the position's entry date as entry and exit date,
    its time, contract and entry price, and the exit price that
    [get_exit_price_at_close] finds on that date.  After each date of the
    loop over dates the live set is empty, so no position is held
    overnight, and none is left open when the run returns. *)
Theorem same_day_closure :
  Forall (fun t => exit_date t = entry_date t) (backtest_strategy nifty_data initial_capital strategy_name entry_logic)
  /\ Forall (fun st => Forall (fun t => exit_date t = entry_date t) (trades st))
       (backtest_trace nifty_data initial_capital strategy_name entry_logic)
  /\ (forall st pos,
        In st (backtest_trace nifty_data initial_capital strategy_name entry_logic) ->
        In pos (live_positions st) ->
        exists t,
          In t (backtest_strategy nifty_data initial_capital strategy_name entry_logic)
          /\ closes nifty_data pos t)
  /\ (forall n,
        live_positions
          (for_loop (process_date nifty_data strategy_name entry_logic)
             (take n (unique_dates nifty_data)) (initial_state initial_capital))
        = [])
  /\ live_positions (backtest_run nifty_data initial_capital strategy_name entry_logic)
     = [].
Proof.
  split; [|split; [|split; [|split]]].
  - pose proof (backtest_run_boundary nifty_data initial_capital strategy_name
                  entry_logic) as Hend.
    apply boundary_dates in Hend. destruct Hend as [H _].
    apply Forall_forall. exact H.
  - eapply Forall_impl; [apply run_trace_reachable|].
    intros st Hst. apply reachable_dates in Hst.
    destruct Hst as (done & H & _).
    apply Forall_forall. exact H.
  - intros st pos. apply run_closes.
  - intros n. apply flat_between_dates.
  - pose proof (backtest_run_boundary nifty_data initial_capital strategy_name
                  entry_logic) as Hend.
    apply (boundary_idle nifty_data initial_capital strategy_name entry_logic) in Hend.
    apply Hend.
Qed.

(** C4. In every state of a run and for every date [d], the trades entered
    on [d] plus the trades exited on [d] number at most 3, and so does the
    per-date counter [trades_today[d]], which counts opens and closes. *)
Theorem per_date_cap :
  Forall (fun st =>
            forall d,
              (count_entries d (trades st) + count_exits d (trades st) <= 3)%nat
              /\ (count_today (trades_today st) d <= 3)%nat)
    (backtest_trace nifty_data initial_capital strategy_name entry_logic)
  /\ forall d, (count_entries d (backtest_strategy nifty_data initial_capital strategy_name entry_logic) + count_exits d (backtest_strategy nifty_data initial_capital strategy_name entry_logic) <= 3)%nat.
Proof.
  assert (H : forall st, reachable st ->
              forall d,
                (count_entries d (trades st) + count_exits d (trades st) <= 3)%nat
                /\ (count_today (trades_today st) d <= 3)%nat).
  { intros st Hst d.
    pose proof Hst as Hcount. apply (reachable_today _ _ _ _ d) in Hcount.
    apply reachable_dates in Hst. destruct Hst as (done & Hd).
    destruct (dates_ok_counts _ _ d Hd). lia. }
  split.
  - eapply Forall_impl; [apply run_trace_reachable | exact H].
  - intros d. apply (H _ run_end_reachable d).
Qed.

(** C10. The entry loop of a date appends at most one position to the
    live set, in its result and in every state it goes through, whatever
    state it starts from; a run never sees the per-date counter reach 3,
    so the guard of the entry loop is decided by the live set alone; and
    the returned ledger has at most one trade entered on any date. *)
Theorem one_entry_per_date :
  (forall date st,
      appended st (entry_pass nifty_data entry_logic date st)
      /\ Forall (appended st) (entry_pass_trace nifty_data entry_logic date st))
  /\ Forall (fun st =>
               forall date,
                 (count_today (trades_today st) date < 3)%nat
                 /\ entry_stop date st = (0 <? length (live_positions st))%nat)
       (backtest_trace nifty_data initial_capital strategy_name entry_logic)
  /\ forall d, (count_entries d (backtest_strategy nifty_data initial_capital strategy_name entry_logic) <= 1)%nat.
Proof.
  split; [intros date st; apply entry_pass_appends|]. split.
  - eapply Forall_impl; [apply run_trace_reachable|].
    intros st Hst date.
    pose proof Hst as Hc. apply (reachable_today _ _ _ _ date) in Hc.
    split; [lia|]. unfold entry_stop.
    destruct (Nat.leb_spec 3 (count_today (trades_today st) date)); [lia|].
    apply orb_false_r.
  - intros d.
    pose proof run_end_reachable as Hend. apply reachable_dates in Hend.
    destruct Hend as (done & Hd).
    apply (dates_ok_counts _ _ d Hd).
Qed.

End Engine.

Module Standin.
(** Stand-ins for the two float operations where a closed example needs
    some: the demo ledgers span zero days and give fewer than two returns,
    so neither operation is evaluated on them. *)
Definition pow (x y : Q) : Q := x.
Definition sqrt (x : Q) : Q := x.
End Standin.

Section Reports.
Local Open Scope Q_scope.

(** C5 (as the code has it). For a non-empty ledger without losing trades
    the loss total is floored at 1, so [Profit_Factor] is the total
    profit, not 0; the win rate is 100 and no trade counts as a loss.  For
    the single trade bought at 100 and sold at 110 with 100000 committed
    out of 1000000: profit 10000, profit_pct 10, capital_after 1010000,
    Win_Rate 100 and Profit_Factor 10000. *)
Theorem profit_factor_without_losses :
  (forall initial_capital float_pow float_sqrt ledger,
      ledger <> [] ->
      Forall (fun t => 0 < profit t) ledger ->
      let report :=
        calculate_performance_metrics initial_capital float_pow float_sqrt ledger in
      Profit_Factor report == Pd.sum (List.map profit ledger)
      /\ Win_Rate report == 100
      /\ Losing_Trades report = 0%nat)
  /\ Forall (fun t => entry_price t == 100 /\ exit_price t == 110
                      /\ profit t == 10000 /\ profit_pct t == 10
                      /\ capital_after t == 1010000)
       Demo.ledger
  /\ length Demo.ledger = 1%nat
  /\ forall float_pow float_sqrt,
      let report :=
        calculate_performance_metrics Demo.start float_pow float_sqrt Demo.ledger in
      Win_Rate report == 100 /\ Profit_Factor report == 10000.
Proof.
  split; [intros ic pw sq ledger Hne Hwin; apply winners_only; assumption|].
  split; [repeat constructor|]. split; [reflexivity|].
  intros pw sq. split; vm_compute; reflexivity.
Qed.

(** C6. On an empty ledger [calculate_performance_metrics] returns the
    report of [_empty_metrics]: no trades, the initial capital as final
    capital, and 0 for every other number; the equity frame is empty. *)
Theorem empty_ledger_report initial_capital float_pow float_sqrt :
  let report :=
    calculate_performance_metrics initial_capital float_pow float_sqrt [] in
  report = _empty_metrics initial_capital
  /\ Total_Trades report = 0%nat
  /\ Final_Capital report = initial_capital
  /\ Sharpe_Ratio report = 0
  /\ CAGR report = 0
  /\ Maximum_Drawdown report = 0
  /\ Win_Rate report = 0
  /\ Winning_Trades report = 0%nat
  /\ Losing_Trades report = 0%nat
  /\ Avg_Profit_Per_Trade report = 0
  /\ Avg_Loss_Per_Trade report = 0
  /\ Total_Return report = 0
  /\ Profit_Factor report = 0
  /\ Max_Consecutive_Wins report = 0%nat
  /\ Max_Consecutive_Losses report = 0%nat
  /\ Equity_Curve report = [].
Proof. repeat split; reflexivity. Qed.

(** C7. [get_exit_price_at_close] returns [None] exactly when no row of
    the table matches the contract on that date.  Otherwise it returns
    the [Close] of the last row, in table order, that matches and is
    stamped at or before 15:00:00; and when no matching row is that
    early, the [Close] of the last matching row. *)
Theorem exit_price_at_close_spec nifty_data date expiry strike option_type :
  let m := contract_match date expiry strike option_type in
  let early := fun r => m r && (DateTime r <=? close_time date)%Z in
  let price := get_exit_price_at_close nifty_data date expiry strike option_type in
  (price = None <-> Forall (fun r => m r = false) nifty_data)
  /\ forall x,
      price = Some x <->
      (exists r, last_row_where early nifty_data r /\ x = Close r)
      \/ (Forall (fun r => early r = false) nifty_data
          /\ exists r, last_row_where m nifty_data r /\ x = Close r).
Proof.
  cbn zeta. split; [apply exit_price_none | apply exit_price_some].
Qed.

(** C8 (as the code has it). The equity frame of
    [calculate_performance_metrics] has one point per trade: its points
    carry the [exit_date] and [capital_after] of the trades of the ledger
    arranged by entry date (rows of equal entry date in whatever order the
    sort leaves them), without any grouping by date; its cumulative
    column is 1 at the first point when that point's capital is not 0.
    For the ledger of one [backtest_strategy] run the frame lists the
    trades in ledger order, its dates are strictly increasing, and when
    the ledger is not empty the frame is the per-date last-capital series
    that [combine_portfolio] builds; on an empty ledger
    [combine_portfolio] raises [KeyError]. *)
Theorem equity_curve_per_trade initial_capital float_pow float_sqrt :
  (forall ledger,
      ledger <> [] ->
      let report :=
        calculate_performance_metrics initial_capital float_pow float_sqrt ledger in
      (exists arranged,
          Permutation ledger arranged
          /\ StronglySorted Z.le (List.map entry_date arranged)
          /\ List.map (fun p => (eq_date p, eq_capital p)) (Equity_Curve report)
             = List.map (fun t => (exit_date t, capital_after t)) arranged)
      /\ length (Equity_Curve report) = length ledger
      /\ forall p,
          head (Equity_Curve report) = Some p ->
          ~ eq_capital p == 0 -> eq_cumulative p == 1)
  /\ forall nifty_data strategy_name entry_logic,
      let ledger :=
        backtest_strategy nifty_data initial_capital strategy_name entry_logic in
      let report :=
        calculate_performance_metrics initial_capital float_pow float_sqrt ledger in
      StronglySorted Z.lt (List.map eq_date (Equity_Curve report))
      /\ List.map (fun p => (eq_date p, eq_capital p)) (Equity_Curve report)
         = List.map (fun t => (exit_date t, capital_after t)) ledger
      /\ match combine_portfolio [ledger] with
         | inr (equity_df, _) =>
             ledger <> []
             /\ List.map (fun p => (eq_date p, eq_capital p)) (Equity_Curve report)
                = equity_df
         | inl raised => ledger = [] /\ raised = KeyError "entry_date"
         end.
Proof.
  split.
  - intros ledger Hne report.
    destruct (report_fields initial_capital float_pow float_sqrt ledger Hne)
      as (Heq & _).
    cbn zeta in Heq. fold report in Heq. rewrite Heq. split; [|split].
    + exists (Pd.sort_values_entry_date ledger).
      split; [apply PdFacts.sort_perm|].
      split; [apply PdFacts.sort_values_entry_date_sorted|].
      apply equity_frame_points.
    + rewrite <- (length_map (fun p => (eq_date p, eq_capital p))).
      rewrite equity_frame_points, length_map. apply PdFacts.sort_length.
    + intros p Hp Hc.
      pose proof (equity_frame_cumulative (Pd.sort_values_entry_date ledger)) as Hcum.
      pose proof (equity_frame_capital (Pd.sort_values_entry_date ledger)) as Hcap.
      destruct (equity_frame (Pd.sort_values_entry_date ledger)) as [|p0 ps];
        [discriminate|].
      injection Hp as ->.
      destruct (List.map capital_after (Pd.sort_values_entry_date ledger))
        as [|c cs]; [discriminate|].
      cbn in Hcum, Hcap. injection Hcum as -> _. injection Hcap as Hc0 _.
      rewrite Hc0 in Hc. unfold Qdiv. apply Qmult_inv_r. exact Hc.
  - intros nifty_data strategy_name entry_logic ledger report.
    pose proof (backtest_run_boundary nifty_data initial_capital strategy_name
                  entry_logic) as Hb.
    apply boundary_dates in Hb. destruct Hb as (Hsame & Hsub & _).
    fold ledger in Hsame, Hsub.
    assert (Hstrict : StronglySorted Z.lt (List.map entry_date ledger)).
    { eapply sublist_strict; [exact Hsub | apply unique_dates_strict]. }
    assert (Hexit : List.map exit_date ledger = List.map entry_date ledger).
    { apply List.map_ext_in. intros t Ht. apply Hsame, list_elem_of_In, Ht. }
    assert (Hsort : Pd.sort_values_entry_date ledger = ledger).
    { apply PdFacts.sort_id. clear -Hstrict.
      induction Hstrict as [|x l Hl IH Hx]; constructor; [exact IH|].
      eapply Forall_impl; [exact Hx|]. cbn. intros; lia. }
    assert (Hdates : StronglySorted Z.lt
                       (List.map fst
                          (List.map (fun t => (exit_date t, capital_after t))
                             ledger))).
    { rewrite List.map_map.
      change (StronglySorted Z.lt (List.map exit_date ledger)).
      rewrite Hexit. exact Hstrict. }
    assert (Hframe : StronglySorted Z.lt (List.map eq_date (Equity_Curve report))
                     /\ List.map (fun p => (eq_date p, eq_capital p))
                          (Equity_Curve report)
                        = List.map (fun t => (exit_date t, capital_after t)) ledger).
    { destruct (decide (ledger = [])) as [Hnil | Hne].
      - subst report. rewrite Hnil. split; [constructor | reflexivity].
      - destruct (report_fields initial_capital float_pow float_sqrt ledger Hne)
          as (Heq & _).
        cbn zeta in Heq. fold report in Heq. rewrite Heq, Hsort.
        rewrite equity_frame_date, equity_frame_points, Hexit. auto. }
    destruct Hframe as [Hsorted Hpoints].
    split; [exact Hsorted|]. split; [exact Hpoints|].
    unfold combine_portfolio. cbn [length Nat.eqb concat]. rewrite app_nil_r.
    destruct ledger as [|t l] eqn:E; cbn [length Nat.eqb]; [auto|].
    split; [discriminate|].
    rewrite Hpoints, Hsort, (groupby_strict _ Hdates).
    symmetry. apply sort_date_id, strict_le, Hdates.
Qed.

(** C9. For a non-empty ledger that [backtest_strategy] produces from a
    positive initial capital on a table without negative closing prices,
    the maximum drawdown of [calculate_performance_metrics] lies between
    -100 and 0, and it is 0 when the capitals of the equity frame never
    decrease. *)
Theorem drawdown_bounded nifty_data initial_capital strategy_name entry_logic
    float_pow float_sqrt
    (Hcapital : 0 < initial_capital)
    (Hprices : Forall (fun r => 0 <= Close r) nifty_data)
    (Htrades :
       backtest_strategy nifty_data initial_capital strategy_name entry_logic <> []) :
  let report :=
    calculate_performance_metrics initial_capital float_pow float_sqrt
      (backtest_strategy nifty_data initial_capital strategy_name entry_logic) in
  (-(100) <= Maximum_Drawdown report /\ Maximum_Drawdown report <= 0)
  /\ (StronglySorted Qle (List.map eq_capital (Equity_Curve report)) ->
      Maximum_Drawdown report == 0).
Proof.
  intros report.
  set (ledger := backtest_strategy nifty_data initial_capital strategy_name
                   entry_logic) in *.
  destruct (report_fields initial_capital float_pow float_sqrt ledger Htrades)
    as (Heq & Hmdd & _).
  cbn zeta in Heq, Hmdd. fold report in Heq, Hmdd.
  set (sorted := Pd.sort_values_entry_date ledger) in *.
  rewrite equity_frame_drawdown in Hmdd.
  assert (Hpos : Forall (fun c => 0 < c) (List.map capital_after sorted)).
  { apply List.Forall_map. unfold sorted. rewrite <- (PdFacts.sort_perm ledger).
    pose proof (run_end_reachable nifty_data initial_capital strategy_name
                  entry_logic) as Hend.
    apply reachable_positive in Hend; [apply Hend | exact Hcapital|].
    apply List.Forall_forall. exact Hprices. }
  assert (Hne : drawdowns_of (List.map capital_after sorted) <> []).
  { pose proof (PdFacts.sort_nonempty ledger Htrades) as Hs. fold sorted in Hs.
    destruct sorted as [|t l]; [contradiction|]. discriminate. }
  split.
  - destruct (PdFacts.min_between (-(1)) 0 _ Hne (drawdowns_bounded _ Hpos)).
    rewrite Hmdd. split; lra.
  - intros Hsorted. rewrite Heq, equity_frame_capital in Hsorted.
    rewrite Hmdd, (PdFacts.min_all_zero _ (drawdowns_sorted _ Hpos Hsorted)). lra.
Qed.

End Reports.

(** * The results on the worked run *)

Section Worked.
Local Open Scope Q_scope.

(** The entry loop, started on a state that holds a position. *)
Lemma single_position_invariant_witness :
  entry_pass Demo.table Demo.always_call 1 Demo.holding = Demo.holding
  /\ entry_pass_trace Demo.table Demo.always_call 1 Demo.holding = [].
Proof.
  apply (proj2 (single_position_invariant Demo.table Demo.start "Momentum"
                  Demo.always_call) 1%Z Demo.holding).
  vm_compute. discriminate.
Defined.

(** The position the demo run holds after its entry loop is closed by a
    ledger row of the same date. *)
Lemma same_day_closure_witness :
  match live_positions Demo.holding with
  | [pos] => exists t, In t Demo.ledger /\ closes Demo.table pos t
  | _ => False
  end.
Proof.
  destruct (live_positions Demo.holding) as [|pos [|pos' l]] eqn:E;
    try (vm_compute in E; discriminate).
  apply (proj1 (proj2 (proj2 (same_day_closure Demo.table Demo.start "Momentum"
                                Demo.always_call))) Demo.holding pos).
  - right. right. left. vm_compute. reflexivity.
  - rewrite E. left. reflexivity.
Defined.

(** Row 0 of the demo ledger. *)
Lemma capital_conservation_witness :
  match Demo.ledger !! 0%nat with
  | Some t => capital_after t = capital_before Demo.start Demo.ledger 0 + profit t
  | None => False
  end.
Proof.
  destruct (Demo.ledger !! 0%nat) as [t|] eqn:E.
  - exact (proj1 (capital_conservation Demo.table Demo.start "Momentum"
                    Demo.always_call) 0%nat t E).
  - vm_compute in E. discriminate.
Defined.

(** The demo ledger has a single winning trade. *)
Lemma profit_factor_without_losses_witness :
  let report :=
    calculate_performance_metrics Demo.start Standin.pow Standin.sqrt Demo.ledger in
  Profit_Factor report == Pd.sum (List.map profit Demo.ledger)
  /\ Win_Rate report == 100
  /\ Losing_Trades report = 0%nat.
Proof.
  apply (proj1 profit_factor_without_losses Demo.start Standin.pow Standin.sqrt
           Demo.ledger).
  - vm_compute. discriminate.
  - vm_compute. repeat constructor.
Defined.

(** C5, as stated, fails: the demo ledger has no losing trade and its
    profit factor is 10000. *)
Lemma profit_factor_not_zero :
  ~ (forall initial_capital float_pow float_sqrt ledger,
        Forall (fun t => 0 < profit t) ledger ->
        Profit_Factor
          (calculate_performance_metrics initial_capital float_pow float_sqrt ledger)
        == 0).
Proof.
  intros H.
  specialize (H Demo.start Standin.pow Standin.sqrt Demo.ledger).
  assert (Hwin : Forall (fun t => 0 < profit t) Demo.ledger)
    by (vm_compute; repeat constructor).
  specialize (H Hwin). vm_compute in H. discriminate.
Qed.

(** The frame of the demo ledger. *)
Lemma equity_curve_per_trade_witness :
  let report :=
    calculate_performance_metrics Demo.start Standin.pow Standin.sqrt Demo.ledger in
  (exists arranged,
      Permutation Demo.ledger arranged
      /\ StronglySorted Z.le (List.map entry_date arranged)
      /\ List.map (fun p => (eq_date p, eq_capital p)) (Equity_Curve report)
         = List.map (fun t => (exit_date t, capital_after t)) arranged)
  /\ length (Equity_Curve report) = length Demo.ledger
  /\ forall p,
      head (Equity_Curve report) = Some p ->
      ~ eq_capital p == 0 -> eq_cumulative p == 1.
Proof.
  apply (proj1 (equity_curve_per_trade Demo.start Standin.pow Standin.sqrt)
           Demo.ledger).
  vm_compute. discriminate.
Defined.

(** C8, as stated, fails: on the two demo ledgers combined the frame has
    two points for date 1, where the per-date series has one. *)
Lemma equity_curve_not_per_date :
  ~ (forall initial_capital float_pow float_sqrt ledger,
        let report :=
          calculate_performance_metrics initial_capital float_pow float_sqrt ledger in
        List.map (fun p => (eq_date p, eq_capital p)) (Equity_Curve report)
        = Pd.groupby_date_capital_last
            (List.map (fun t => (exit_date t, capital_after t))
               (Pd.sort_values_entry_date ledger))
        /\ StronglySorted Z.lt (List.map eq_date (Equity_Curve report))).
Proof.
  intros H.
  destruct (H Demo.start Standin.pow Standin.sqrt Demo.combined) as [Hseries _].
  vm_compute in Hseries. discriminate.
Qed.

(** The demo run: positive capital, prices 100 and 110, one trade. *)
Lemma drawdown_bounded_witness :
  let report :=
    calculate_performance_metrics Demo.start Standin.pow Standin.sqrt Demo.ledger in
  (-(100) <= Maximum_Drawdown report /\ Maximum_Drawdown report <= 0)
  /\ (StronglySorted Qle (List.map eq_capital (Equity_Curve report)) ->
      Maximum_Drawdown report == 0).
Proof.
  apply (drawdown_bounded Demo.table Demo.start "Momentum" Demo.always_call
           Standin.pow Standin.sqrt).
  - reflexivity.
  - repeat constructor; discriminate.
  - vm_compute. discriminate.
Defined.

End Worked.

(** * Further properties of the engine *)

(** ** Invariants of the loop bodies

    A property of states that the four state-changing statement groups
    keep (the counter initialisation, a close, a removal from the live set,
    an entry-loop iteration) holds in every state of a run. *)

Section MemberLoops.
Context {S X : Type}.

Lemma for_trace_invariant_in (P : S -> Prop) (body : S -> X -> S) xs s :
  P s -> (forall s x, In x xs -> P s -> P (body s x)) ->
  Forall P (for_trace body xs s) /\ P (for_loop body xs s).
Proof.
  revert s. induction xs as [|x xs IH]; intros s Hs Hbody.
  - split; [constructor | exact Hs].
  - destruct (IH (body s x)) as [Ht Hf].
    + apply Hbody; [left; reflexivity | exact Hs].
    + intros s' x' Hin. apply Hbody. right. exact Hin.
    + split; [constructor; [apply Hbody; [left; reflexivity | exact Hs] | exact Ht]
             | exact Hf].
Qed.

Lemma for_break_invariant_in (P : S -> Prop) (stop : S -> bool)
    (body : S -> X -> S) xs s :
  P s -> (forall s x, In x xs -> P s -> stop s = false -> P (body s x)) ->
  Forall P (for_break_trace stop body xs s) /\ P (for_break stop body xs s).
Proof.
  revert s. induction xs as [|x xs IH]; intros s Hs Hbody.
  - split; [constructor | exact Hs].
  - cbn [for_break for_break_trace]. destruct (stop s) eqn:Hstop.
    + split; [constructor | exact Hs].
    + assert (Hnext : P (body s x)) by (apply Hbody; [left; reflexivity | auto | auto]).
      destruct (IH (body s x) Hnext) as [Ht Hf].
      * intros s' x' Hin. apply Hbody. right. exact Hin.
      * split; [constructor; assumption | exact Hf].
Qed.
End MemberLoops.

Section StepInvariant.
Variable nifty_data : list Row.
Variable initial_capital : Q.
Variable strategy_name : string.
Variable entry_logic : Z -> Q -> list Row -> option string * bool.

Variable I : State -> Prop.

Hypothesis I_initial : I (initial_state initial_capital).
Hypothesis I_init_today : forall d s, I s -> I (init_today d s).
Hypothesis I_close :
  forall due d s ptc i pos,
    I s -> In pos (live_positions s) ->
    I (fst (close_body nifty_data strategy_name due d (s, ptc) (i, pos))).
Hypothesis I_pop :
  forall s l, I s -> l `sublist_of` live_positions s -> I (set_live s l).
Hypothesis I_entry :
  forall d s idx,
    I s -> In idx (Py.range5 (length (date_rows nifty_data d))) ->
    entry_stop d s = false ->
    I (entry_body nifty_data entry_logic d (date_rows nifty_data d) s idx).

Lemma close_body_live due d acc ip :
  live_positions (fst (close_body nifty_data strategy_name due d acc ip))
  = live_positions (fst acc).
Proof.
  destruct acc as [s ptc], ip as [i pos]. unfold close_body.
  destruct (due d (pos_entry_date pos)); [|reflexivity].
  destruct (get_exit_price_at_close _ _ _ _ _); reflexivity.
Qed.

Lemma pop_sublist {A} (i : nat) (l : list A) : Py.pop i l `sublist_of` l.
Proof.
  revert i. induction l as [|x l IH]; intros i.
  - destruct i; apply sublist_nil.
  - destruct i; cbn; [apply sublist_cons; reflexivity | apply sublist_skip, IH].
Qed.

Lemma pop_body_sublist l i : pop_body l i `sublist_of` l.
Proof.
  unfold pop_body. destruct (i <? length l)%nat; [apply pop_sublist | reflexivity].
Qed.

Lemma close_pass_keeps due d s :
  I s ->
  Forall I (close_pass_trace nifty_data strategy_name due d s)
  /\ I (close_pass nifty_data strategy_name due d s).
Proof.
  intros Hs. unfold close_pass_trace, close_pass, close_loop.
  destruct (for_trace_invariant_in
              (fun acc => I (fst acc) /\ live_positions (fst acc) = live_positions s)
              (close_body nifty_data strategy_name due d)
              (enumerate (live_positions s)) (s, [])) as [Htr Hend].
  { split; [exact Hs | reflexivity]. }
  { intros [s' ptc] [i pos] Hin [Hs' Hlive]. cbn [fst] in *. split.
    - apply I_close; [exact Hs'|]. rewrite Hlive.
      unfold enumerate in Hin. eapply in_combine_r, Hin.
    - rewrite close_body_live. exact Hlive. }
  destruct (for_loop _ _ (s, [])) as [s' ptc] eqn:E. cbn [fst] in Hend.
  destruct Hend as [Hs' Hlive].
  destruct (for_trace_invariant (fun l => l `sublist_of` live_positions s')
              pop_body (Py.sorted_reverse ptc) (live_positions s')) as [Hptr Hpend].
  { reflexivity. }
  { intros l i Hl. etransitivity; [apply pop_body_sublist | exact Hl]. }
  split.
  - apply Forall_app. split.
    + apply List.Forall_map. eapply Forall_impl; [exact Htr|]. cbn. tauto.
    + apply List.Forall_map. eapply Forall_impl; [exact Hptr|]. cbn.
      intros l Hl. apply I_pop; assumption.
  - apply I_pop; assumption.
Qed.

Lemma entry_pass_keeps d s :
  I s ->
  Forall I (entry_pass_trace nifty_data entry_logic d s)
  /\ I (entry_pass nifty_data entry_logic d s).
Proof.
  intros Hs. unfold entry_pass_trace, entry_pass.
  apply for_break_invariant_in; [exact Hs|].
  intros s' idx Hin Hs' Hstop. apply I_entry; assumption.
Qed.

Lemma process_date_keeps d s :
  I s ->
  Forall I (date_trace nifty_data strategy_name entry_logic s d)
  /\ I (process_date nifty_data strategy_name entry_logic s d).
Proof.
  intros Hs. unfold date_trace, process_date.
  pose proof (I_init_today d s Hs) as H0.
  destruct (close_pass_keeps due_on_or_after d _ H0) as [Ht1 H1].
  destruct (entry_pass_keeps d _ H1) as [Ht2 H2].
  destruct (close_pass_keeps due_same_day d _ H2) as [Ht3 H3].
  split; [|exact H3].
  constructor; [exact H0|]. rewrite !Forall_app. auto.
Qed.

Lemma dates_keep dates : forall s,
  I s ->
  Forall I (dates_trace nifty_data strategy_name entry_logic dates s)
  /\ I (for_loop (process_date nifty_data strategy_name entry_logic) dates s).
Proof.
  induction dates as [|d dates IH]; intros s Hs.
  - split; [constructor | exact Hs].
  - destruct (process_date_keeps d s Hs) as [Ht Hd].
    destruct (IH _ Hd) as [Ht' Hend].
    split; [cbn [dates_trace]; apply Forall_app; auto | exact Hend].
Qed.

Lemma step_invariant :
  Forall I (backtest_trace nifty_data initial_capital strategy_name entry_logic)
  /\ I (backtest_run nifty_data initial_capital strategy_name entry_logic).
Proof.
  destruct (dates_keep (unique_dates nifty_data) _ I_initial) as [Ht Hend].
  split; [constructor; [exact I_initial | exact Ht] | exact Hend].
Qed.

End StepInvariant.

(** ** Where a trade comes from *)

Section Provenance.
Variable nifty_data : list Row.
Variable initial_capital : Q.
Variable strategy_name : string.
Variable entry_logic : Z -> Q -> list Row -> option string * bool.

(** An entry on date [d] read off a sampled row: the row is at a multiple
    of 5 among the rows of the date, is not before 09:30, has a positive
    underlying; the contract is the nearest expiry at the strike nearest to
    the underlying; the signal asked for it on the rows up to that row; and
    the contract has the price [p > 0] on that date. *)
Definition sampled_entry (d : Z) (time : string) (u : Q) (exp : Z) (k : Q)
    (ot : string) (p : Q) : Prop :=
  exists idx row kz,
    date_rows nifty_data d !! idx = Some row
    /\ (idx mod 5 = 0)%nat
    /\ before_warmup (Time row) = false
    /\ Time row = time
    /\ UNDERLYING row = Some u /\ (0 < u)%Q
    /\ get_nearest_expiry nifty_data d = Some exp
    /\ get_atm_strike (Some u) = Some kz /\ k = inject_Z kz
    /\ entry_logic d u
         (List.filter (fun r => DateTime r <=? DateTime row) (date_rows nifty_data d))
       = (Some ot, true)
    /\ ot <> EmptyString
    /\ get_option_price nifty_data d exp k ot = Some p
    /\ (0 < p)%Q.

Definition position_sourced (pos : Position) : Prop :=
  sampled_entry (pos_entry_date pos) (pos_entry_time pos) (pos_underlying_at_entry pos)
    (pos_expiry pos) (pos_strike pos) (pos_option_type pos) (pos_entry_price pos).

Definition trade_sourced (t : Trade) : Prop :=
  sampled_entry (entry_date t) (entry_time t) (underlying_at_entry t)
    (expiry t) (strike t) (option_type t) (entry_price t)
  /\ get_exit_price_at_close nifty_data (exit_date t) (expiry t) (strike t)
       (option_type t) = Some (exit_price t)
  /\ exit_time t = "15:00:00"%string
  /\ strategy t = strategy_name
  /\ profit_pct t = ((exit_price t - entry_price t) / entry_price t * 100)%Q.

Definition sourced (s : State) : Prop :=
  Forall position_sourced (live_positions s) /\ Forall trade_sourced (trades s).

Lemma range5_multiple n idx : In idx (Py.range5 n) -> (idx mod 5 = 0)%nat.
Proof.
  unfold Py.range5. rewrite in_map_iff. intros (k & <- & _).
  rewrite Nat.mul_comm. apply Nat.Div0.mod_mul.
Qed.

Lemma truthy_some o : truthy o = true -> exists s, o = Some s /\ s <> EmptyString.
Proof.
  destruct o as [[|c s]|]; try discriminate.
  intros _. exists (String c s). split; [reflexivity | discriminate].
Qed.

Lemma Qlt_bool_true a b : Py.Qlt_bool a b = true -> (a < b)%Q.
Proof.
  unfold Py.Qlt_bool. intros H. apply negb_true_iff in H.
  destruct (Qlt_le_dec a b) as [|Hle]; [assumption|].
  apply Qle_bool_iff in Hle. congruence.
Qed.

Lemma Qle_bool_false a b : Qle_bool a b = false -> (b < a)%Q.
Proof.
  intros H. destruct (Qlt_le_dec b a) as [|Hle]; [assumption|].
  apply Qle_bool_iff in Hle. congruence.
Qed.

Lemma entry_body_sourced d s idx :
  sourced s -> In idx (Py.range5 (length (date_rows nifty_data d))) ->
  sourced (entry_body nifty_data entry_logic d (date_rows nifty_data d) s idx).
Proof.
  intros [Hlive Htrades] Hidx. unfold entry_body.
  destruct (date_rows nifty_data d !! idx) as [row|] eqn:Erow; [|split; assumption].
  destruct (before_warmup (Time row)) eqn:Ewarm; [split; assumption|].
  destruct (UNDERLYING row) as [u|] eqn:Eu; [|split; assumption].
  destruct (Qle_bool u 0) eqn:Epos; [split; assumption|].
  destruct (get_nearest_expiry nifty_data d) as [e|] eqn:Eexp; [|split; assumption].
  destruct (get_atm_strike (Some u)) as [k|] eqn:Ek; [|split; assumption].
  destruct (entry_logic d u _) as [ot se] eqn:Esig.
  destruct (se && truthy ot) eqn:Ego; [|split; assumption].
  apply andb_true_iff in Ego as [-> Hot].
  apply truthy_some in Hot as (o & -> & Hne).
  change (default EmptyString (Some o)) with o.
  unfold bump_checks; cbn [capital trades trades_today live_positions entry_checks].
  destruct (get_option_price nifty_data d e (inject_Z k) o) as [p|] eqn:Hp;
    [|split; assumption].
  destruct (Py.Qlt_bool 0 p) eqn:Hpos; [|split; assumption].
  split; [|exact Htrades]. cbn [live_positions].
  apply Forall_app. split; [exact Hlive|]. constructor; [|constructor].
  exists idx, row, k. cbn.
  repeat split; try assumption; try reflexivity.
  - eapply range5_multiple, Hidx.
  - apply Qle_bool_false, Epos.
  - apply Qlt_bool_true, Hpos.
Qed.

Lemma close_body_sourced due d s ptc i pos :
  sourced s -> In pos (live_positions s) ->
  sourced (fst (close_body nifty_data strategy_name due d (s, ptc) (i, pos))).
Proof.
  intros [Hlive Htrades] Hin. unfold close_body.
  destruct (due d (pos_entry_date pos)); [|split; assumption].
  destruct (get_exit_price_at_close nifty_data d _ _ _) as [x|] eqn:Hx;
    [|split; assumption].
  split; [exact Hlive|]. cbn [fst trades].
  apply Forall_app. split; [exact Htrades|]. constructor; [|constructor].
  rewrite List.Forall_forall in Hlive. specialize (Hlive pos Hin).
  split; [exact Hlive|]. cbn. auto.
Qed.

Lemma sourced_invariant :
  Forall sourced (backtest_trace nifty_data initial_capital strategy_name entry_logic)
  /\ sourced (backtest_run nifty_data initial_capital strategy_name entry_logic).
Proof.
  apply step_invariant.
  - split; constructor.
  - intros d s [Hl Ht]. unfold init_today.
    destruct (trades_today s !! d); split; assumption.
  - intros due d s ptc i pos. apply close_body_sourced.
  - intros s l [Hl Ht] Hsub. split; [|exact Ht]. cbn.
    apply Forall_forall. intros pos Hpos.
    rewrite Forall_forall in Hl. apply Hl. eapply elem_of_sublist; eassumption.
  - intros d s idx Hs Hidx _. apply entry_body_sourced; assumption.
Qed.

End Provenance.

(** ** Sizing, order and bookkeeping of a run *)

(** Each row's [profit] is a tenth of the capital before it, times the
    relative price move; its entry price is positive. *)
Fixpoint sized_chain (prev : Q) (l : list Trade) : Prop :=
  match l with
  | [] => True
  | t :: l' =>
      (0 < entry_price t)%Q
      /\ profit t
         = (prev * (1 # 10) * ((exit_price t - entry_price t) / entry_price t))%Q
      /\ sized_chain (capital_after t) l'
  end.

(** A signal that never asks for an entry the engine would take. *)
Definition never_enters (entry_logic : Z -> Q -> list Row -> option string * bool)
  : Prop :=
  forall d u rows,
    snd (entry_logic d u rows) && truthy (fst (entry_logic d u rows)) = false.

Section RunExtras.
Variable nifty_data : list Row.
Variable initial_capital : Q.
Variable strategy_name : string.
Variable entry_logic : Z -> Q -> list Row -> option string * bool.

Lemma sized_chain_snoc l : forall prev t,
  sized_chain prev l ->
  (0 < entry_price t)%Q ->
  profit t
  = (last_capital prev l * (1 # 10)
     * ((exit_price t - entry_price t) / entry_price t))%Q ->
  sized_chain prev (l ++ [t]).
Proof.
  induction l as [|u l IH]; intros prev t Hc Hp Ht; cbn in *.
  - auto.
  - destruct Hc as (Hu1 & Hu2 & Hc). split; [exact Hu1|]. split; [exact Hu2|].
    apply IH; [exact Hc | exact Hp|]. rewrite Ht. do 2 f_equal.
    unfold last_capital. destruct l as [|v l]; [reflexivity|].
    cbn. destruct (last (v :: l)) eqn:E; [reflexivity|].
    apply last_None in E. discriminate.
Qed.

Lemma sized_chain_lookup l : forall prev i t,
  sized_chain prev l -> l !! i = Some t ->
  (0 < entry_price t)%Q
  /\ profit t
     = (capital_before prev l i * (1 # 10)
        * ((exit_price t - entry_price t) / entry_price t))%Q.
Proof.
  induction l as [|u l IH]; intros prev i t Hc Hi; [discriminate|].
  destruct Hc as (Hu1 & Hu2 & Hc). destruct i as [|i]; cbn in Hi.
  - injection Hi as <-. auto.
  - destruct (IH _ _ _ Hc Hi) as [Hp Ht]. split; [exact Hp|].
    rewrite Ht. do 2 f_equal.
    destruct i as [|i]; [reflexivity|]. cbn.
    destruct (l !! i) eqn:E; [reflexivity|].
    apply lookup_ge_None in E. apply lookup_lt_Some in Hi. lia.
Qed.

Lemma boundary_sized done st :
  Boundary nifty_data initial_capital strategy_name done st ->
  sized_chain initial_capital (trades st).
Proof.
  induction 1 as [|done d st0 ph s Hb IH Hd Hph Hs]; [exact I|].
  pose proof (reachable_capital _ _ _ _ (boundary_reachable _ _ _ _ _ Hb)) as [_ Hcap].
  destruct Hph as [-> | ->]; inversion Hs as [| | |n pos x r Hpos Hx Hr Hin]; subst;
    cbn [trades]; [exact IH|].
  apply sized_chain_snoc; [exact IH | exact (opened_positive _ _ _ _ Hpos)|].
  cbn. unfold pnl_of. rewrite (opened_investment _ _ _ _ Hpos), Hcap. reflexivity.
Qed.

(** Position sizing: in the returned ledger the profit of row [i] is a
    tenth of the capital before that row times the relative move of the
    option price, and every entry price is positive. *)
Theorem position_sizing i t
    (Hrow :
       backtest_strategy nifty_data initial_capital strategy_name entry_logic !! i
       = Some t) :
  (0 < entry_price t)%Q
  /\ profit t
     = (capital_before initial_capital
          (backtest_strategy nifty_data initial_capital strategy_name entry_logic) i
        * (1 # 10) * ((exit_price t - entry_price t) / entry_price t))%Q.
Proof.
  eapply sized_chain_lookup; [|exact Hrow].
  eapply boundary_sized, backtest_run_boundary.
Qed.

Lemma stake_bound (c e x : Q) :
  (0 < c)%Q -> (0 < e)%Q -> (0 <= x)%Q ->
  let k := ((x - e) / e)%Q in
  (-(100) <= k * 100)%Q
  /\ (e <= x -> 0 <= c * (1 # 10) * k /\ c <= c + c * (1 # 10) * k)%Q
  /\ (x <= e -> c * (1 # 10) * k <= 0 /\ c + c * (1 # 10) * k <= c)%Q.
Proof.
  intros Hc He Hx k.
  assert (Hlow : (-(1) <= k)%Q).
  { apply Qle_shift_div_l; [exact He | lra]. }
  assert (Hup : (e <= x -> 0 <= k)%Q).
  { intros H. apply Qle_shift_div_l; [exact He | lra]. }
  assert (Hdown : (x <= e -> k <= 0)%Q).
  { intros H. apply Qle_shift_div_r; [exact He | lra]. }
  split; [lra|]. split; intros H.
  - specialize (Hup H). split; nra.
  - specialize (Hdown H). split; nra.
Qed.

Lemma capital_before_positive l i :
  (0 < initial_capital)%Q -> Forall (fun t => 0 < capital_after t)%Q l ->
  (0 < capital_before initial_capital l i)%Q.
Proof.
  intros Hc Hl. destruct i as [|i]; [exact Hc|]. cbn.
  destruct (l !! i) as [t|] eqn:E; [|exact Hc]. cbn.
  rewrite List.Forall_forall in Hl. apply Hl.
  apply list_elem_of_In, list_elem_of_lookup. eauto.
Qed.

(** A trade loses at most its stake and moves the capital the way the
    price moved: on a table without negative closing prices and from a
    positive initial capital, every row of the ledger has a [profit_pct]
    of at least -100; when the exit price is not below the entry price
    the profit is not negative and the capital does not fall, and when it
    is not above, the profit is not positive and the capital does not
    rise; the capital before and after every row is positive. *)
Theorem loss_bounded_by_stake i t
    (Hcapital : (0 < initial_capital)%Q)
    (Hprices : Forall (fun r => 0 <= Close r)%Q nifty_data)
    (Hrow :
       backtest_strategy nifty_data initial_capital strategy_name entry_logic !! i
       = Some t) :
  let before :=
    capital_before initial_capital
      (backtest_strategy nifty_data initial_capital strategy_name entry_logic) i in
  (0 < before)%Q /\ (0 < capital_after t)%Q
  /\ (-(100) <= profit_pct t)%Q
  /\ (entry_price t <= exit_price t -> 0 <= profit t /\ before <= capital_after t)%Q
  /\ (exit_price t <= entry_price t -> profit t <= 0 /\ capital_after t <= before)%Q.
Proof.
  intros before.
  set (ledger := backtest_strategy nifty_data initial_capital strategy_name
                   entry_logic) in *.
  pose proof (backtest_run_boundary nifty_data initial_capital strategy_name
                entry_logic) as Hb.
  pose proof (boundary_reachable _ _ _ _ _ Hb) as Hr.
  destruct (reachable_capital _ _ _ _ Hr) as [Hchain _].
  pose proof (capital_chain_lookup _ _ _ _ Hchain Hrow) as Hafter.
  destruct (sized_chain_lookup _ _ _ _ (boundary_sized _ _ Hb) Hrow) as [Hentry Hprofit].
  assert (Hin : In t ledger).
  { apply list_elem_of_In, list_elem_of_lookup. eauto. }
  assert (Hok : positive_ok
                  (backtest_run nifty_data initial_capital strategy_name
                     entry_logic)).
  { eapply reachable_positive; [exact Hcapital | | exact Hr].
    apply List.Forall_forall. exact Hprices. }
  assert (Hpos : (0 < before)%Q).
  { apply capital_before_positive; [exact Hcapital | apply Hok]. }
  split; [exact Hpos|].
  split.
  { destruct Hok as [_ Hall]. rewrite List.Forall_forall in Hall. apply Hall, Hin. }
  destruct (sourced_invariant nifty_data initial_capital strategy_name entry_logic)
    as [_ [_ Hsrc]].
  rewrite List.Forall_forall in Hsrc.
  destruct (Hsrc t Hin) as (_ & Hx & _ & _ & Hpct).
  assert (Hexit : (0 <= exit_price t)%Q).
  { assert (Hrows : contract_rows nifty_data (exit_date t) (expiry t) (strike t)
                      (option_type t) <> []).
    { intros Hnil. unfold get_exit_price_at_close in Hx. rewrite Hnil in Hx.
      discriminate. }
    destruct (exit_price_exists nifty_data _ _ _ _ Hrows) as (x & r & Hx' & -> & Hr').
    rewrite Hx in Hx'. injection Hx' as ->.
    rewrite List.Forall_forall in Hprices. apply Hprices, Hr'. }
  fold before in Hafter, Hprofit. rewrite Hafter, Hprofit, Hpct.
  apply stake_bound; assumption.
Qed.

(** The ledger is in date order: entry dates are strictly increasing, each
    is a date of the table, and there are no more trades than dates. *)
Theorem ledger_in_date_order :
  let ledger := backtest_strategy nifty_data initial_capital strategy_name entry_logic in
  StronglySorted Z.lt (List.map entry_date ledger)
  /\ Forall (fun t => In (entry_date t) (List.map Date nifty_data)) ledger
  /\ (length ledger <= length (unique_dates nifty_data))%nat.
Proof.
  intros ledger.
  pose proof (backtest_run_boundary nifty_data initial_capital strategy_name
                entry_logic) as Hb.
  apply boundary_dates in Hb. destruct Hb as (_ & Hsub & _). fold ledger in Hsub.
  split; [|split].
  - eapply sublist_strict; [exact Hsub | apply unique_dates_strict].
  - apply List.Forall_forall. intros t Ht.
    apply list_elem_of_In, PyFacts.unique_elem.
    rewrite (PyFacts.sorted_perm (Py.unique (List.map Date nifty_data))).
    eapply elem_of_sublist; [|exact Hsub].
    apply list_elem_of_In, in_map, Ht.
  - apply sublist_length in Hsub. rewrite length_map in Hsub. exact Hsub.
Qed.

Lemma boundary_counter done st :
  Boundary nifty_data initial_capital strategy_name done st ->
  forall d,
    count_today (trades_today st) d
    = (count_entries d (trades st) + count_exits d (trades st))%nat.
Proof.
  induction 1 as [|done d st0 ph s Hb IH Hd Hph Hs]; intros d'.
  - unfold count_today. cbn. rewrite lookup_empty. reflexivity.
  - pose proof Hb as Hdates. apply boundary_dates in Hdates.
    destruct Hdates as (Hsame & Hsub & _).
    assert (Hfresh : count_entries d (trades st0) = 0%nat
                     /\ count_exits d (trades st0) = 0%nat).
    { rewrite (count_exits_same _ _ Hsame).
      assert (count_entries d (trades st0) = 0%nat); [|auto].
      apply count_entries_absent. intros Hin. apply Hd.
      eapply elem_of_sublist; eassumption. }
    destruct Hfresh as [He Hx].
    unfold count_today in *.
    destruct Hph as [-> | ->]; inversion Hs as [| | |n pos x r Hpos Hxp Hr Hin]; subst;
      cbn [trades trades_today].
    + destruct (decide (d = d')) as [<-|Hne].
      * rewrite lookup_insert_eq. cbn. lia.
      * rewrite lookup_insert_ne by exact Hne. apply IH.
    + rewrite count_entries_app, count_exits_app.
      unfold count_entries at 2, count_exits at 2.
      cbn [List.filter trade_of entry_date exit_date].
      rewrite (opened_date _ _ _ _ Hpos).
      destruct (decide (d = d')) as [<-|Hne].
      * rewrite lookup_insert_eq, Z.eqb_refl. cbn. lia.
      * rewrite lookup_insert_ne by exact Hne.
        destruct (Z.eqb_spec d d'); [contradiction|]. cbn.
        rewrite IH. lia.
Qed.

(** The run ends flat: when [backtest_strategy] returns, no position is
    live, and for every date the counter [trades_today] holds the number of
    ledger rows entered that date plus the number exited that date. *)
Theorem run_ends_flat :
  let final := backtest_run nifty_data initial_capital strategy_name entry_logic in
  live_positions final = []
  /\ forall d,
      count_today (trades_today final) d
      = (count_entries d (trades final) + count_exits d (trades final))%nat.
Proof.
  intros final.
  pose proof (backtest_run_boundary nifty_data initial_capital strategy_name
                entry_logic) as Hb.
  fold final in Hb.
  pose proof Hb as Hidle.
  apply (boundary_idle nifty_data initial_capital strategy_name entry_logic) in Hidle.
  destruct Hidle as [Hlive _].
  split; [exact Hlive | intros d; exact (boundary_counter _ _ Hb d)].
Qed.

Lemma entry_body_declined d rows s idx :
  never_enters entry_logic ->
  live_positions (entry_body nifty_data entry_logic d rows s idx) = live_positions s
  /\ trades (entry_body nifty_data entry_logic d rows s idx) = trades s
  /\ capital (entry_body nifty_data entry_logic d rows s idx) = capital s.
Proof.
  intros Hnever. unfold entry_body.
  destruct (rows !! idx) as [row|]; [|auto].
  destruct (before_warmup (Time row)); [auto|].
  destruct (UNDERLYING row) as [u|]; [|auto].
  destruct (Qle_bool u 0); [auto|].
  destruct (get_nearest_expiry nifty_data d) as [e|]; [|auto].
  destruct (get_atm_strike (Some u)) as [k|]; [|auto].
  specialize (Hnever d u
                (List.filter (fun r => DateTime r <=? DateTime row) rows)).
  destruct (entry_logic d u _) as [ot se]. cbn [fst snd] in Hnever.
  rewrite Hnever. auto.
Qed.

(** No signal, no trade: with a signal that never asks for an entry the
    returned ledger is empty and the capital is the initial capital, in
    every state of the run. *)
Theorem no_signal_no_trade (Hnever : never_enters entry_logic) :
  backtest_strategy nifty_data initial_capital strategy_name entry_logic = []
  /\ Forall (fun s => trades s = [] /\ live_positions s = []
                      /\ capital s = initial_capital)
       (backtest_trace nifty_data initial_capital strategy_name entry_logic).
Proof.
  destruct (step_invariant nifty_data initial_capital strategy_name entry_logic
              (fun s => trades s = [] /\ live_positions s = []
                        /\ capital s = initial_capital)) as [Htr Hend].
  - auto.
  - intros d s Hs. unfold init_today. destruct (trades_today s !! d); exact Hs.
  - intros due d s ptc i pos (_ & Hlive & _) Hin. rewrite Hlive in Hin. contradiction.
  - intros s l (Ht & Hl & Hc) Hsub. rewrite Hl in Hsub.
    apply sublist_nil_r in Hsub. subst l. auto.
  - intros d s idx (Ht & Hl & Hc) _ _.
    destruct (entry_body_declined d (date_rows nifty_data d) s idx Hnever)
      as (-> & -> & ->). auto.
  - split; [apply Hend | exact Htr].
Qed.

End RunExtras.

(** * Further properties of the lookups *)

(** [r] is the first row of [table] that satisfies [p]. *)
Definition first_row_where (p : Row -> bool) (table : list Row) (r : Row) : Prop :=
  exists l1 l2,
    table = l1 ++ r :: l2 /\ p r = true /\ Forall (fun r' => p r' = false) l1.

Section LookupExtras.
Local Open Scope Q_scope.

(** [round] is within a half of its argument, and on a tie the result is
    even. *)
Lemma round_near (x : Q) :
  x - (1 # 2) <= inject_Z (Py.round x) /\ inject_Z (Py.round x) <= x + (1 # 2).
Proof.
  unfold Py.round.
  pose proof (Qfloor_le x) as Hlo. pose proof (Qlt_floor x) as Hhi.
  rewrite inject_Z_plus in Hhi. change (inject_Z 1) with 1 in Hhi.
  destruct (Py.Qlt_bool (x - inject_Z (Qfloor x)) (1 # 2)) eqn:E1.
  - apply Qlt_bool_true in E1. split; lra.
  - destruct (Py.Qlt_bool (1 # 2) (x - inject_Z (Qfloor x))) eqn:E2.
    + apply Qlt_bool_true in E2. rewrite inject_Z_plus.
      change (inject_Z 1) with 1. split; lra.
    + unfold Py.Qlt_bool in E1, E2.
      apply negb_false_iff, Qle_bool_iff in E1.
      apply negb_false_iff, Qle_bool_iff in E2.
      destruct (Z.even (Qfloor x)); [split; lra|].
      rewrite inject_Z_plus. change (inject_Z 1) with 1. split; lra.
Qed.

(** [get_atm_strike] answers [None] exactly for a missing or non-positive
    price; otherwise the strike is a multiple of 50 at most 25 away from
    the price. *)
Theorem atm_strike_nearest_fifty :
  (forall u,
      get_atm_strike u = None <-> u = None \/ exists p, u = Some p /\ p <= 0)
  /\ forall p k,
      get_atm_strike (Some p) = Some k ->
      0 < p
      /\ (k mod 50 = 0)%Z
      /\ p - 25 <= inject_Z k /\ inject_Z k <= p + 25.
Proof.
  split.
  - intros [p|]; cbn.
    + destruct (Qle_bool p 0) eqn:E; split.
      * intros _. right. exists p. apply Qle_bool_iff in E. auto.
      * reflexivity.
      * discriminate.
      * intros [H | (q & [= <-] & Hq)]; [discriminate|].
        apply Qle_bool_iff in Hq. congruence.
    + split; [auto | reflexivity].
  - intros p k. cbn. destruct (Qle_bool p 0) eqn:E; [discriminate|].
    intros [= <-]. apply Qle_bool_false in E.
    split; [exact E|]. split; [apply Z.mod_mul; discriminate|].
    destruct (round_near (p / 50)) as [Hlo Hhi].
    rewrite inject_Z_mult. change (inject_Z 50) with 50.
    assert (Hp : p / 50 * 50 == p) by (field).
    split; nra.
Qed.

End LookupExtras.

Section PriceExtras.
Variable nifty_data : list Row.

Lemma head_filter_split {A} (p : A -> bool) (l : list A) (r : A) :
  head (List.filter p l) = Some r <->
  exists l1 l2, l = l1 ++ r :: l2 /\ p r = true /\ Forall (fun x => p x = false) l1.
Proof.
  split.
  - induction l as [|a l IH]; cbn; [discriminate|].
    destruct (p a) eqn:E.
    + cbn. intros [= ->]. exists [], l. repeat split; [exact E | constructor].
    + intros H. destruct (IH H) as (l1 & l2 & -> & Hr & Hl1).
      exists (a :: l1), l2. repeat split; [exact Hr | constructor; assumption].
  - intros (l1 & l2 & -> & Hr & Hl1).
    rewrite List.filter_app. apply filter_none in Hl1. rewrite Hl1. cbn.
    rewrite Hr. reflexivity.
Qed.

Lemma option_price_none date expiry strike option_type :
  get_option_price nifty_data date expiry strike option_type = None
  <-> Forall (fun r => contract_match date expiry strike option_type r = false)
        nifty_data.
Proof.
  unfold get_option_price. rewrite contract_rows_mask, filter_none.
  destruct (List.filter _ nifty_data); split; congruence || discriminate.
Qed.

(** [get_option_price] answers [None] exactly when no row of the table
    matches the contract on that date, and otherwise the [Close] of the
    first matching row in table order. *)
Theorem option_price_first_row date expiry strike option_type :
  let m := contract_match date expiry strike option_type in
  let price := get_option_price nifty_data date expiry strike option_type in
  (price = None <-> Forall (fun r => m r = false) nifty_data)
  /\ forall x,
      price = Some x <-> exists r, first_row_where m nifty_data r /\ x = Close r.
Proof.
  cbn zeta. unfold get_option_price, first_row_where.
  rewrite contract_rows_mask.
  set (m := contract_match date expiry strike option_type).
  split.
  - rewrite filter_none. destruct (List.filter m nifty_data); split;
      congruence || discriminate.
  - intros x. split.
    + destruct (List.filter m nifty_data) as [|r rows] eqn:E; [discriminate|].
      intros [= <-]. exists r. split; [|reflexivity].
      apply head_filter_split. rewrite E. reflexivity.
    + intros (r & Hr & ->). apply head_filter_split in Hr.
      destruct (List.filter m nifty_data); [discriminate|].
      cbn in Hr. injection Hr as ->. reflexivity.
Qed.

(** A contract has an entry price on a date exactly when it has an exit
    price on that date: the engine can value at the close whatever it could
    buy. *)
Theorem entry_and_exit_price_together date expiry strike option_type :
  get_option_price nifty_data date expiry strike option_type = None
  <-> get_exit_price_at_close nifty_data date expiry strike option_type = None.
Proof.
  rewrite exit_price_none. apply option_price_none.
Qed.

End PriceExtras.

(** ** The nearest expiry *)

(** The [DTE] that [groupby('Expiry')['DTE'].first()] records for an
    expiry: that of its first row. *)
Definition first_dte (date_data : list Row) (e : Z) : option Q :=
  DTE <$> List.find (fun r => Expiry r =? e) date_data.

Section ExpiryExtras.
Variable nifty_data : list Row.
Local Open Scope Q_scope.

Definition keep_smaller (best y : Z * Q) : Z * Q :=
  if Py.Qlt_bool (snd y) (snd best) then y else best.

(** The fold of [idxmin] stops on the first smallest value. *)
Lemma first_minimum s : forall x,
  exists l1 l2,
    x :: s = l1 ++ fold_left keep_smaller s x :: l2
    /\ Forall (fun y => snd (fold_left keep_smaller s x) < snd y) l1
    /\ Forall (fun y => snd (fold_left keep_smaller s x) <= snd y) l2.
Proof.
  induction s as [|y s IH]; intros x.
  - exists [], []. repeat split; constructor.
  - cbn [fold_left]. unfold keep_smaller at 2 4 6.
    destruct (Py.Qlt_bool (snd y) (snd x)) eqn:E.
    + apply Qlt_bool_true in E.
      destruct (IH y) as (l1 & l2 & Heq & H1 & H2).
      set (b := fold_left keep_smaller s y) in *. clearbody b.
      exists (x :: l1), l2. rewrite Heq. repeat split; [|exact H2].
      constructor; [|exact H1].
      destruct l1 as [|z l1]; cbn in Heq; injection Heq as Hz _.
      * rewrite <- Hz. exact E.
      * subst z. inversion H1; subst. lra.
    + unfold Py.Qlt_bool in E. apply negb_false_iff, Qle_bool_iff in E.
      destruct (IH x) as (l1 & l2 & Heq & H1 & H2).
      set (b := fold_left keep_smaller s x) in *. clearbody b.
      destruct l1 as [|z l1]; cbn in Heq; injection Heq as Hz Hs.
      * subst b s. exists [], (y :: l2). repeat split; [constructor|].
        constructor; [exact E | exact H2].
      * subst z. exists (x :: y :: l1), l2. rewrite Hs.
        repeat split; [|exact H2].
        inversion H1; subst. constructor; [assumption|].
        constructor; [lra | assumption].
Qed.

Lemma groupby_expiry_keys date_data keys :
  Forall (fun e => In e (List.map Expiry date_data)) keys ->
  List.map fst
    (flat_map
       (fun e => match List.find (fun r => Expiry r =? e)%Z date_data with
                 | Some r => [(e, DTE r)]
                 | None => []
                 end) keys)
  = keys.
Proof.
  induction 1 as [|e keys He Hk IH]; [reflexivity|].
  cbn [flat_map]. rewrite List.map_app, IH.
  destruct (List.find _ date_data) as [r|] eqn:E; [reflexivity|].
  exfalso. apply in_map_iff in He as (r & Hr & Hin).
  apply (List.find_none _ _ E) in Hin. rewrite Hr, Z.eqb_refl in Hin. discriminate.
Qed.

Lemma groupby_expiry_values date_data e d :
  In (e, d) (groupby_Expiry_DTE_first date_data) -> first_dte date_data e = Some d.
Proof.
  unfold groupby_Expiry_DTE_first, first_dte. rewrite in_flat_map.
  intros (e' & _ & Hin).
  destruct (List.find (fun r => Expiry r =? e')%Z date_data) as [r|] eqn:E;
    [|contradiction].
  destruct Hin as [[= <- <-] | []]. rewrite E. reflexivity.
Qed.

Lemma sorted_after {A} (R : A -> A -> Prop) l1 b l2 :
  StronglySorted R (l1 ++ b :: l2) -> Forall (R b) l2.
Proof.
  induction l1 as [|a l1 IH]; cbn; intros H; inversion H; subst; auto.
Qed.

Lemma expiry_keys date_data :
  List.map fst (groupby_Expiry_DTE_first date_data)
  = Py.sorted (Py.unique (List.map Expiry date_data)).
Proof.
  apply groupby_expiry_keys. apply List.Forall_forall. intros e He.
  apply (Permutation_in _ (Permutation_sym (PyFacts.sorted_perm _))) in He.
  apply list_elem_of_In, PyFacts.unique_elem, list_elem_of_In, He.
Qed.

(** [get_nearest_expiry] answers [None] exactly when the table has no row
    on that date.  Otherwise it names an expiry quoted that date whose
    first-listed [DTE] is smallest among the expiries quoted that date, and
    among equally near expiries the earliest one. *)
Theorem nearest_expiry_is_nearest current_date :
  let date_data := date_rows nifty_data current_date in
  (get_nearest_expiry nifty_data current_date = None <-> date_data = [])
  /\ forall e,
      get_nearest_expiry nifty_data current_date = Some e ->
      (exists r, In r date_data /\ Expiry r = e)
      /\ forall r,
          In r date_data ->
          exists de dr,
            first_dte date_data e = Some de
            /\ first_dte date_data (Expiry r) = Some dr
            /\ de <= dr
            /\ (dr == de -> (e <= Expiry r)%Z).
Proof.
  intros date_data. unfold get_nearest_expiry. fold (date_rows nifty_data current_date).
  fold date_data.
  pose proof (expiry_keys date_data) as Hkeys.
  assert (Hmem : forall r, In r date_data ->
                 In (Expiry r) (List.map fst (groupby_Expiry_DTE_first date_data))).
  { intros r Hr. rewrite Hkeys.
    apply (Permutation_in _ (PyFacts.sorted_perm _)).
    apply list_elem_of_In, PyFacts.unique_elem, list_elem_of_In, in_map, Hr. }
  destruct date_data as [|r0 rows] eqn:Edata.
  { cbn. split; [tauto | discriminate]. }
  rewrite <- Edata in *. assert (Hlen : (length date_data =? 0)%nat = false)
    by (rewrite Edata; reflexivity).
  rewrite Hlen.
  destruct (groupby_Expiry_DTE_first date_data) as [|x s] eqn:EG.
  { exfalso. apply (Hmem r0). rewrite Edata. left. reflexivity. }
  cbn [length Nat.eqb idxmin].
  split; [split; [discriminate | rewrite Edata; discriminate]|].
  intros e [= <-].
  fold keep_smaller.
  destruct (first_minimum s x) as (l1 & l2 & Heq & H1 & H2).
  set (b := fold_left keep_smaller s x) in *.
  assert (Hb : In b (groupby_Expiry_DTE_first date_data)).
  { rewrite EG, Heq. apply in_elt. }
  assert (Hbv : first_dte date_data (fst b) = Some (snd b)).
  { apply groupby_expiry_values. destruct b; exact Hb. }
  split.
  - unfold first_dte in Hbv.
    destruct (List.find (fun r => Expiry r =? fst b)%Z date_data) as [r|] eqn:E;
      [|discriminate].
    apply List.find_some in E as [Hin Hr]. exists r.
    split; [exact Hin | apply Z.eqb_eq, Hr].
  - intros r Hr. specialize (Hmem r Hr).
    apply in_map_iff in Hmem as ([er dr] & Her & Hin). cbn in Her. subst er.
    assert (Hrv : first_dte date_data (Expiry r) = Some dr).
    { apply groupby_expiry_values. rewrite EG. exact Hin. }
    exists (snd b), dr. split; [exact Hbv|]. split; [exact Hrv|].
    assert (Hsorted : StronglySorted Z.lt (List.map fst (l1 ++ b :: l2))).
    { rewrite <- Heq, Hkeys. apply PyFacts.sorted_unique_strict. }
    rewrite List.map_app in Hsorted. cbn [List.map] in Hsorted.
    apply sorted_after in Hsorted.
    rewrite Heq in Hin. apply in_app_or in Hin as [Hin | [Hin | Hin]].
    + rewrite List.Forall_forall in H1. specialize (H1 _ Hin). cbn in H1.
      split; [lra | intros Htie; lra].
    + rewrite Hin. cbn. split; [lra | intros _; lia].
    + rewrite List.Forall_forall in H2. specialize (H2 _ Hin). cbn in H2.
      split; [exact H2|]. intros _.
      rewrite List.Forall_forall in Hsorted.
      specialize (Hsorted (Expiry r)). cbn in Hsorted.
      assert (fst b < Expiry r)%Z; [|lia].
      apply Hsorted. change (Expiry r) with (fst (Expiry r, dr)).
      apply in_map, Hin.
Qed.

End ExpiryExtras.

(** * Floating-point rounding

    A strategy decides by comparing a quote with a product of floats, so
    the rounding of that product can decide the signal.  [Float.rnd] is
    the rounding of binary64 arithmetic, to the nearest double with ties
    to the even mantissa, on the normal range (magnitudes from 2^-1022 up
    to 2^1024), where every price and every threshold lies. *)

Module Float.
Local Open Scope Q_scope.

(** [floor (log2 a)] for [a > 0]. *)
Definition floor_log2 (a : Q) : Z :=
  let k := (Z.log2 (Qnum a) - Z.log2 (Zpos (Qden a)))%Z in
  if Qle_bool (2 ^ k) a then k else (k - 1)%Z.

(** The double nearest to [a > 0]: a 53-bit mantissa times a power of 2. *)
Definition nearest (a : Q) : Q :=
  let ulp := 2 ^ (floor_log2 a - 52) in
  inject_Z (Py.round (a / ulp)) * ulp.

Definition rnd (x : Q) : Q :=
  if Qeq_bool x 0 then 0
  else if Qle_bool 0 x then nearest x else - nearest (- x).

(** A decimal literal of the source, and the arithmetic of floats. *)
Definition lit (q : Q) : Q := rnd q.
Definition mul (a b : Q) : Q := rnd (a * b).
Definition sub (a b : Q) : Q := rnd (a - b).
Definition div (a b : Q) : Q := rnd (a / b).

(** The unit roundoff 2^-53. *)
Definition u : Q := 1 # 9007199254740992.


End Float.

Section FloatFacts.
Local Open Scope Q_scope.










End FloatFacts.

(** ** The moving average of the underlying *)

Module Series.

(** [Series.tail(n)] and [Series.head(n)]; a negative [n] drops from the
    other end. *)
Definition tail {A} (n : Z) (l : list A) : list A :=
  if n =? 0 then []
  else if 0 <? n then drop (length l - Z.to_nat n) l
  else drop (Z.to_nat (- n)) l.

Definition head {A} (n : Z) (l : list A) : list A :=
  if 0 <=? n then take (Z.to_nat n) l
  else take (length l - Z.to_nat (- n)) l.

(** [Series.mean()]: the mean of the values present, [NaN] without any.
    pandas adds the floats up in an order that depends on its build and on
    the length of the series, so the mean of a non-empty list of floats is
    a parameter, [float_mean]. *)
Definition mean (float_mean : list Q -> Q) (l : list (option Q)) : option Q :=
  let present := Pd.dropna l in
  if (length present =? 0)%nat then None else Some (float_mean present).

(** [groupby('Date')['UNDERLYING'].first()]: dates ascending, each with
    the first underlying present among its rows. *)
Definition groupby_Date_UNDERLYING_first (rows : list Row) : list (Z * option Q) :=
  List.map
    (fun d =>
       (d, mjoin (UNDERLYING <$>
                    List.find (fun r => (Date r =? d) && bool_decide (is_Some (UNDERLYING r)))
                      rows)))
    (Py.sorted (Py.unique (List.map Date rows))).

End Series.

Section MovingAverage.
Variable nifty_data : list Row.
Variable float_mean : list Q -> Q.

(** [None] is Python's [None]; [Some None] is [NaN]. *)
Definition calculate_moving_average (current_date : Z) (window : Z)
  : option (option Q) :=
  let historical := List.filter (fun r => Date r <? current_date) nifty_data in
  if (length historical =? 0)%nat then None
  else
    let daily_data := List.map snd (Series.groupby_Date_UNDERLYING_first historical) in
    if Z.of_nat (length daily_data) <? window then
      if (length daily_data =? 0)%nat then None
      else Some (Series.mean float_mean daily_data)
    else Some (Series.mean float_mean (Series.tail window daily_data)).

End MovingAverage.

Section MovingAverageFacts.
Variable nifty_data : list Row.
Variable float_mean : list Q -> Q.
Local Open Scope Q_scope.

Lemma dropna_In (l : list (option Q)) x : In x (Pd.dropna l) <-> In (Some x) l.
Proof.
  unfold Pd.dropna. rewrite <- !list_elem_of_In, list_elem_of_omap. split.
  - intros ([y|] & Hy & Hx); cbn in Hx; [|discriminate]. congruence.
  - intros H. exists (Some x). auto.
Qed.

Lemma dropna_length (l : list (option Q)) : (length (Pd.dropna l) <= length l)%nat.
Proof.
  induction l as [|[x|] l IH]; cbn; [lia | |]; unfold Pd.dropna in IH; cbn; lia.
Qed.

(** What [Series.mean] averages. *)
Lemma series_mean_quotes l v :
  Series.mean float_mean l = Some v ->
  Pd.dropna l <> [] /\ v = float_mean (Pd.dropna l).
Proof.
  unfold Series.mean.
  destruct (Pd.dropna l) as [|x xs]; [discriminate|].
  cbn [length Nat.eqb]. intros [= <-]. split; [discriminate | reflexivity].
Qed.

Lemma tail_In {A} n (l : list A) x : In x (Series.tail n l) -> In x l.
Proof.
  unfold Series.tail. destruct (n =? 0)%Z; [contradiction|].
  destruct (0 <? n)%Z; intros H; apply list_elem_of_In in H;
    apply list_elem_of_In; (eapply elem_of_sublist; [exact H | apply sublist_drop]).
Qed.

Lemma tail_length {A} n (l : list A) :
  (0 < n)%Z -> (Z.of_nat (length (Series.tail n l)) <= n)%Z.
Proof.
  intros Hn. unfold Series.tail.
  destruct (Z.eqb_spec n 0); [lia|].
  destruct (Z.ltb_spec 0 n); [|lia].
  rewrite length_drop. lia.
Qed.

(** Every value of the daily series is the underlying of a row. *)
Lemma daily_value_row rows u :
  In (Some u) (List.map snd (Series.groupby_Date_UNDERLYING_first rows)) ->
  exists r, In r rows /\ UNDERLYING r = Some u.
Proof.
  unfold Series.groupby_Date_UNDERLYING_first. rewrite List.map_map. cbn [snd].
  rewrite in_map_iff. intros (d & Hd & _).
  destruct (List.find _ rows) as [r|] eqn:E; [|discriminate].
  apply List.find_some in E as [Hin _]. exists r. split; [exact Hin | exact Hd].
Qed.

(** [calculate_moving_average] answers [None] exactly when the table has
    no row before the current date.  A number it answers is the float mean
    of a non-empty list of underlyings, each quoted by a row dated before
    the current date, and of at most [window] of them when the window is
    positive.  Its answer depends on the rows dated before the current
    date only: a table with the same earlier rows gets the same answer. *)
Theorem moving_average_from_history current_date window :
  (calculate_moving_average nifty_data float_mean current_date window = None
   <-> Forall (fun r => (Date r <? current_date)%Z = false) nifty_data)
  /\ (forall v,
        calculate_moving_average nifty_data float_mean current_date window
        = Some (Some v) ->
        exists quotes,
          quotes <> [] /\ v = float_mean quotes
          /\ Forall (fun u => exists r,
                         In r nifty_data /\ (Date r < current_date)%Z
                         /\ UNDERLYING r = Some u) quotes
          /\ ((0 < window)%Z -> (Z.of_nat (length quotes) <= window)%Z))
  /\ forall table,
      List.filter (fun r => (Date r <? current_date)%Z) table
      = List.filter (fun r => (Date r <? current_date)%Z) nifty_data ->
      calculate_moving_average table float_mean current_date window
      = calculate_moving_average nifty_data float_mean current_date window.
Proof.
  split; [|split].
  - unfold calculate_moving_average.
    set (historical := List.filter (fun r => (Date r <? current_date)%Z) nifty_data).
    set (daily := List.map snd (Series.groupby_Date_UNDERLYING_first historical)).
    assert (Hdaily : historical <> [] -> daily <> []).
    { intros Hne Hnil. apply (f_equal (@length _)) in Hnil.
      unfold daily, Series.groupby_Date_UNDERLYING_first in Hnil.
      rewrite !length_map in Hnil. cbn in Hnil.
      apply length_zero_iff_nil in Hnil.
      destruct historical as [|r rows]; [contradiction|].
      assert (Hin : In (Date r) (Py.sorted (Py.unique (List.map Date (r :: rows))))).
      { apply (Permutation_in _ (PyFacts.sorted_perm _)).
        apply list_elem_of_In, PyFacts.unique_elem. left. }
      rewrite Hnil in Hin. contradiction. }
    rewrite filter_none. fold historical.
    destruct historical as [|r rows] eqn:E; [cbn; tauto|].
    cbn [length Nat.eqb]. split; [|discriminate].
    specialize (Hdaily ltac:(discriminate)).
    destruct (Z.of_nat (length daily) <? window)%Z; [|discriminate].
    destruct daily; [contradiction | discriminate].
  - intros v. unfold calculate_moving_average.
    set (historical := List.filter (fun r => (Date r <? current_date)%Z) nifty_data).
    set (daily := List.map snd (Series.groupby_Date_UNDERLYING_first historical)).
    assert (Hvals : forall l,
               (forall x, In x l -> In x daily) ->
               Forall (fun u => exists r,
                           In r nifty_data /\ (Date r < current_date)%Z
                           /\ UNDERLYING r = Some u) (Pd.dropna l)).
    { intros l Hl. apply List.Forall_forall. intros x Hx.
      apply dropna_In, Hl, daily_value_row in Hx as (r & Hr & Hu).
      apply filter_In in Hr as [Hin Hbefore].
      exists r. split; [exact Hin|]. split; [apply Z.ltb_lt, Hbefore | exact Hu]. }
    destruct (length historical =? 0)%nat; [discriminate|].
    destruct (Z.ltb_spec (Z.of_nat (length daily)) window) as [Hshort | Hlong].
    + destruct (length daily =? 0)%nat; [discriminate|].
      intros [= H]. apply series_mean_quotes in H as [Hne ->].
      exists (Pd.dropna daily). split; [exact Hne|]. split; [reflexivity|].
      split; [apply Hvals; auto|].
      intros _. pose proof (dropna_length daily). lia.
    + intros [= H]. apply series_mean_quotes in H as [Hne ->].
      exists (Pd.dropna (Series.tail window daily)).
      split; [exact Hne|]. split; [reflexivity|].
      split; [apply Hvals; intros x; apply tail_In|].
      intros Hw. pose proof (dropna_length (Series.tail window daily)).
      pose proof (tail_length window daily Hw). lia.
  - intros table Hsame. unfold calculate_moving_average. rewrite Hsame. reflexivity.
Qed.

End MovingAverageFacts.

(** * Further properties of the report *)

Section ReportExtras.
Local Open Scope Q_scope.
Variable initial_capital : Q.
Variable float_pow : Q -> Q -> Q.
Variable float_sqrt : Q -> Q.

Definition results_of (trades_df : list Trade) : list Z :=
  List.map (fun t => if Py.Qlt_bool 0 (profit t) then 1%Z else (-1)%Z) trades_df.

Lemma report_counts ledger :
  ledger <> [] ->
  let sorted := Pd.sort_values_entry_date ledger in
  let returns := Pd.dropna (List.map eq_returns (equity_frame sorted)) in
  Winning_Trades
    (calculate_performance_metrics initial_capital float_pow float_sqrt ledger)
  = length (List.filter (fun t => Py.Qlt_bool 0 (profit t)) sorted)
  /\ (Max_Consecutive_Wins
         (calculate_performance_metrics initial_capital float_pow float_sqrt ledger),
       Max_Consecutive_Losses
         (calculate_performance_metrics initial_capital float_pow float_sqrt ledger))
     = (let '(w, l, _, _) :=
          for_loop streak_body (results_of sorted) (0, 0, 0, 0)%nat in (w, l))
  /\ Sharpe_Ratio
       (calculate_performance_metrics initial_capital float_pow float_sqrt ledger)
     = match std float_sqrt returns with
       | Some s =>
           if (0 <? length returns)%nat && Py.Qlt_bool 0 s
           then float_sqrt 252 * Pd.mean returns / s
           else 0
       | None => 0
       end.
Proof.
  intros Hne. destruct ledger as [|t l]; [contradiction|].
  unfold calculate_performance_metrics, results_of. cbn [length Nat.eqb].
  destruct (for_loop streak_body _ _) as [[[mw ml] cw] cl].
  cbn. repeat split; reflexivity.
Qed.



Lemma of_len_le {A B} (l : list A) (k : list B) :
  (length l <= length k)%nat -> Pd.of_len l <= Pd.of_len k.
Proof. intros H. unfold Pd.of_len. rewrite <- Zle_Qle. lia. Qed.

Lemma of_len_nonneg {A} (l : list A) : 0 <= Pd.of_len l.
Proof. unfold Pd.of_len. change 0 with (inject_Z 0). rewrite <- Zle_Qle. lia. Qed.

(** The win rate is a percentage. *)
Theorem win_rate_is_percentage ledger :
  let report :=
    calculate_performance_metrics initial_capital float_pow float_sqrt ledger in
  0 <= Win_Rate report /\ Win_Rate report <= 100.
Proof.
  cbn zeta.
  destruct (decide (ledger = [])) as [-> | Hne]; [cbn; split; lra|].
  destruct (report_fields initial_capital float_pow float_sqrt ledger Hne)
    as (_ & _ & Hwr & _).
  cbn zeta in Hwr. rewrite Hwr.
  set (sorted := Pd.sort_values_entry_date ledger).
  set (winning := List.filter (fun t => Py.Qlt_bool 0 (profit t)) sorted).
  assert (Hs : sorted <> []) by apply PdFacts.sort_nonempty, Hne.
  assert (Hlen : (0 <? length sorted)%nat = true)
    by (destruct sorted; [contradiction | reflexivity]).
  rewrite Hlen.
  pose proof (of_len_positive sorted Hs) as Hpos.
  pose proof (of_len_nonneg winning) as Hw0.
  assert (Hw1 : Pd.of_len winning <= Pd.of_len sorted).
  { apply of_len_le. unfold winning. apply List.filter_length_le. }
  assert (Hq : 0 <= Pd.of_len winning / Pd.of_len sorted
               /\ Pd.of_len winning / Pd.of_len sorted <= 1).
  { split; [apply Qle_shift_div_l | apply Qle_shift_div_r]; lra. }
  split; lra.
Qed.

Lemma sum_positive (l : list Q) : Forall (fun x => 0 < x) l -> 0 <= Pd.sum l.
Proof.
  induction 1 as [|x l Hx Hl IH]; [change (Pd.sum []) with 0; lra|].
  rewrite PdFacts.sum_cons. lra.
Qed.

(** The profit factor is never negative. *)
Theorem profit_factor_nonnegative ledger :
  0 <= Profit_Factor
         (calculate_performance_metrics initial_capital float_pow float_sqrt ledger).
Proof.
  destruct (decide (ledger = [])) as [-> | Hne]; [cbn; lra|].
  destruct (report_fields initial_capital float_pow float_sqrt ledger Hne)
    as (_ & _ & _ & Hpf & _).
  cbn zeta in Hpf. rewrite Hpf. clear Hpf.
  set (winning := List.filter (fun t => Py.Qlt_bool 0 (profit t))
                    (Pd.sort_values_entry_date ledger)).
  set (total_loss := if (0 <? length (List.filter (fun t => Qle_bool (profit t) 0) _))%nat
                     then _ else 1).
  assert (Hprofit : 0 <= (if (0 <? length winning)%nat
                          then Pd.sum (List.map profit winning) else 0)).
  { destruct (0 <? length winning)%nat; [|lra].
    apply sum_positive, List.Forall_map, List.Forall_forall.
    intros t Ht. apply filter_In in Ht as [_ Ht]. apply Qlt_bool_true, Ht. }
  destruct (Py.Qlt_bool 0 total_loss) eqn:E; [|lra].
  apply Qlt_bool_true in E. apply Qle_shift_div_l; [exact E | lra].
Qed.

(** The streak scan: the maxima never decrease, stay within the number of
    wins and of losses seen, and are positive once a win or a loss was
    seen. *)
Lemma streak_scan rs : forall mw ml cw cl W L,
  (cw <= mw)%nat -> (mw <= W)%nat -> (cl <= ml)%nat -> (ml <= L)%nat ->
  let '(mw', ml', _, _) := for_loop streak_body rs (mw, ml, cw, cl) in
  let wins := length (List.filter (fun r => r =? 1)%Z rs) in
  let losses := length (List.filter (fun r => negb (r =? 1)%Z) rs) in
  (mw <= mw')%nat /\ (mw' <= W + wins)%nat /\ (0 < wins -> 0 < mw')%nat
  /\ (ml <= ml')%nat /\ (ml' <= L + losses)%nat /\ (0 < losses -> 0 < ml')%nat.
Proof.
  induction rs as [|r rs IH]; intros mw ml cw cl W L H1 H2 H3 H4.
  - cbn. lia.
  - unfold for_loop in *. cbn [fold_left List.filter].
    unfold streak_body at 2. destruct (r =? 1)%Z; cbn [negb length].
    + specialize (IH (Nat.max mw (S cw)) ml (S cw) 0%nat (S W) L).
      destruct (fold_left streak_body rs _) as [[[mw' ml'] cw'] cl'].
      cbn beta iota zeta in *. cbn [length] in *. lia.
    + specialize (IH mw (Nat.max ml (S cl)) 0%nat (S cl) W (S L)).
      destruct (fold_left streak_body rs _) as [[[mw' ml'] cw'] cl'].
      cbn beta iota zeta in *. cbn [length] in *. lia.
Qed.

Lemma results_wins ts :
  length (List.filter (fun r => r =? 1)%Z (results_of ts))
  = length (List.filter (fun t => Py.Qlt_bool 0 (profit t)) ts)
  /\ length (List.filter (fun r => negb (r =? 1)%Z) (results_of ts))
     = length (List.filter (fun t => Qle_bool (profit t) 0) ts).
Proof.
  unfold results_of, Py.Qlt_bool.
  induction ts as [|t ts [IH1 IH2]]; [split; reflexivity|].
  cbn [List.map List.filter].
  destruct (Qle_bool (profit t) 0); cbn [negb Z.eqb Pos.eqb length]; split; lia.
Qed.

(** The longest winning streak is at most the number of winning trades and
    is 0 only without one; likewise for losses. *)
Theorem streaks_within_counts ledger :
  let report :=
    calculate_performance_metrics initial_capital float_pow float_sqrt ledger in
  (Max_Consecutive_Wins report <= Winning_Trades report)%nat
  /\ (Max_Consecutive_Losses report <= Losing_Trades report)%nat
  /\ (Max_Consecutive_Wins report = 0%nat <-> Winning_Trades report = 0%nat)
  /\ (Max_Consecutive_Losses report = 0%nat <-> Losing_Trades report = 0%nat).
Proof.
  intros report. destruct (decide (ledger = [])) as [Hnil | Hne].
  { subst report. rewrite Hnil. cbn. lia. }
  destruct (report_fields initial_capital float_pow float_sqrt ledger Hne)
    as (_ & _ & _ & _ & _ & _ & Hlosing).
  destruct (report_counts ledger Hne) as (Hwinning & Hstreak & _).
  cbn zeta in *. fold report in Hlosing, Hwinning, Hstreak.
  set (sorted := Pd.sort_values_entry_date ledger) in *.
  pose proof (streak_scan (results_of sorted) 0 0 0 0 0 0) as Hscan.
  destruct (results_wins sorted) as [Hw Hl].
  destruct (for_loop streak_body (results_of sorted) (0, 0, 0, 0)%nat)
    as [[[mw ml] cw] cl].
  injection Hstreak as -> ->. cbn zeta in Hscan.
  rewrite Hw, Hl, <- Hwinning, <- Hlosing in Hscan.
  specialize (Hscan ltac:(lia) ltac:(lia) ltac:(lia) ltac:(lia)). lia.
Qed.

End ReportExtras.

Section ReportExtras2.
Local Open Scope Q_scope.
Variable initial_capital : Q.
Variable float_pow : Q -> Q -> Q.
Variable float_sqrt : Q -> Q.

Local Ltac equal_lengths :=
  rewrite ?length_combine, ?length_map, ?PdFacts.expanding_max_length,
    ?PdFacts.pct_change_length, ?length_combine, ?length_map,
    ?PdFacts.expanding_max_length, ?length_map; lia.

Lemma equity_frame_returns l :
  List.map eq_returns (equity_frame l) = Pd.pct_change (List.map capital_after l).
Proof.
  unfold equity_frame. rewrite List.map_map.
  erewrite List.map_ext with
    (g := fun x =>
            (fun y => (fun z => (fun w => (fun v => snd v) (snd w)) (snd z)) (snd y))
              (snd x));
    [|intros (d & c & cu & rm & dd & r); reflexivity].
  rewrite (map_combine_snd
             (fun y => (fun z => (fun w => (fun v => snd v) (snd w)) (snd z)) (snd y)))
    by equal_lengths.
  rewrite (map_combine_snd (fun z => (fun w => (fun v => snd v) (snd w)) (snd z)))
    by equal_lengths.
  rewrite (map_combine_snd (fun w => (fun v => snd v) (snd w))) by equal_lengths.
  rewrite (map_combine_snd (fun v => snd v)) by equal_lengths.
  rewrite (map_combine_snd (fun r => r)) by equal_lengths.
  apply List.map_id.
Qed.

Lemma dropna_pct_change_from p l :
  length (Pd.dropna (Pd.pct_change_from p l)) = length l.
Proof.
  revert p. induction l as [|x l IH]; intros p; [reflexivity|].
  cbn. rewrite IH. reflexivity.
Qed.

Lemma returns_length l :
  length (Pd.dropna (Pd.pct_change l)) = (length l - 1)%nat.
Proof.
  destruct l as [|x l]; [reflexivity|]. cbn [Pd.pct_change].
  change (Pd.dropna (None :: Pd.pct_change_from x l))
    with (Pd.dropna (Pd.pct_change_from x l)).
  rewrite dropna_pct_change_from. cbn. lia.
Qed.

(** With one or two trades there are fewer than two returns, their
    deviation is undefined, and the Sharpe ratio is reported as 0 (as it is
    for an empty ledger). *)
Theorem sharpe_needs_three_trades ledger (Hfew : (length ledger <= 2)%nat) :
  Sharpe_Ratio
    (calculate_performance_metrics initial_capital float_pow float_sqrt ledger) = 0.
Proof.
  destruct (decide (ledger = [])) as [-> | Hne]; [reflexivity|].
  destruct (report_counts initial_capital float_pow float_sqrt ledger Hne)
    as (_ & _ & Hsharpe).
  cbn zeta in Hsharpe. rewrite Hsharpe.
  rewrite equity_frame_returns.
  set (returns := Pd.dropna _).
  assert (Hlen : (length returns <= 1)%nat).
  { unfold returns. rewrite returns_length, length_map, PdFacts.sort_length. lia. }
  unfold std. destruct (Nat.ltb_spec (length returns) 2); [reflexivity | lia].
Qed.

(** For any non-empty ledger whose capital snapshots are all positive, the
    maximum drawdown lies between -100 and 0. *)
Theorem drawdown_of_positive_ledger ledger
    (Hne : ledger <> [])
    (Hpositive : Forall (fun t => 0 < capital_after t) ledger) :
  let report :=
    calculate_performance_metrics initial_capital float_pow float_sqrt ledger in
  -(100) <= Maximum_Drawdown report /\ Maximum_Drawdown report <= 0.
Proof.
  intros report.
  destruct (report_fields initial_capital float_pow float_sqrt ledger Hne)
    as (_ & Hmdd & _).
  cbn zeta in Hmdd. fold report in Hmdd.
  set (sorted := Pd.sort_values_entry_date ledger) in *.
  rewrite equity_frame_drawdown in Hmdd.
  assert (Hpos : Forall (fun c => 0 < c) (List.map capital_after sorted)).
  { apply List.Forall_map. unfold sorted. rewrite <- (PdFacts.sort_perm ledger).
    exact Hpositive. }
  assert (Hnonempty : drawdowns_of (List.map capital_after sorted) <> []).
  { pose proof (PdFacts.sort_nonempty ledger Hne) as Hs. fold sorted in Hs.
    destruct sorted as [|t l]; [contradiction|]. discriminate. }
  destruct (PdFacts.min_between (-(1)) 0 _ Hnonempty (drawdowns_bounded _ Hpos)).
  rewrite Hmdd. split; lra.
Qed.

(** The report agrees with the engine: computed on the ledger of a run with
    the run's initial capital, [Final_Capital] is the capital the run ended
    with, and [Total_Trades] is at most the number of dates in the table. *)
Theorem report_matches_run nifty_data strategy_name entry_logic :
  let report :=
    calculate_performance_metrics initial_capital float_pow float_sqrt
      (backtest_strategy nifty_data initial_capital strategy_name entry_logic) in
  Final_Capital report
  = capital (backtest_run nifty_data initial_capital strategy_name entry_logic)
  /\ (Total_Trades report <= length (unique_dates nifty_data))%nat.
Proof.
  unfold backtest_strategy. cbn zeta.
  set (ledger := trades (backtest_run nifty_data initial_capital strategy_name
                           entry_logic)).
  set (report := calculate_performance_metrics _ _ _ ledger).
  pose proof (backtest_run_boundary nifty_data initial_capital strategy_name
                entry_logic) as Hb.
  pose proof Hb as Hcap.
  apply boundary_reachable in Hcap.
  apply reachable_capital in Hcap. destruct Hcap as [_ Hcap].
  apply boundary_dates in Hb. destruct Hb as (_ & Hsub & _).
  fold ledger in Hsub, Hcap.
  assert (Hlen : (length ledger <= length (unique_dates nifty_data))%nat).
  { apply sublist_length in Hsub. rewrite length_map in Hsub. exact Hsub. }
  rewrite Hcap.
  destruct (decide (ledger = [])) as [Hnil | Hne].
  - subst report. rewrite Hnil. split; [reflexivity | cbn; lia].
  - destruct (report_fields initial_capital float_pow float_sqrt ledger Hne)
      as (_ & _ & _ & _ & Hfinal & Htotal & _).
    cbn zeta in Hfinal, Htotal. fold report in Hfinal, Htotal.
    rewrite Htotal, PdFacts.sort_length. split; [|exact Hlen].
    rewrite Hfinal, PdFacts.sort_id.
    + unfold last_capital. destruct (last ledger) eqn:E; [reflexivity|].
      apply last_None in E. contradiction.
    + apply strict_le. eapply sublist_strict; [exact Hsub | apply unique_dates_strict].
Qed.

End ReportExtras2.

(** * Further properties of the combined portfolio *)

Section PortfolioExtras.

(** [combine_portfolio] raises [KeyError('entry_date')] exactly when it is
    handed at least one ledger and all of them are empty.  Otherwise the
    combined ledger holds exactly the trades of the ledgers handed in,
    arranged by entry date, and it is empty only when no ledger was handed
    in. *)
Theorem combined_trades_sorted all_trades :
  (forall raised,
      combine_portfolio all_trades = inl raised <->
      all_trades <> [] /\ concat all_trades = [] /\ raised = KeyError "entry_date")
  /\ forall equity combined,
      combine_portfolio all_trades = inr (equity, combined) ->
      Permutation (concat all_trades) combined
      /\ StronglySorted Z.le (List.map entry_date combined)
      /\ (combined = [] <-> all_trades = []).
Proof.
  unfold combine_portfolio. destruct all_trades as [|l ls]; cbn [length Nat.eqb].
  - split.
    + intros raised. split; [discriminate | intros [H _]; contradiction].
    + intros equity combined [= <- <-]. repeat split; constructor.
  - destruct (concat (l :: ls)) as [|t ts] eqn:E; cbn [length Nat.eqb].
    + split.
      * intros raised. split; [intros [= <-]; repeat split; discriminate|].
        intros (_ & _ & ->). reflexivity.
      * discriminate.
    + split.
      * intros raised. split; [discriminate | intros (_ & H & _); discriminate].
      * intros equity combined [= <- <-].
        split; [apply (PdFacts.sort_perm (t :: ts))|].
        split; [apply (PdFacts.sort_values_entry_date_sorted (t :: ts))|].
        split; [|discriminate].
        intros H. exfalso. apply (PdFacts.sort_nonempty (t :: ts)); [discriminate|].
        exact H.
Qed.

Lemma groupby_last_keys (curve : list (Z * Q)) keys :
  Forall (fun d => In d (List.map fst curve)) keys ->
  List.map fst
    (flat_map
       (fun d => match last (List.filter (fun p => fst p =? d) curve) with
                 | Some p => [(d, snd p)]
                 | None => []
                 end) keys)
  = keys.
Proof.
  induction 1 as [|d keys Hd Hk IH]; [reflexivity|].
  cbn [flat_map]. rewrite List.map_app, IH.
  destruct (last _) as [p|] eqn:E; [reflexivity|].
  exfalso. apply last_None in E. apply in_map_iff in Hd as (p & Hp & Hin).
  assert (Hf : In p (List.filter (fun q => fst q =? d) curve)).
  { apply filter_In. split; [exact Hin | apply Z.eqb_eq, Hp]. }
  rewrite E in Hf. contradiction.
Qed.

Lemma groupby_last_dates curve :
  List.map fst (Pd.groupby_date_capital_last curve)
  = Py.sorted (Py.unique (List.map fst curve)).
Proof.
  apply groupby_last_keys. apply List.Forall_forall. intros d Hd.
  apply (Permutation_in _ (Permutation_sym (PyFacts.sorted_perm _))) in Hd.
  apply list_elem_of_In, PyFacts.unique_elem, list_elem_of_In, Hd.
Qed.

(** When [combine_portfolio] returns, its equity frame has one row for
    each exit date of the combined ledger, in increasing date order, and
    the capital of a row is the [capital_after] of the last combined trade
    that exited on that date. *)
Theorem combined_equity_last_per_date all_trades equity combined
    (Hreturns : combine_portfolio all_trades = inr (equity, combined)) :
  List.map fst equity = Py.sorted (Py.unique (List.map exit_date combined))
  /\ StronglySorted Z.lt (List.map fst equity)
  /\ forall d c,
      In (d, c) equity ->
      exists l1 t l2,
        combined = l1 ++ t :: l2
        /\ exit_date t = d /\ capital_after t = c
        /\ Forall (fun u => exit_date u <> d) l2.
Proof.
  revert Hreturns. unfold combine_portfolio.
  destruct all_trades as [|l ls]; cbn [length Nat.eqb].
  { intros [= <- <-]. split; [reflexivity|]. split; [constructor | contradiction]. }
  destruct (length (concat (l :: ls)) =? 0)%nat; [discriminate|].
  set (sorted := Pd.sort_values_entry_date (concat (l :: ls))).
  set (curve := List.map (fun row => (exit_date row, capital_after row)) sorted).
  assert (Hdates : List.map fst (Pd.groupby_date_capital_last curve)
                   = Py.sorted (Py.unique (List.map exit_date sorted))).
  { rewrite groupby_last_dates. unfold curve. rewrite List.map_map. reflexivity. }
  assert (Hstrict : StronglySorted Z.lt
                      (List.map fst (Pd.groupby_date_capital_last curve))).
  { rewrite Hdates. apply PyFacts.sorted_unique_strict. }
  rewrite (sort_date_id _ (strict_le _ Hstrict)).
  intros [= <- <-].
  split; [exact Hdates|]. split; [exact Hstrict|].
  intros d c Hin. unfold Pd.groupby_date_capital_last in Hin.
  apply in_flat_map in Hin as (d' & _ & Hin).
  destruct (last (List.filter (fun p => fst p =? d') curve)) as [p|] eqn:E;
    [|contradiction].
  destruct Hin as [[= <- <-] | []].
  apply last_filter_split in E as (c1 & c2 & Hcurve & Hp & Hc2).
  unfold curve in Hcurve.
  apply map_eq_app in Hcurve as (l1 & l2' & Hcomb & Hl1 & Hl2').
  apply map_eq_cons in Hl2' as (t & l2 & -> & Ht & Hl2).
  exists l1, t, l2. subst p. cbn in Hp |- *.
  split; [exact Hcomb|]. split; [apply Z.eqb_eq, Hp|]. split; [reflexivity|].
  subst c2. apply List.Forall_map in Hc2.
  eapply Forall_impl; [exact Hc2|]. cbn. intros u Hu. apply Z.eqb_neq, Hu.
Qed.

End PortfolioExtras.

(** * The three strategies

    Each strategy file defines [get_entry_signal(date, current_underlying,
    date_data, backtest_framework)]; the runner wraps it into the
    [entry_logic] of the engine.  The framework argument is never used.
    The thresholds are float products of the mean with a literal, rounded
    as [Float.mul] and [Float.lit] round them. *)

Module mean_reversion_strategy.
Local Open Scope Q_scope.

Definition get_entry_signal {F} (float_mean : list Q -> Q) (date : Z)
    (current_underlying : Q) (date_data : list Row) (backtest_framework : F)
  : option string * bool :=
  if (length date_data =? 0)%nat then (None, false)
  else
    let historical_intraday := date_data in
    if (length historical_intraday <? 30)%nat then (None, false)
    else
      let historical_underlying :=
        Series.mean float_mean
          (Series.tail 30 (List.map UNDERLYING historical_intraday)) in
      match historical_underlying with
      | None => (None, false)
      | Some historical_underlying =>
          if Qle_bool historical_underlying 0 then (None, false)
          else
            let upper_threshold :=
              Float.mul historical_underlying (Float.lit (1005 # 1000)) in
            let lower_threshold :=
              Float.mul historical_underlying (Float.lit (995 # 1000)) in
            if Py.Qlt_bool upper_threshold current_underlying
            then (Some "PE"%string, true)
            else if Py.Qlt_bool current_underlying lower_threshold
                 then (Some "CE"%string, true)
                 else (None, false)
      end.

End mean_reversion_strategy.

Module directional_strategy.
Local Open Scope Q_scope.

Definition get_entry_signal {F} (float_mean : list Q -> Q) (date : Z)
    (current_underlying : Q) (date_data : list Row) (backtest_framework : F)
  : option string * bool :=
  if (length date_data =? 0)%nat then (None, false)
  else
    let historical_intraday := date_data in
    if (length historical_intraday <? 200)%nat then (None, false)
    else
      let recent_avg :=
        Series.mean float_mean
          (Series.tail 20 (List.map UNDERLYING historical_intraday)) in
      match recent_avg with
      | None => (None, false)
      | Some recent_avg =>
          if Qle_bool recent_avg 0 then (None, false)
          else
            let upper_threshold := Float.mul recent_avg (Float.lit (1085 # 1000)) in
            let lower_threshold := Float.mul recent_avg (Float.lit (1125 # 10000)) in
            if Py.Qlt_bool upper_threshold current_underlying
            then (Some "CE"%string, true)
            else if Py.Qlt_bool current_underlying lower_threshold
                 then (Some "PE"%string, true)
                 else (None, false)
      end.

End directional_strategy.

Module semi_directional_strategy.
Local Open Scope Q_scope.

(** The values a quotient of two means can take as a float. *)
Inductive fval := Fin (q : Q) | PosInf | NegInf | NaN.

(** [(recent - older) / older] on floats of numpy: a missing mean gives
    [NaN]; a zero divisor gives an infinity of the sign of the dividend,
    or [NaN] for [0 / 0]. *)
Definition relative_change (recent older : option Q) : fval :=
  match recent, older with
  | Some r, Some o =>
      let change := Float.sub r o in
      if Qeq_bool o 0 then
        if Py.Qlt_bool 0 change then PosInf
        else if Py.Qlt_bool change 0 then NegInf
        else NaN
      else Fin (Float.div change o)
  | _, _ => NaN
  end.

Definition gt (m : fval) (q : Q) : bool :=
  match m with
  | Fin x => Py.Qlt_bool q x
  | PosInf => true
  | _ => false
  end.

Definition lt (m : fval) (q : Q) : bool :=
  match m with
  | Fin x => Py.Qlt_bool x q
  | NegInf => true
  | _ => false
  end.

Definition get_entry_signal {F} (float_mean : list Q -> Q) (date : Z)
    (current_underlying : Q) (date_data : list Row) (backtest_framework : F)
  : option string * bool :=
  if (length date_data =? 0)%nat then (None, false)
  else
    let historical_intraday := date_data in
    if (length historical_intraday <? 30)%nat then (None, false)
    else
      let ma :=
        Series.mean float_mean
          (Series.tail 30 (List.map UNDERLYING historical_intraday)) in
      match ma with
      | None => (None, false)
      | Some ma =>
          if Qle_bool ma 0 then (None, false)
          else
            let momentum :=
              if (10 <=? length historical_intraday)%nat then
                let recent_prices :=
                  Series.tail 5 (List.map UNDERLYING historical_intraday) in
                let older_prices :=
                  Series.head 5
                    (Series.tail 10 (List.map UNDERLYING historical_intraday)) in
                relative_change (Series.mean float_mean recent_prices)
                  (Series.mean float_mean older_prices)
              else Fin 0 in
            if Py.Qlt_bool (Float.mul ma (Float.lit (1003 # 1000))) current_underlying
               && gt momentum (Float.lit (3 # 1000))
            then (Some "PE"%string, true)
            else if Py.Qlt_bool current_underlying
                      (Float.mul ma (Float.lit (997 # 1000)))
                    && lt momentum (- Float.lit (3 # 1000))
                 then (Some "CE"%string, true)
                 else (None, false)
      end.

End semi_directional_strategy.

(** The wrapper of the runner: [entry_logic(date, current_underlying,
    date_data) = entry_function(date, current_underlying, date_data,
    framework)]. *)
Definition wrap_entry {F}
    (entry_function : Z -> Q -> list Row -> F -> option string * bool)
    (framework : F) : Z -> Q -> list Row -> option string * bool :=
  fun date current_underlying date_data =>
    entry_function date current_underlying date_data framework.

Section StrategyFacts.
Local Open Scope Q_scope.
Context {F : Type}.
Variable float_mean : list Q -> Q.



Lemma Qle_bool_false_iff a b : Qle_bool a b = false <-> b < a.
Proof.
  split; [apply Qle_bool_false|]. intros H.
  destruct (Qle_bool a b) eqn:E; [|reflexivity]. apply Qle_bool_iff in E. lra.
Qed.



End StrategyFacts.

Section StrategyFacts2.
Local Open Scope Q_scope.
Context {F : Type}.
Variable float_mean : list Q -> Q.






End StrategyFacts2.

Section MomentumFacts.
Local Open Scope Q_scope.




End MomentumFacts.

Section StrategyFacts3.
Local Open Scope Q_scope.
Context {F : Type}.
Variable float_mean : list Q -> Q.



Local Ltac guards :=
  repeat match goal with
    | H : (_ <? _)%nat = false |- _ => apply Nat.ltb_ge in H
    end.

Lemma mean_reversion_shape d u rows (framework : F) ot :
  mean_reversion_strategy.get_entry_signal float_mean d u rows framework
  = (Some ot, true) ->
  (ot = "CE"%string \/ ot = "PE"%string) /\ (30 <= length rows)%nat.
Proof.
  unfold mean_reversion_strategy.get_entry_signal.
  destruct (length rows =? 0)%nat; [discriminate|].
  destruct (length rows <? 30)%nat eqn:E; [discriminate|]. guards.
  destruct (Series.mean _ _) as [h|]; [|discriminate].
  destruct (Qle_bool h 0); [discriminate|].
  destruct (Py.Qlt_bool _ u); [intros [= <-]; auto|].
  destruct (Py.Qlt_bool u _); [intros [= <-]; auto | discriminate].
Qed.

Lemma directional_shape d u rows (framework : F) ot :
  directional_strategy.get_entry_signal float_mean d u rows framework
  = (Some ot, true) ->
  (ot = "CE"%string \/ ot = "PE"%string) /\ (200 <= length rows)%nat.
Proof.
  unfold directional_strategy.get_entry_signal.
  destruct (length rows =? 0)%nat; [discriminate|].
  destruct (length rows <? 200)%nat eqn:E; [discriminate|]. guards.
  destruct (Series.mean _ _) as [h|]; [|discriminate].
  destruct (Qle_bool h 0); [discriminate|].
  destruct (Py.Qlt_bool _ u); [intros [= <-]; auto|].
  destruct (Py.Qlt_bool u _); [intros [= <-]; auto | discriminate].
Qed.

Lemma semi_directional_shape d u rows (framework : F) ot :
  semi_directional_strategy.get_entry_signal float_mean d u rows framework
  = (Some ot, true) ->
  (ot = "CE"%string \/ ot = "PE"%string) /\ (30 <= length rows)%nat.
Proof.
  unfold semi_directional_strategy.get_entry_signal.
  destruct (length rows =? 0)%nat; [discriminate|].
  destruct (length rows <? 30)%nat eqn:E; [discriminate|]. guards.
  destruct (Series.mean float_mean (Series.tail 30 _)) as [h|]; [|discriminate].
  destruct (Qle_bool h 0); [discriminate|].
  destruct (_ && _); [intros [= <-]; auto|].
  destruct (_ && _); [intros [= <-]; auto | discriminate].
Qed.

(** What an engine run inherits from a signal that only asks for calls and
    puts and needs [n] observations. *)
Lemma signal_shapes_trades nifty_data initial_capital strategy_name entry_logic n :
  (forall d u rows ot,
      entry_logic d u rows = (Some ot, true) ->
      (ot = "CE"%string \/ ot = "PE"%string) /\ (n <= length rows)%nat) ->
  Forall (fun t =>
            (option_type t = "CE"%string \/ option_type t = "PE"%string)
            /\ (n <= length (date_rows nifty_data (entry_date t)))%nat)
    (backtest_strategy nifty_data initial_capital strategy_name entry_logic).
Proof.
  intros Hshape.
  destruct (sourced_invariant nifty_data initial_capital strategy_name entry_logic)
    as [_ [_ Hsrc]].
  eapply Forall_impl; [exact Hsrc|]. cbn.
  intros t ((idx & row & kz & _ & _ & _ & _ & _ & _ & _ & _ & _ & Hsig & _) & _).
  destruct (Hshape _ _ _ _ Hsig) as [Hot Hlen]. split; [exact Hot|].
  etransitivity; [exact Hlen | apply List.filter_length_le].
Qed.

(** Run with any of the three strategies, the engine only trades the
    options "CE" and "PE", and only on dates with at least 30 quotes (200
    for the directional strategy). *)
Theorem strategies_trade_calls_and_puts nifty_data initial_capital strategy_name
    (framework : F) :
  let traded n ledger :=
    Forall (fun t =>
              (option_type t = "CE"%string \/ option_type t = "PE"%string)
              /\ (n <= length (date_rows nifty_data (entry_date t)))%nat)
      ledger in
  traded 30%nat
    (backtest_strategy nifty_data initial_capital strategy_name
       (wrap_entry (mean_reversion_strategy.get_entry_signal float_mean) framework))
  /\ traded 200%nat
       (backtest_strategy nifty_data initial_capital strategy_name
          (wrap_entry (directional_strategy.get_entry_signal float_mean) framework))
  /\ traded 30%nat
       (backtest_strategy nifty_data initial_capital strategy_name
          (wrap_entry (semi_directional_strategy.get_entry_signal float_mean)
             framework)).
Proof.
  cbn zeta. split; [|split]; apply signal_shapes_trades; unfold wrap_entry;
    intros d u rows ot Hsig.
  - eapply mean_reversion_shape, Hsig.
  - eapply directional_shape, Hsig.
  - eapply semi_directional_shape, Hsig.
Qed.

End StrategyFacts3.

(** * Trades and their sources *)


(** * More worked examples *)

Module Sample.

(** A signal that never asks for anything. *)
Definition quiet (date : Z) (underlying : Q) (rows : list Row)
  : option string * bool :=
  (None, false).

(** Three earlier dates with the underlying at 100, 110 and 120. *)
Definition history : list Row :=
  [ mkRow 1 "09:15:00" (86400 + 33300) (Some (100 # 1)%Q) 5 (4 # 1)%Q (100 # 1)%Q
      "CE" (10 # 1)%Q;
    mkRow 2 "09:15:00" (2 * 86400 + 33300) (Some (110 # 1)%Q) 5 (3 # 1)%Q (100 # 1)%Q
      "CE" (12 # 1)%Q;
    mkRow 3 "09:15:00" (3 * 86400 + 33300) (Some (120 # 1)%Q) 5 (2 # 1)%Q (100 # 1)%Q
      "CE" (14 # 1)%Q ].

(** [n] quotes of one date with the underlying at [u]. *)
Definition flat_rows (n : nat) (u : Q) : list Row :=
  List.map
    (fun i => mkRow 1 "10:00:00" (86400 + 36000 + Z.of_nat i) (Some u) 5 (4 # 1)%Q
                (100 # 1)%Q "CE" (10 # 1)%Q)
    (seq 0 n).

(** Thirty quotes at [u], and two hundred. *)
Definition flat_day (u : Q) : list Row := flat_rows 30 u.
Definition long_day (u : Q) : list Row := flat_rows 200 u.

(** Thirty quotes that average 22000 and end on a rise: twenty at 22000,
    five at 21900, five at 22100. *)
Definition trend_day : list Row :=
  flat_rows 20 (22000 # 1)%Q ++ flat_rows 5 (21900 # 1)%Q ++ flat_rows 5 (22100 # 1)%Q.

(** A stand-in for the float mean: the exact mean, rounded once.  The
    quotes of the samples are whole numbers with a whole mean, so every
    order of adding them up gives this value. *)
Definition mean (l : list Q) : Q := Float.rnd (Pd.mean l).

Example moving_average_of_history :
  match calculate_moving_average history mean 4 3 with
  | Some (Some v) => (v == 110)%Q
  | _ => False
  end.
Proof. vm_compute. reflexivity. Qed.

Example moving_average_without_history :
  calculate_moving_average history mean 1 3 = None.
Proof. reflexivity. Qed.

(** The literal 1.005 as a double, and the upper threshold over a mean of
    100: just under 100.5. *)
Example literal_1_005 :
  (Float.lit (1005 # 1000) == 1131529406376837 # 1125899906842624)%Q.
Proof. vm_compute. reflexivity. Qed.

Example threshold_over_100 :
  (Float.mul (100 # 1) (Float.lit (1005 # 1000))
   == 7072058789855231 # 70368744177664)%Q.
Proof. vm_compute. reflexivity. Qed.

Example mean_reversion_sells_the_rally :
  mean_reversion_strategy.get_entry_signal mean 1 (101 # 1)%Q (flat_day (100 # 1)%Q) tt
  = (Some "PE"%string, true).
Proof. vm_compute. reflexivity. Qed.

(** At the edge of the band the rounded threshold decides: 100.5 is above
    the float product of 100 and 1.005. *)
Example mean_reversion_at_the_band_edge :
  mean_reversion_strategy.get_entry_signal mean 1 (1005 # 10)%Q
    (flat_day (100 # 1)%Q) tt
  = (Some "PE"%string, true).
Proof. vm_compute. reflexivity. Qed.

Example mean_reversion_waits_inside_the_band :
  mean_reversion_strategy.get_entry_signal mean 1 (1004 # 10)%Q
    (flat_day (100 # 1)%Q) tt
  = (None, false).
Proof. vm_compute. reflexivity. Qed.

Example directional_needs_200_quotes :
  directional_strategy.get_entry_signal mean 1 (200 # 1)%Q (flat_day (100 # 1)%Q) tt
  = (None, false).
Proof. vm_compute. reflexivity. Qed.

Example directional_follows_the_rally :
  directional_strategy.get_entry_signal mean 1 (200 # 1)%Q (long_day (100 # 1)%Q) tt
  = (Some "CE"%string, true).
Proof. vm_compute. reflexivity. Qed.

(** The quote 16285.85, as a double, is the float product of 15010 and
    1.085: not above it, so no call. *)
Example directional_at_the_band_edge :
  directional_strategy.get_entry_signal mean 1 (Float.lit (1628585 # 100))
    (long_day (15010 # 1)%Q) tt
  = (None, false).
Proof. vm_compute. reflexivity. Qed.

Example semi_directional_needs_momentum :
  semi_directional_strategy.get_entry_signal mean 1 (101 # 1)%Q
    (flat_day (100 # 1)%Q) tt
  = (None, false).
Proof. vm_compute. reflexivity. Qed.

(** 22066 is above the float product of 22000 and 1.003, and the last five
    quotes are up by more than 0.3%. *)
Example semi_directional_at_the_band_edge :
  semi_directional_strategy.get_entry_signal mean 1 (22066 # 1)%Q trend_day tt
  = (Some "PE"%string, true).
Proof. vm_compute. reflexivity. Qed.

End Sample.

Section WorkedExtras.
Local Open Scope Q_scope.

Lemma position_sizing_witness :
  match Demo.ledger !! 0%nat with
  | Some t =>
      0 < entry_price t
      /\ profit t
         = capital_before Demo.start Demo.ledger 0 * (1 # 10)
           * ((exit_price t - entry_price t) / entry_price t)
  | None => False
  end.
Proof.
  destruct (Demo.ledger !! 0%nat) as [t|] eqn:E.
  - exact (position_sizing Demo.table Demo.start "Momentum" Demo.always_call
             0%nat t E).
  - vm_compute in E. discriminate.
Defined.

Lemma loss_bounded_by_stake_witness :
  match Demo.ledger !! 0%nat with
  | Some t =>
      let before := capital_before Demo.start Demo.ledger 0 in
      0 < before /\ 0 < capital_after t
      /\ -(100) <= profit_pct t
      /\ (entry_price t <= exit_price t -> 0 <= profit t /\ before <= capital_after t)
      /\ (exit_price t <= entry_price t -> profit t <= 0 /\ capital_after t <= before)
  | None => False
  end.
Proof.
  destruct (Demo.ledger !! 0%nat) as [t|] eqn:E.
  - apply (loss_bounded_by_stake Demo.table Demo.start "Momentum" Demo.always_call
             0%nat t).
    + reflexivity.
    + repeat constructor; discriminate.
    + exact E.
  - vm_compute in E. discriminate.
Defined.

Lemma no_signal_no_trade_witness :
  backtest_strategy Demo.table Demo.start "Quiet" Sample.quiet = []
  /\ Forall (fun s => trades s = [] /\ live_positions s = []
                      /\ capital s = Demo.start)
       (backtest_trace Demo.table Demo.start "Quiet" Sample.quiet).
Proof.
  apply (no_signal_no_trade Demo.table Demo.start "Quiet" Sample.quiet).
  intros d u rows. reflexivity.
Defined.

Lemma atm_strike_nearest_fifty_witness :
  0 < (22010 # 1)
  /\ (22000 mod 50 = 0)%Z
  /\ (22010 # 1) - 25 <= inject_Z 22000 /\ inject_Z 22000 <= (22010 # 1) + 25.
Proof.
  apply (proj2 atm_strike_nearest_fifty (22010 # 1) 22000%Z). reflexivity.
Defined.

Lemma nearest_expiry_is_nearest_witness :
  match get_nearest_expiry Demo.table 1 with
  | Some e => exists r, In r (date_rows Demo.table 1) /\ Expiry r = e
  | None => False
  end.
Proof.
  destruct (get_nearest_expiry Demo.table 1) as [e|] eqn:E.
  - exact (proj1 (proj2 (nearest_expiry_is_nearest Demo.table 1) e E)).
  - vm_compute in E. discriminate.
Defined.

(** The average over the three earlier dates, and the same table with a
    row of the current date added. *)
Lemma moving_average_from_history_witness :
  match calculate_moving_average Sample.history Sample.mean 4 3 with
  | Some (Some v) =>
      exists quotes,
        quotes <> [] /\ v = Sample.mean quotes
        /\ Forall (fun u => exists r,
                       In r Sample.history /\ (Date r < 4)%Z
                       /\ UNDERLYING r = Some u) quotes
        /\ ((0 < 3)%Z -> (Z.of_nat (length quotes) <= 3)%Z)
  | _ => False
  end
  /\ calculate_moving_average
       (Sample.history
        ++ [mkRow 4 "09:15:00" (4 * 86400 + 33300) (Some (500 # 1)) 5 (1 # 1) (100 # 1)
              "CE" (16 # 1)])
       Sample.mean 4 3
     = calculate_moving_average Sample.history Sample.mean 4 3.
Proof.
  split.
  - destruct (calculate_moving_average Sample.history Sample.mean 4 3) as [[v|]|] eqn:E.
    + exact (proj1 (proj2 (moving_average_from_history Sample.history Sample.mean
                             4 3)) v E).
    + vm_compute in E. discriminate.
    + vm_compute in E. discriminate.
  - apply (proj2 (proj2 (moving_average_from_history Sample.history Sample.mean 4 3))).
    reflexivity.
Defined.




Lemma sharpe_needs_three_trades_witness :
  Sharpe_Ratio
    (calculate_performance_metrics Demo.start Standin.pow Standin.sqrt Demo.ledger)
  = 0.
Proof.
  apply (sharpe_needs_three_trades Demo.start Standin.pow Standin.sqrt Demo.ledger).
  vm_compute. repeat constructor.
Defined.

Lemma drawdown_of_positive_ledger_witness :
  let report :=
    calculate_performance_metrics Demo.start Standin.pow Standin.sqrt Demo.combined in
  -(100) <= Maximum_Drawdown report /\ Maximum_Drawdown report <= 0.
Proof.
  apply (drawdown_of_positive_ledger Demo.start Standin.pow Standin.sqrt
           Demo.combined).
  - vm_compute. discriminate.
  - vm_compute. repeat constructor.
Defined.

Lemma combined_trades_sorted_witness :
  match combine_portfolio [Demo.ledger; Demo.ledger'] with
  | inr (_, combined) =>
      Permutation (concat [Demo.ledger; Demo.ledger']) combined
      /\ StronglySorted Z.le (List.map entry_date combined)
      /\ (combined = [] <-> [Demo.ledger; Demo.ledger'] = [])
  | inl _ => False
  end.
Proof.
  destruct (combine_portfolio [Demo.ledger; Demo.ledger']) as [e | [equity combined]]
    eqn:E.
  - vm_compute in E. discriminate.
  - exact (proj2 (combined_trades_sorted [Demo.ledger; Demo.ledger'])
             equity combined E).
Defined.

Lemma combined_equity_last_per_date_witness :
  match combine_portfolio [Demo.ledger; Demo.ledger'] with
  | inr ((d, c) :: _, combined) =>
      exists l1 t l2,
        combined = l1 ++ t :: l2
        /\ exit_date t = d /\ capital_after t = c
        /\ Forall (fun u => exit_date u <> d) l2
  | _ => False
  end.
Proof.
  destruct (combine_portfolio [Demo.ledger; Demo.ledger'])
    as [e | [[|[d c] rest] combined]] eqn:E.
  - vm_compute in E. discriminate.
  - vm_compute in E. discriminate.
  - apply (proj2 (proj2 (combined_equity_last_per_date
                           [Demo.ledger; Demo.ledger'] _ _ E)) d c).
    left. reflexivity.
Defined.

End WorkedExtras.
